(** * neuroanalysis/miesnwb.py: reading MIES-generated NWB files

    A shallow embedding of the lab-notebook reconciliation
    ([MiesNwb.notebook]), the IgorPro date conversion, the per-recording
    metadata ([MiesRecording]) and the stand-alone test pulses
    ([MiesTestPulse]).

    - numpy [float64] values are Rocq's primitive binary64 floats, so NaN,
      infinities and rounding are those of the program;
    - a 2-D numpy array is a list of rows, the notebook a list of records
      (each record: fields x channels);
    - Python exceptions are the [Raise] branch of [result]; attribute
      look-ups on objects that may lack the attribute go through [attr];
    - datetimes are points on the microsecond time line of the proleptic
      Gregorian calendar, as [datetime] stores them; the float returned by
      [total_seconds()] is kept as the binary64 value of [SpecFloat], whose
      order is defined inside Rocq. *)

From Stdlib Require Import String ZArith List Bool Lia.
From Stdlib Require Import Floats.PrimFloat Floats.FloatOps Floats.SpecFloat.
Import ListNotations.

Set Warnings "-inexact-float".

(** ** Python values and exceptions *)

Module Py.

Inductive exn : Type :=
| KeyError
| IndexError
| StopIteration
| ValueError
| OverflowError
| TypeError
| AttributeError
| OutOfFuel. (* not a Python exception: a loop of the model ran out of steps *)

Inductive result (A : Type) : Type :=
| Ok (a : A)
| Raise (e : exn).

Arguments Ok {A} a.
Arguments Raise {A} e.

Definition bind {A B : Type} (c : result A) (k : A -> result B) : result B :=
  match c with
  | Ok a => k a
  | Raise e => Raise e
  end.

Definition is_ok {A : Type} (c : result A) : bool :=
  match c with
  | Ok _ => true
  | Raise _ => false
  end.

Fixpoint mapM {A B : Type} (f : A -> result B) (l : list A) : result (list B) :=
  match l with
  | [] => Ok []
  | a :: l' =>
      bind (f a) (fun b => bind (mapM f l') (fun bs => Ok (b :: bs)))
  end.

(** [l[i]] for a non-negative index. *)
Definition getitem {A : Type} (l : list A) (i : nat) : result A :=
  match nth_error l i with
  | Some a => Ok a
  | None => Raise IndexError
  end.

(** *** float64 *)

Definition isnan (x : float) : bool := PrimFloat.is_nan x.

Definition isfinite (x : float) : bool := PrimFloat.is_finite x.

(** [int(x)]: truncation toward zero; [ValueError] on NaN and
    [OverflowError] on an infinity. *)
Definition int (x : float) : result Z :=
  match Prim2SF x with
  | S754_zero _ => Ok 0%Z
  | S754_finite s m e =>
      let a := match e with
               | Zneg p => Z.shiftr (Zpos m) (Zpos p)
               | _ => Z.shiftl (Zpos m) e
               end in
      Ok (if s then Z.opp a else a)
  | S754_infinity _ => Raise OverflowError
  | S754_nan => Raise ValueError
  end.

(** The exact value of [x * k], rounded to the nearest integer, halves away
    from zero ([None] for NaN and the infinities). [round(x)] is the case
    [k = 1]. *)
Definition round_scaled (k : Z) (x : float) : option Z :=
  match Prim2SF x with
  | S754_zero _ => Some 0%Z
  | S754_finite s m e =>
      let num := match e with
                 | Zneg _ => (Zpos m * k)%Z
                 | _ => (Z.shiftl (Zpos m) e * k)%Z
                 end in
      let den := match e with
                 | Zneg p => Z.shiftl 1 (Zpos p)
                 | _ => 1%Z
                 end in
      let a := ((2 * num + den) / (2 * den))%Z in
      Some (if s then Z.opp a else a)
  | S754_infinity _ => None
  | S754_nan => None
  end.

Definition round (x : float) : result Z :=
  match round_scaled 1 x with
  | Some n => Ok n
  | None => Raise ValueError
  end.

(** *** Long integers and floats *)

(** A long integer as the operand of a float operation: the integer
    itself, not yet rounded. *)
Definition long_operand (z : Z) : spec_float :=
  match z with
  | Z0 => S754_zero false
  | Zpos p => S754_finite false p 0%Z
  | Zneg p => S754_finite true p 0%Z
  end.

(** [PyNumber_TrueDivide(a, b)] on two long integers, [b > 0]: the float
    nearest to the exact quotient (ties to even), as a binary64 value. *)
Definition true_divide (a : Z) (b : positive) : spec_float :=
  SFdiv prec emax (long_operand a) (S754_finite false b 0%Z).

(** A binary64 value that is neither NaN nor negative. *)
Definition nonneg_float (x : spec_float) : bool :=
  match x with
  | S754_nan => false
  | S754_zero s | S754_infinity s | S754_finite s _ _ => negb s
  end.

(** *** Insertion-ordered dictionaries ([dict], [OrderedDict]) *)

Section Dict.
Context {K V : Type} (eqb : K -> K -> bool).

Fixpoint od_get (d : list (K * V)) (k : K) : option V :=
  match d with
  | [] => None
  | (k', v) :: d' => if eqb k' k then Some v else od_get d' k
  end.

(** [d[k] = v]: an existing key keeps its place. *)
Fixpoint od_set (d : list (K * V)) (k : K) (v : V) : list (K * V) :=
  match d with
  | [] => [(k, v)]
  | (k', v') :: d' =>
      if eqb k' k then (k', v) :: d' else (k', v') :: od_set d' k v
  end.

(** [d[k]] *)
Definition od_getitem (d : list (K * V)) (k : K) : result V :=
  match od_get d k with
  | Some v => Ok v
  | None => Raise KeyError
  end.

(** [OrderedDict(pairs)] *)
Definition od_of_list (pairs : list (K * V)) : list (K * V) :=
  fold_left (fun d kv => od_set d (fst kv) (snd kv)) pairs [].
End Dict.

(** [enumerate(l)] *)
Definition enumerate {A : Type} (l : list A) : list (nat * A) :=
  combine (seq 0 (length l)) l.

End Py.

Import Py.

Declare Scope py_scope.
Delimit Scope py_scope with py.
Notation "x <- c ;; k" := (bind c (fun x => k))
  (at level 61, c at next level, right associativity) : py_scope.
Notation "' p <- c ;; k" := (bind c (fun p => k))
  (at level 61, p pattern, c at next level, right associativity) : py_scope.
Local Open Scope py_scope.

(** ** datetime *)

Module Datetime.

Local Open Scope Z_scope.

Definition is_leap (y : Z) : bool :=
  (y mod 4 =? 0) && (negb (y mod 100 =? 0) || (y mod 400 =? 0)).

Definition days_before_year (y : Z) : Z :=
  let y1 := y - 1 in
  y1 * 365 + y1 / 4 - y1 / 100 + y1 / 400.

Definition days_in_month (y m : Z) : Z :=
  if m =? 2 then (if is_leap y then 29 else 28)
  else if (m =? 4) || (m =? 6) || (m =? 9) || (m =? 11) then 30
  else 31.

Definition days_before_month (y m : Z) : Z :=
  fold_left (fun acc k => acc + days_in_month y (Z.of_nat k))
            (seq 1 (Z.to_nat (m - 1))) 0.

(** Proleptic Gregorian ordinal; 0001-01-01 is day 1. *)
Definition ymd2ord (y m d : Z) : Z :=
  days_before_year y + days_before_month y m + d.

Definition MINYEAR : Z := 1.
Definition MAXYEAR : Z := 9999.

Definition US_PER_DAY : Z := 86400 * 1000000.

(** A [datetime] is the number of microseconds since 0001-01-01T00:00:00;
    a [timedelta] is a signed number of microseconds. *)
Definition datetime : Type := Z.
Definition timedelta : Type := Z.

Definition MAX_DATETIME : Z := ymd2ord (MAXYEAR + 1) 1 1 * US_PER_DAY - US_PER_DAY - 1.

Definition in_range (us : Z) : bool := (0 <=? us) && (us <=? MAX_DATETIME).

(** Midnight at the start of a calendar day. *)
Definition midnight (y m d : Z) : datetime := (ymd2ord y m d - 1) * US_PER_DAY.

(** [datetime(y, m, d)] *)
Definition mk_datetime (y m d : Z) : result datetime :=
  if (MINYEAR <=? y) && (y <=? MAXYEAR) && (1 <=? m) && (m <=? 12)
     && (1 <=? d) && (d <=? days_in_month y m)
  then Ok (midnight y m d)
  else Raise ValueError.

(** [a - b] for two datetimes *)
Definition sub_datetime (a b : datetime) : timedelta := a - b.

(** [a - delta]: [OverflowError] when the date leaves years 1..9999. *)
Definition sub_timedelta (a : datetime) (delta : timedelta) : result datetime :=
  if in_range (a - delta) then Ok (a - delta) else Raise OverflowError.

(** [delta_to_microseconds]: a timedelta as a count of microseconds. *)
Definition total_microseconds (delta : timedelta) : Z := delta.

(** [timedelta.total_seconds()]: the count of microseconds divided by
    [10**6] by true division. *)
Definition total_seconds (delta : timedelta) : spec_float :=
  true_divide (total_microseconds delta) 1000000.

(** The C conversion [(double)n] of an integer. *)
Definition double_of_long (n : Z) : float :=
  SF2Prim (binary_normalize prec emax n 0 false).

(** The C conversion [(long)x] of a finite double: truncation toward
    zero. It is applied to finite values only. *)
Definition trunc (x : float) : Z :=
  match Prim2SF x with
  | S754_finite s m e =>
      let a := match e with
               | Zneg p => Z.shiftr (Zpos m) (Zpos p)
               | _ => Z.shiftl (Zpos m) e
               end in
      if s then Z.opp a else a
  | _ => 0
  end.

(** [_PyTime_DoubleToTimet] with a 64-bit [time_t]: the timestamp
    truncated to whole seconds. A NaN, an infinity or a value beyond
    [time_t] ends in [ValueError], here or in [gmtime]. *)
Definition double_to_time_t (x : float) : result Z :=
  match Prim2SF x with
  | S754_nan | S754_infinity _ => Raise ValueError
  | _ =>
      let r := trunc x in
      if (- 2 ^ 63 <=? r) && (r <? 2 ^ 63) then Ok r else Raise ValueError
  end.

(** [round_to_long]: [floor(x + 0.5)] for [x >= 0], [ceil(x - 0.5)]
    otherwise, both sums computed in doubles. *)
Definition round_to_long (x : float) : Z :=
  if (0 <=? x)%float then trunc (x + 0.5)%float else trunc (x - 0.5)%float.

(** [datetime_from_timestamp]: the whole seconds and the microseconds that
    are read off the double. The fraction is multiplied by [1e6] and
    rounded as a double. *)
Definition timet_and_us (timestamp : float) : result (Z * Z) :=
  timet <- double_to_time_t timestamp ;;
  let fraction := (timestamp - double_of_long timet)%float in
  let us := round_to_long (fraction * 1e6)%float in
  let '(timet, us) :=
    if us <? 0 then (timet - 1, us + 1000000) else (timet, us) in
  let '(timet, us) :=
    if us =? 1000000 then (timet + 1, 0) else (timet, us) in
  Ok (timet, us).

(** [datetime.utcfromtimestamp(t)]: seconds since 1970-01-01 UTC, no time
    zone involved; [ValueError] outside years 1..9999. *)
Definition utcfromtimestamp (t : float) : result datetime :=
  ' (timet, us) <- timet_and_us t ;;
  epoch <- mk_datetime 1970 1 1 ;;
  let d := epoch + (timet * 1000000 + us) in
  if in_range d then Ok d else Raise ValueError.

End Datetime.

(** ** class MiesNwb *)

Module MiesNwb.

(** One row of the lab notebook, [nb[i]]: fields x channels. *)
Definition record : Type := list (list float).

(** What the model keeps of the HDF5 file: the two notebook datasets of the
    device, [numericalKeys[0]] and [numericalValues]. *)
Record hdf_file : Type := {
  numericalKeys : list string;
  numericalValues : list record
}.

(** [rec[mask] = rec2[mask]] with [mask = ~np.isnan(rec2)], on one row of
    channels and on a whole record. Both arrays are slices of one ndarray
    and so have one shape. *)
Fixpoint overlay_row (a b : list float) : list float :=
  match a, b with
  | x :: a', y :: b' => (if isnan y then x else y) :: overlay_row a' b'
  | _, _ => a
  end.

Fixpoint overlay (rec rec2 : record) : record :=
  match rec, rec2 with
  | ra :: rec', rb :: rec2' => overlay_row ra rb :: overlay rec' rec2'
  | _, _ => rec
  end.

(** [nb_iter.next()] on [iter(range(n))]; the iterator is represented by the
    next index it yields. *)
Definition iter_next (n : nat) (nb_iter : nat) : result (nat * nat) :=
  if nb_iter <? n then Ok (nb_iter, S nb_iter) else Raise StopIteration.

(** [OrderedDict([(k, i) for i,k in enumerate(nb_keys)])] *)
Definition nb_fields_of (nb_keys : list string) : list (string * nat) :=
  od_of_list String.eqb (map (fun ik => (snd ik, fst ik)) (enumerate nb_keys)).

(** The shape of a record and one of its cells, [rec[f, c]]. *)
Definition has_shape (F C : nat) (rec : record) : Prop :=
  length rec = F /\ Forall (fun row => length row = C) rec.

Definition has_shapeb (F C : nat) (rec : record) : bool :=
  (length rec =? F) && forallb (fun row => length row =? C) rec.

Definition cell (rec : record) (f c : nat) : float :=
  nth c (nth f rec []) nan.

(** [rec[f, c]], also written [rec[f][c]]. *)
Definition item (rec : record) (f c : nat) : result float :=
  row <- getitem rec f ;;
  getitem row c.

Record scan_state : Type := {
  sweep_entries : list (Z * record);
  tp_entries : list record
}.

Section Scan.
Variable nb_fields : list (string * nat).
Variable nb : list record.

Let n : nat := length nb.

Definition entry_source_type_index : option nat :=
  od_get String.eqb nb_fields "EntrySourceType"%string.

(** Lines 69-80: the heuristic for files without [EntrySourceType].
    Returns [(is_tp_record, is_sweep_record, nb_iter)]. *)
Definition classify_legacy (i nb_iter : nat) (rec : record) (sweep_num : float)
  : result (bool * bool * nat) :=
  if i <? n - 1 then
    k <- od_getitem String.eqb nb_fields "TP Peak Resistance"%string ;;
    tp_peak <- getitem rec k ;;
    if existsb isfinite tp_peak then
      rec_next <- getitem nb (i + 1) ;;
      k2 <- od_getitem String.eqb nb_fields "TP Pulse Duration"%string ;;
      tp_dur <- getitem rec_next k2 ;;
      if existsb isfinite tp_dur then
        ' (_, nb_iter') <- iter_next n nb_iter ;;
        Ok (true, false, nb_iter')
      else Ok (false, isfinite sweep_num, nb_iter)
    else Ok (false, isfinite sweep_num, nb_iter)
  else Ok (false, false, nb_iter).

(** Lines 56-80: classification of row [i]. *)
Definition classify (i nb_iter : nat) : result (bool * bool * nat) :=
  rec <- getitem nb i ;;
  sweep_num <- item rec 0 0 ;;
  match entry_source_type_index with
  | Some idx =>
      d <- item rec idx 0 ;;
      if negb (isnan d) then
        if (d =? 0)%float then Ok (false, true, nb_iter)
        else Ok (true, false, nb_iter)
      else classify_legacy i nb_iter rec sweep_num
  | None => classify_legacy i nb_iter rec sweep_num
  end.

(** [int(sweep_num)] for [sweep_num = rec[0,0]] *)
Definition sweep_number (rec : record) : result Z :=
  sweep_num <- item rec 0 0 ;;
  int sweep_num.

(** Lines 93-97 on the running entry of one sweep: the first record is
    copied, a later one is laid over the entry. *)
Definition merge_row (running : option record) (rec : record) : record :=
  match running with
  | None => rec
  | Some entry => overlay entry rec
  end.

(** Lines 82-97: what is recorded for row [i]. *)
Definition record_row (i nb_iter : nat) (is_tp_record is_sweep_record : bool)
           (st : scan_state) : result (nat * scan_state) :=
  rec <- getitem nb i ;;
  if is_tp_record then
    ' (_, nb_iter') <- iter_next n nb_iter ;;
    rec2 <- getitem nb (i + 1) ;;
    Ok (nb_iter', {| sweep_entries := sweep_entries st;
                     tp_entries := tp_entries st ++ [overlay rec rec2] |})
  else if is_sweep_record then
    sweep_num <- sweep_number rec ;;
    let entry := merge_row (od_get Z.eqb (sweep_entries st) sweep_num) rec in
    Ok (nb_iter, {| sweep_entries := od_set Z.eqb (sweep_entries st) sweep_num entry;
                    tp_entries := tp_entries st |})
  else Ok (nb_iter, st).

(** The body of [for i in nb_iter], lines 56-97. *)
Definition body (i nb_iter : nat) (st : scan_state) : result (nat * scan_state) :=
  ' (is_tp_record, is_sweep_record, nb_iter') <- classify i nb_iter ;;
  record_row i nb_iter' is_tp_record is_sweep_record st.

(** [for i in nb_iter: ...]; the loop ends when the iterator is used up. *)
Fixpoint for_rows (fuel : nat) (nb_iter : nat) (st : scan_state) : result scan_state :=
  match iter_next n nb_iter with
  | Raise _ => Ok st
  | Ok (i, nb_iter') =>
      match fuel with
      | O => Raise OutOfFuel
      | S fuel' =>
          ' (nb_iter'', st') <- body i nb_iter' st ;;
          for_rows fuel' nb_iter'' st'
      end
  end.

Definition scan_init : scan_state := {| sweep_entries := []; tp_entries := [] |}.

(** Lines 41-97. *)
Definition scan : result scan_state := for_rows n 0 scan_init.

(** [visits i st]: the loop binds [i] to the row index [i] with the entries
    collected so far being [st]. *)
Inductive visits : nat -> scan_state -> Prop :=
| visits_first : 0 < n -> visits 0 scan_init
| visits_next : forall i st nb_iter st',
    visits i st ->
    body i (S i) st = Ok (nb_iter, st') ->
    nb_iter < n ->
    visits nb_iter st'.

(** The rows the loop visits, in scan order, each with its
    [(is_tp_record, is_sweep_record)]. *)
Fixpoint trace (fuel : nat) (nb_iter : nat) : list (nat * (bool * bool)) :=
  match iter_next n nb_iter with
  | Raise _ => []
  | Ok (i, nb_iter1) =>
      match fuel with
      | O => []
      | S fuel' =>
          match classify i nb_iter1 with
          | Raise _ => []
          | Ok (is_tp_record, is_sweep_record, nb_iter2) =>
              (i, (is_tp_record, is_sweep_record))
                :: (if is_tp_record then
                      match iter_next n nb_iter2 with
                      | Ok (_, nb_iter3) => trace fuel' nb_iter3
                      | Raise _ => []
                      end
                    else trace fuel' nb_iter2)
          end
      end
  end.

(** The visited row [i] as a sweep record of sweep [k]. *)
Definition sweep_row_of (k : Z) (ev : nat * (bool * bool)) : list record :=
  let '(i, (is_tp_record, is_sweep_record)) := ev in
  if negb is_tp_record && is_sweep_record then
    match nth_error nb i with
    | Some rec =>
        match sweep_number rec with
        | Ok k' => if (k' =? k)%Z then [rec] else []
        | Raise _ => []
        end
    | None => []
    end
  else [].

(** The rows of sweep [k]: those classified as sweep records whose
    truncated sweep number is [k], from position [nb_iter] on. *)
Definition sweep_rows_from (fuel nb_iter : nat) (k : Z) : list record :=
  flat_map (sweep_row_of k) (trace fuel nb_iter).

Definition sweep_rows (k : Z) : list record := sweep_rows_from n 0 k.
End Scan.

(** Lines 99-120 for one sweep entry. *)
Section Propagate.
Variable nb_keys : list string.

Definition fill (row : list float) (v : float) : list float :=
  map (fun _ => v) row.

(** [mask = ~np.isnan(entry[:,8]); entry[mask] = entry[:,8:9][mask]] *)
Definition apply_global (entry : record) : result record :=
  mapM (fun row => g <- getitem row 8 ;;
                   Ok (if isnan g then row else fill row g)) entry.

(** [entry[:4] = entry[:4, 0:1]] *)
Definition broadcast_first4 (entry : record) : record :=
  map (fun ir => if fst ir <? 4
                 then match snd ir with
                      | [] => []
                      | v :: _ => fill (snd ir) v
                      end
                 else snd ir)
      (enumerate entry).

Fixpoint set_item {A : Type} (l : list A) (i : nat) (a : A) : list A :=
  match l, i with
  | [], _ => []
  | _ :: l', O => a :: l'
  | x :: l', S i' => x :: set_item l' i' a
  end.

(** The loop over the [Async AD] keys: [entry[i] = entry[i, 0]]. *)
Definition broadcast_async (entry : record) : result record :=
  fold_left (fun acc ik =>
               entry <- acc ;;
               if String.prefix "Async AD "%string (snd ik) then
                 row <- getitem entry (fst ik) ;;
                 v <- getitem row 0 ;;
                 Ok (set_item entry (fst ik) (fill row v))
               else Ok entry)
            (enumerate nb_keys) (Ok entry).

(** [None if np.isnan(v) else v] *)
Definition none_if_nan (v : float) : option float :=
  if isnan v then None else Some v.

(** The conversion to a list of dicts, one per channel. *)
Definition to_dicts (entry : record) : result (list (list (string * option float))) :=
  mapM (fun i =>
          pairs <- mapM (fun jk =>
                           row <- getitem entry (fst jk) ;;
                           v <- getitem row i ;;
                           Ok (snd jk, none_if_nan v))
                        (enumerate nb_keys) ;;
          Ok (od_of_list String.eqb pairs))
       (seq 0 (length (hd [] entry))).

Definition finish_entry (entry : record) : result (list (list (string * option float))) :=
  e1 <- apply_global entry ;;
  e3 <- broadcast_async (broadcast_first4 e1) ;;
  to_dicts e3.
End Propagate.

(** The value of [notebook()]: sweep number -> channel -> key -> value. *)
Definition notebook_t : Type := list (Z * list (list (string * option float))).

(** One entry of [test_pulse_entries()]. *)
Record tp_entry : Type := {
  timestamp : Datetime.datetime;
  values : list (string * list float);
  stim : list (string * float)
}.

(** An attribute that an instance may not have. *)
Inductive attr (A : Type) : Type :=
| Missing
| Present (a : A).

Arguments Missing {A}.
Arguments Present {A} a.

Definition getattr {A : Type} (a : attr A) : result A :=
  match a with
  | Present v => Ok v
  | Missing => Raise AttributeError
  end.

Record t : Type := {
  filename : string;
  hdf : hdf_file;
  _notebook : option notebook_t;
  _tp_notebook : attr (list record);
  _notebook_keys : attr (list (string * nat));
  _tp_entries : attr (option (list tp_entry))
}.

(** Modelled from the spec: [Experiment.__init__] (neuroanalysis/data.py, not
    among the sources) belongs to the generic base-class hierarchy and is
    taken to create none of the notebook attributes. [__init__] itself sets
    [_notebook = None] and nothing else of the notebook state. *)
Definition __init__ (filename : string) (file : hdf_file) : t :=
  {| filename := filename;
     hdf := file;
     _notebook := None;
     _tp_notebook := Missing;
     _notebook_keys := Missing;
     _tp_entries := Missing |}.

Definition notebook (self : t) : result notebook_t * t :=
  match _notebook self with
  | Some cached => (Ok cached, self)
  | None =>
      let nb_keys := numericalKeys (hdf self) in
      let nb_fields := nb_fields_of nb_keys in
      let nb := numericalValues (hdf self) in
      let computed :=
        st <- scan nb_fields nb ;;
        sweeps <- mapM (fun se => meta <- finish_entry nb_keys (snd se) ;;
                                  Ok (fst se, meta))
                       (sweep_entries st) ;;
        Ok (sweeps, tp_entries st) in
      match computed with
      | Raise e => (Raise e, self)
      | Ok (sweeps, tps) =>
          (Ok sweeps,
           {| filename := filename self;
              hdf := hdf self;
              _notebook := Some sweeps;
              _tp_notebook := Present tps;
              _notebook_keys := Present nb_fields;
              _tp_entries := Present None |})
      end
  end.

(** [igorpro_date(timestamp)] *)
Definition igorpro_date (timestamp : float) : result Datetime.datetime :=
  a <- Datetime.mk_datetime 1970 1 1 ;;
  b <- Datetime.mk_datetime 1904 1 1 ;;
  let dt := Datetime.sub_datetime a b in
  u <- Datetime.utcfromtimestamp timestamp ;;
  Datetime.sub_timedelta u dt.

Definition fields : list string :=
  ["TP Baseline Vm"%string; "TP Baseline pA"%string; "TP Peak Resistance"%string;
   "TP Steady State Resistance"%string].

Definition stim_fields : list string :=
  ["TP Baseline Fraction"%string; "TP Amplitude VC"%string; "TP Amplitude IC"%string;
   "TP Pulse Duration"%string].

(** [(f, rec[self._notebook_keys[f], :8])] *)
Definition field_values (self : t) (rec : record) (f : string)
  : result (string * list float) :=
  keys <- getattr (_notebook_keys self) ;;
  i <- od_getitem String.eqb keys f ;;
  row <- getitem rec i ;;
  Ok (f, firstn 8 row).

(** [(f, rec[self._notebook_keys[f], 8])] *)
Definition stim_value (self : t) (rec : record) (f : string)
  : result (string * float) :=
  keys <- getattr (_notebook_keys self) ;;
  i <- od_getitem String.eqb keys f ;;
  row <- getitem rec i ;;
  v <- getitem row 8 ;;
  Ok (f, v).

(** [MiesNwb.igorpro_date(rec[1, 0])] *)
Definition tp_timestamp (rec : record) : result Datetime.datetime :=
  ts <- item rec 1 0 ;;
  igorpro_date ts.

(** The schema and the shape a table needs for [test_pulse_entries]: the
    eight test-pulse keys are notebook keys, and every record has one row
    per key and nine channels. *)
Definition tp_schema (file : hdf_file) : Prop :=
  Forall (fun f => In f (numericalKeys file)) (fields ++ stim_fields)
  /\ Forall (has_shape (length (numericalKeys file)) 9) (numericalValues file).

(** The body of [for rec in self._tp_notebook]. *)
Definition tp_entry_of (self : t) (rec : record) : result tp_entry :=
  date <- tp_timestamp rec ;;
  vals <- mapM (field_values self rec) fields ;;
  st <- mapM (stim_value self rec) stim_fields ;;
  Ok {| timestamp := date;
        values := od_of_list String.eqb vals;
        stim := od_of_list String.eqb st |}.

Definition set_tp_entries (self : t) (v : list tp_entry) : t :=
  {| filename := filename self;
     hdf := hdf self;
     _notebook := _notebook self;
     _tp_notebook := _tp_notebook self;
     _notebook_keys := _notebook_keys self;
     _tp_entries := Present (Some v) |}.

(** The loop of [test_pulse_entries]: every finished entry is appended to
    [self._tp_entries], also when a later record fails. *)
Fixpoint tp_loop (recs : list record) (self : t) (acc : list tp_entry)
  : result (list tp_entry) * t :=
  match recs with
  | [] => (Ok acc, self)
  | rec :: recs' =>
      match tp_entry_of self rec with
      | Raise e => (Raise e, self)
      | Ok entry =>
          tp_loop recs' (set_tp_entries self (acc ++ [entry])) (acc ++ [entry])
      end
  end.

Definition test_pulse_entries (self : t) : result (list tp_entry) * t :=
  match getattr (_tp_entries self) with
  | Raise e => (Raise e, self)
  | Ok (Some cached) => (Ok cached, self)
  | Ok None =>
      let self1 := set_tp_entries self [] in
      match getattr (_tp_notebook self1) with
      | Raise e => (Raise e, self1)
      | Ok recs => tp_loop recs self1 []
      end
  end.

End MiesNwb.

(** ** class MiesTestPulse *)

Module MiesTestPulse.

Inductive clamp_mode_t : Type := vc | ic.

(** [self._nb_entry]: the entry with every array replaced by the value of
    one channel. *)
Record nb_entry_t : Type := {
  nb_timestamp : Datetime.datetime;
  nb_values : list (string * float);
  nb_stim : list (string * float)
}.

(** Modelled from the spec: [PatchClampRecording] (neuroanalysis/data.py, not
    among the sources) keeps the [clamp_mode], [device_id] and [start_time]
    given to its constructor and returns them from the properties of the
    same names; clamp mode is immutable for the lifetime of a recording. *)
Record t : Type := {
  _nb_entry : nb_entry_t;
  device_id : nat;
  start_time : Datetime.datetime;
  clamp_mode : clamp_mode_t
}.

(** [(k, v[chan])] *)
Definition channel_value (chan : nat) (kv : string * list float)
  : result (string * float) :=
  v <- getitem (snd kv) chan ;;
  Ok (fst kv, v).

Definition __init__ (entry : MiesNwb.tp_entry) (rec_device_id : nat) : result t :=
  let chan := rec_device_id in
  vals <- mapM (channel_value chan) (MiesNwb.values entry) ;;
  let nb_entry := {| nb_timestamp := MiesNwb.timestamp entry;
                     nb_values := vals;
                     nb_stim := MiesNwb.stim entry |} in
  vm <- od_getitem String.eqb vals "TP Baseline Vm"%string ;;
  Ok {| _nb_entry := nb_entry;
        device_id := rec_device_id;
        start_time := MiesNwb.timestamp entry;
        clamp_mode := if isnan vm then vc else ic |}.

Definition access_resistance (self : t) : result (option float) :=
  match clamp_mode self with
  | vc =>
      v <- od_getitem String.eqb (nb_values (_nb_entry self)) "TP Peak Resistance"%string ;;
      Ok (Some (v * 1e6)%float)
  | ic => Ok None
  end.

Definition input_resistance (self : t) : result (option float) :=
  v <- od_getitem String.eqb (nb_values (_nb_entry self))
                  "TP Steady State Resistance"%string ;;
  Ok (Some (v * 1e6)%float).

Definition capacitance (self : t) : result (option float) := Ok None.

Definition time_constant (self : t) : result (option float) := Ok None.

Definition baseline_potential (self : t) : result (option float) :=
  match clamp_mode self with
  | ic =>
      v <- od_getitem String.eqb (nb_values (_nb_entry self)) "TP Baseline Vm"%string ;;
      Ok (Some (v * 1e-3)%float)
  | vc => Ok None
  end.

Definition baseline_current (self : t) : result (option float) :=
  match clamp_mode self with
  | vc =>
      v <- od_getitem String.eqb (nb_values (_nb_entry self)) "TP Baseline pA"%string ;;
      Ok (Some (v * 1e-12)%float)
  | ic => Ok None
  end.

End MiesTestPulse.

(** ** class MiesRecording *)

Module MiesRecording.

Import MiesTestPulse.

(** [nb[key]] on one channel's metadata dict. *)
Definition nb_get (nb : list (string * option float)) (key : string)
  : result (option float) :=
  od_getitem String.eqb nb key.

(** [nb[key] <op> ...]: arithmetic on an unset value is a [TypeError]. *)
Definition nb_number (nb : list (string * option float)) (key : string)
  : result float :=
  v <- nb_get nb key ;;
  match v with
  | Some x => Ok x
  | None => Raise TypeError
  end.

(** [nb[key] == x] *)
Definition nb_equals (nb : list (string * option float)) (key : string) (x : float)
  : result bool :=
  v <- nb_get nb key ;;
  match v with
  | Some y => Ok (y =? x)%float
  | None => Ok false
  end.

(** Modelled from the spec: [PatchClampTestPulse] (neuroanalysis/test_pulse.py,
    not among the sources) is a test pulse bound to the index window
    [indices] of the recording's own primary trace. *)
Record PatchClampTestPulse : Type := {
  indices : Z * Z
}.

Inductive test_pulse : Type :=
| Inserted (tp : PatchClampTestPulse)
| Standalone (tp : MiesTestPulse.t).

Record t : Type := {
  device_id : nat;
  notebook : list (string * option float);   (* [_meta['notebook']] *)
  holding_potential : option float;
  holding_current : option float;
  bridge_balance : MiesNwb.attr float;
  lpf_cutoff : option float;
  pipette_offset : option float;
  start_time : Datetime.datetime;
  IGORWaveScaling : float;   (* [primary_hdf.attrs['IGORWaveScaling'][1,0]] *)
  _inserted_test_pulse : option PatchClampTestPulse;
  _nearest_test_pulse : option MiesTestPulse.t
}.

(** [self['primary'].dt], set by [MiesTrace.__init__]. *)
Definition dt (self : t) : float := (IGORWaveScaling self / 1000)%float.

(** The notebook keys that [__init__] reads. *)
Definition meta_keys : list string :=
  ["V-Clamp Holding Level"; "I-Clamp Holding Level"; "Clamp Mode";
   "Bridge Bal Enable"; "Bridge Bal Value"; "LPF Cutoff"; "Pipette Offset";
   "TimeStamp"]%string.

(** Lines 257-279: the metadata of a recording from its channel's notebook
    dict. *)
Definition init_meta (headstage_id : nat) (nb : list (string * option float))
           (wave_scaling : float) : result t :=
  v_hold <- nb_get nb "V-Clamp Holding Level"%string ;;
  i_hold <- nb_get nb "I-Clamp Holding Level"%string ;;
  is_vc <- nb_equals nb "Clamp Mode"%string 0 ;;
  bridge <- (if is_vc then Ok MiesNwb.Missing
             else
               disabled <- nb_equals nb "Bridge Bal Enable"%string 0 ;;
               if disabled then Ok (MiesNwb.Present 0%float)
               else
                 v <- nb_get nb "Bridge Bal Value"%string ;;
                 match v with
                 | None => Ok (MiesNwb.Present 0%float)
                 | Some b => Ok (MiesNwb.Present (b * 1e6)%float)
                 end) ;;
  lpf <- nb_get nb "LPF Cutoff"%string ;;
  offset <- nb_get nb "Pipette Offset"%string ;;
  ts <- nb_number nb "TimeStamp"%string ;;
  datetime <- MiesNwb.igorpro_date ts ;;
  Ok {| device_id := headstage_id;
        notebook := nb;
        holding_potential := option_map (fun v => (v * 1e-3)%float) v_hold;
        holding_current := option_map (fun v => (v * 1e-12)%float) i_hold;
        bridge_balance := bridge;
        lpf_cutoff := lpf;
        pipette_offset := match offset with
                          | None => None
                          | Some o => Some (o * 1e-3)%float
                          end;
        start_time := datetime;
        IGORWaveScaling := wave_scaling;
        _inserted_test_pulse := None;
        _nearest_test_pulse := None |}.

(** [MiesRecording(sweep, sweep_id, ad_chan)]; the headstage id and the wave
    scaling are read from the HDF5 groups of the trace. *)
Definition __init__ (nwb : MiesNwb.t) (sweep_id : Z) (headstage_id : nat)
           (wave_scaling : float) : result t * MiesNwb.t :=
  match MiesNwb.notebook nwb with
  | (Raise e, nwb') => (Raise e, nwb')
  | (Ok book, nwb') =>
      (chans <- od_getitem Z.eqb book sweep_id ;;
       nb <- getitem chans headstage_id ;;
       init_meta headstage_id nb wave_scaling, nwb')
  end.

Definition clamp_mode (self : t) : result clamp_mode_t :=
  is_vc <- nb_equals (notebook self) "Clamp Mode"%string 0 ;;
  Ok (if is_vc then vc else ic).

Definition has_inserted_test_pulse (self : t) : result bool :=
  nb_equals (notebook self) "TP Insert Checkbox"%string 1.

Definition set_inserted (self : t) (tp : PatchClampTestPulse) : t :=
  {| device_id := device_id self;
     notebook := notebook self;
     holding_potential := holding_potential self;
     holding_current := holding_current self;
     bridge_balance := bridge_balance self;
     lpf_cutoff := lpf_cutoff self;
     pipette_offset := pipette_offset self;
     start_time := start_time self;
     IGORWaveScaling := IGORWaveScaling self;
     _inserted_test_pulse := Some tp;
     _nearest_test_pulse := _nearest_test_pulse self |}.

Definition set_nearest (self : t) (tp : MiesTestPulse.t) : t :=
  {| device_id := device_id self;
     notebook := notebook self;
     holding_potential := holding_potential self;
     holding_current := holding_current self;
     bridge_balance := bridge_balance self;
     lpf_cutoff := lpf_cutoff self;
     pipette_offset := pipette_offset self;
     start_time := start_time self;
     IGORWaveScaling := IGORWaveScaling self;
     _inserted_test_pulse := _inserted_test_pulse self;
     _nearest_test_pulse := Some tp |}.

(** The index window of the inserted test pulse, lines 356-368. *)
Definition inserted_window (self : t) : result PatchClampTestPulse :=
  p <- nb_number (notebook self) "TP Pulse Duration"%string ;;
  let pdur := (p / 1000)%float in
  frac <- nb_number (notebook self) "TP Baseline Fraction"%string ;;
  let bdur := (pdur / (1.0 - 2.0 * frac))%float in
  let tdur := (pdur + 2 * bdur)%float in
  let start := 0%Z in
  n <- int (tdur / dt self)%float ;;
  let stop := (start + n)%Z in
  let tp := {| indices := (start, stop) |} in
  mode <- clamp_mode self ;;
  amp <- match mode with
         | vc => a <- nb_number (notebook self) "TP Amplitude VC"%string ;;
                 Ok (a * 1e-3)%float
         | ic => a <- nb_number (notebook self) "TP Amplitude IC"%string ;;
                 Ok (a * 1e-12)%float
         end ;;
  Ok tp.

Definition inserted_test_pulse (self : t) : result (option PatchClampTestPulse) * t :=
  match _inserted_test_pulse self with
  | Some tp => (Ok (Some tp), self)
  | None =>
      match has_inserted_test_pulse self with
      | Raise e => (Raise e, self)
      | Ok false => (Ok None, self)
      | Ok true =>
          match inserted_window self with
          | Raise e => (Raise e, self)
          | Ok tp => (Ok (Some tp), set_inserted self tp)
          end
      end
  end.

(** [abs((entry['timestamp'] - start).total_seconds())], a float. *)
Definition time_distance (start : Datetime.datetime) (entry : MiesNwb.tp_entry)
  : spec_float :=
  SFabs (Datetime.total_seconds
           (Datetime.sub_datetime (MiesNwb.timestamp entry) start)).

(** The search loop of [_find_nearest_test_pulse], lines 330-336. *)
Fixpoint nearest_loop (start : Datetime.datetime) (entries : list MiesNwb.tp_entry)
         (min_dt : option spec_float) (nearest : option MiesNwb.tp_entry)
  : option MiesNwb.tp_entry :=
  match entries with
  | [] => nearest
  | entry :: entries' =>
      let dt := time_distance start entry in
      match min_dt with
      | None => nearest_loop start entries' (Some dt) (Some entry)
      | Some m =>
          if SFltb dt m then nearest_loop start entries' (Some dt) (Some entry)
          else nearest_loop start entries' min_dt nearest
      end
  end.

Definition _find_nearest_test_pulse (self : t) (nwb : MiesNwb.t)
  : result unit * t * MiesNwb.t :=
  let start := start_time self in
  match MiesNwb.test_pulse_entries nwb with
  | (Raise e, nwb') => (Raise e, self, nwb')
  | (Ok entries, nwb') =>
      match nearest_loop start entries None None with
      | None => (Ok tt, self, nwb')
      | Some nearest =>
          match MiesTestPulse.__init__ nearest (device_id self) with
          | Raise e => (Raise e, self, nwb')
          | Ok tp => (Ok tt, set_nearest self tp, nwb')
          end
      end
  end.

Definition nearest_test_pulse (self : t) (nwb : MiesNwb.t)
  : result (option test_pulse) * t * MiesNwb.t :=
  match has_inserted_test_pulse self with
  | Raise e => (Raise e, self, nwb)
  | Ok true =>
      match inserted_test_pulse self with
      | (Raise e, self') => (Raise e, self', nwb)
      | (Ok tp, self') => (Ok (option_map Inserted tp), self', nwb)
      end
  | Ok false =>
      match _nearest_test_pulse self with
      | Some tp => (Ok (Some (Standalone tp)), self, nwb)
      | None =>
          match _find_nearest_test_pulse self nwb with
          | (Raise e, self', nwb') => (Raise e, self', nwb')
          | (Ok _, self', nwb') =>
              (Ok (option_map Standalone (_nearest_test_pulse self')), self', nwb')
          end
      end
  end.

(** The window of the inserted test pulse in the words of the
    specification, [[0, round(total_duration / sample_interval))], from the
    pulse duration and the sample interval in seconds. *)
Definition spec_inserted_window (pulse_duration baseline_fraction sample_interval : float)
  : result (Z * Z) :=
  let baseline_duration := (pulse_duration / (1 - 2 * baseline_fraction))%float in
  let total_duration := (pulse_duration + 2 * baseline_duration)%float in
  n <- round (total_duration / sample_interval)%float ;;
  Ok (0%Z, n).

(** One element of [baseline_regions]: [(start, stop)], [stop = None] for an
    open end. *)
Definition region : Type := (Z * option Z)%type.

Definition baseline_regions (self : t) : result (list region) :=
  let dt := dt self in
  let regions := [] in
  a <- nb_number (notebook self) "Delay onset auto"%string ;;
  let start := (a / 1000)%float in
  u <- nb_number (notebook self) "Delay onset user"%string ;;
  let dur := (u / 1000)%float in
  regions <- (if (0 <? dur)%float then
                i0 <- int (start / dt)%float ;;
                i1 <- int (start + dur / dt)%float ;;
                Ok (regions ++ [(i0, Some i1)])
              else Ok regions) ;;
  d <- nb_number (notebook self) "Delay termination"%string ;;
  let dur := (d / 1000)%float in
  regions <- (if (0 <? dur)%float then
                i0 <- int (dur / dt)%float ;;
                Ok (regions ++ [((- i0)%Z, None)])
              else Ok regions) ;;
  Ok regions.

End MiesRecording.

(** * Example data *)

Module Examples.

Import MiesNwb.

(** A notebook schema with the [EntrySourceType] discriminant, and the schema
    of an older file without it. *)
Definition keys : list string :=
  ["SweepNum"; "TimeStamp"; "TimeStampSinceIgorEpochUTC"; "EntrySourceType";
   "TP Baseline Vm"; "TP Baseline pA"; "TP Peak Resistance";
   "TP Steady State Resistance"; "TP Baseline Fraction"; "TP Amplitude VC";
   "TP Amplitude IC"; "TP Pulse Duration"; "Clamp Mode";
   "V-Clamp Holding Level"; "I-Clamp Holding Level"; "Bridge Bal Enable";
   "Bridge Bal Value"; "LPF Cutoff"; "Pipette Offset"; "TP Insert Checkbox";
   "Delay onset auto"; "Delay onset user"; "Delay termination";
   "Async AD 2: Bath Temperature"]%string.

Definition legacy_keys : list string :=
  filter (fun k => negb (String.eqb k "EntrySourceType")) keys.

(** A record of the schema [ks] that is NaN except at the listed
    [(key, channel, value)] cells. *)
Definition put (ks : list string) (cell : string * nat * float) (rec : record)
  : record :=
  let '(key, chan, v) := cell in
  match od_get String.eqb (nb_fields_of ks) key with
  | Some i => set_item rec i (set_item (nth i rec []) chan v)
  | None => rec
  end.

Definition at_ (key : string) (chan : nat) (v : float) : string * nat * float :=
  (key, chan, v).

Definition mk (ks : list string) (cells : list (string * nat * float)) : record :=
  fold_right (put ks) (repeat (repeat nan 9) (length ks)) cells.

(** The two rows of a test-pulse block acquired in voltage clamp on
    headstage 1, at time [ts]. *)
Definition tp_first (ks : list string) (ts : float) : record :=
  mk ks [at_ "TimeStamp" 0 ts; at_ "EntrySourceType" 0 1;
         at_ "TP Peak Resistance" 1 12.5; at_ "TP Steady State Resistance" 1 150;
         at_ "TP Baseline pA" 1 (-20)].

Definition tp_second (ks : list string) (ts : float) : record :=
  mk ks [at_ "TimeStamp" 0 ts; at_ "EntrySourceType" 0 1;
         at_ "TP Pulse Duration" 8 10; at_ "TP Baseline Fraction" 8 0.25;
         at_ "TP Amplitude VC" 8 10; at_ "TP Amplitude IC" 8 (-50)].

(** Two rows of sweep 7 (the second one repeats [LPF Cutoff] with another
    value) and one row of sweep 8. *)
Definition sweep7_a (ks : list string) : record :=
  mk ks [at_ "SweepNum" 0 7; at_ "TimeStamp" 0 3600000100;
         at_ "EntrySourceType" 0 0; at_ "Clamp Mode" 1 0;
         at_ "V-Clamp Holding Level" 1 (-70); at_ "LPF Cutoff" 1 10;
         at_ "TP Insert Checkbox" 8 1; at_ "TP Pulse Duration" 8 10;
         at_ "TP Baseline Fraction" 8 0.25; at_ "TP Amplitude VC" 8 10;
         at_ "Delay onset auto" 8 100; at_ "Delay onset user" 8 200;
         at_ "Delay termination" 8 0].

Definition sweep7_b (ks : list string) : record :=
  mk ks [at_ "SweepNum" 0 7.5; at_ "TimeStamp" 0 3600000100;
         at_ "EntrySourceType" 0 0; at_ "LPF Cutoff" 1 6;
         at_ "Pipette Offset" 1 2.5].

Definition sweep8 (ks : list string) : record :=
  mk ks [at_ "SweepNum" 0 8; at_ "TimeStamp" 0 3600000200;
         at_ "EntrySourceType" 0 0; at_ "Clamp Mode" 1 1;
         at_ "I-Clamp Holding Level" 1 (-30); at_ "Bridge Bal Enable" 1 1;
         at_ "Bridge Bal Value" 1 8; at_ "TP Insert Checkbox" 8 0].

(** A file with two stand-alone test-pulse blocks, 200 s before and 200 s
    after sweep 8. *)
Definition table : list record :=
  [tp_first keys 3600000000; tp_second keys 3600000000;
   sweep7_a keys; sweep7_b keys; sweep8 keys;
   tp_first keys 3600000400; tp_second keys 3600000400]%float.

Definition file : hdf_file :=
  {| numericalKeys := keys; numericalValues := table |}.

Definition nwb : MiesNwb.t := snd (notebook (__init__ "example.nwb" file)).

(** What [notebook()] returns for the file, and the test-pulse blocks it
    stores. *)
Definition book : notebook_t :=
  Eval vm_compute in
    match fst (notebook (__init__ "example.nwb" file)) with
    | Ok b => b
    | Raise _ => []
    end.

Definition blocks : list record :=
  Eval vm_compute in
    match _tp_notebook nwb with
    | Present tps => tps
    | Missing => []
    end.

(** The recordings of headstage 1 in sweeps 7 and 8, sampled every 0.1 ms,
    and the first one again sampled every 0.3 ms. *)
Definition recording7 : result MiesRecording.t :=
  fst (MiesRecording.__init__ nwb 7 1 0.1).

Definition recording7_slow : result MiesRecording.t :=
  fst (MiesRecording.__init__ nwb 7 1 0.3).

Definition recording8 : result MiesRecording.t :=
  fst (MiesRecording.__init__ nwb 8 1 0.1).

(** The first test-pulse block of the file, its entry in
    [test_pulse_entries()] and the test pulse of headstage 1 built from it. *)
Definition tp_block : record :=
  overlay (tp_first keys 3600000000) (tp_second keys 3600000000).

Definition entry1 : tp_entry :=
  Eval vm_compute in
    match tp_entry_of nwb tp_block with
    | Ok e => e
    | Raise _ => {| timestamp := 0%Z; values := []; stim := [] |}
    end.

Definition pulse1 : result MiesTestPulse.t := MiesTestPulse.__init__ entry1 1.

Definition the_pulse1 : MiesTestPulse.t :=
  Eval vm_compute in
    match pulse1 with
    | Ok tp => tp
    | Raise _ =>
        {| MiesTestPulse._nb_entry :=
             {| MiesTestPulse.nb_timestamp := 0%Z;
                MiesTestPulse.nb_values := [];
                MiesTestPulse.nb_stim := [] |};
           MiesTestPulse.device_id := 0;
           MiesTestPulse.start_time := 0%Z;
           MiesTestPulse.clamp_mode := MiesTestPulse.vc |}
    end.

(** The notebook dict of headstage 1 in sweep 7. *)
Definition notebook7 : list (string * option float) :=
  Eval vm_compute in
    match fst (notebook nwb) with
    | Ok book => nth 1 (match od_get Z.eqb book 7%Z with
                        | Some chans => chans
                        | None => []
                        end) []
    | Raise _ => []
    end.

(** The value of a computation that is known to succeed. *)
Definition the {A : Type} (default : A) (r : result A) : A :=
  match r with
  | Ok a => a
  | Raise _ => default
  end.

Definition no_recording : MiesRecording.t :=
  {| MiesRecording.device_id := 0;
     MiesRecording.notebook := [];
     MiesRecording.holding_potential := None;
     MiesRecording.holding_current := None;
     MiesRecording.bridge_balance := Missing;
     MiesRecording.lpf_cutoff := None;
     MiesRecording.pipette_offset := None;
     MiesRecording.start_time := 0%Z;
     MiesRecording.IGORWaveScaling := 0;
     MiesRecording._inserted_test_pulse := None;
     MiesRecording._nearest_test_pulse := None |}.

Definition rec7_slow : MiesRecording.t :=
  Eval vm_compute in the no_recording recording7_slow.

Definition rec8 : MiesRecording.t := Eval vm_compute in the no_recording recording8.

(** The file's test-pulse entries and the file object after they have been
    computed. *)
Definition entries : list tp_entry :=
  Eval vm_compute in the [] (fst (test_pulse_entries nwb)).

Definition nwb_with_entries : MiesNwb.t := snd (test_pulse_entries nwb).

(** An older file: a test-pulse pair followed by rows of sweeps 7 and 8;
    and the same four rows written with the discriminant. *)
Definition legacy_table : list record :=
  [tp_first legacy_keys 3600000000; tp_second legacy_keys 3600000000;
   sweep7_a legacy_keys; sweep8 legacy_keys]%float.

Definition paired_table : list record :=
  [tp_first keys 3600000000; tp_second keys 3600000000;
   sweep7_a keys; sweep8 keys]%float.

(** A file that ends with the first row of a test-pulse block, and the
    entries collected before the loop reaches that row. *)
Definition truncated_table : list record :=
  [sweep7_a keys; sweep8 keys; tp_first keys 3600000400]%float.

Definition truncated_file : hdf_file :=
  {| numericalKeys := keys; numericalValues := truncated_table |}.

Definition before_last : scan_state :=
  {| sweep_entries := [(7%Z, sweep7_a keys); (8%Z, sweep8 keys)];
     tp_entries := [] |}.

(** A file that ends with a complete test-pulse block. *)
Definition block_at_end_table : list record :=
  [sweep7_a keys; tp_first keys 3600000400; tp_second keys 3600000400]%float.

Definition block_at_end_file : hdf_file :=
  {| numericalKeys := keys; numericalValues := block_at_end_table |}.

End Examples.

(** ** Post-merge propagation, row by row *)

Module Propagation.

Import MiesNwb.

(** What lines 101-102 do to one row of an entry that has a global column. *)
Definition global_row (row : list float) : list float :=
  let g := nth 8 row nan in
  if isnan g then row else fill row g.

(** [row[:] = row[0]] *)
Definition first_channel_row (row : list float) : list float :=
  fill row (nth 0 row nan).

(** What lines 101-113 do to row [i] of an entry, [key] being [nb_keys[i]]. *)
Definition propagate_row (i : nat) (key : string) (row : list float) : list float :=
  let r1 := global_row row in
  let r2 := if i <? 4 then first_channel_row r1 else r1 in
  if String.prefix "Async AD "%string key then first_channel_row r2 else r2.

Definition propagate (nb_keys : list string) (entry : record) : record :=
  map (fun x => propagate_row (fst x) (fst (snd x)) (snd (snd x)))
      (enumerate (combine nb_keys entry)).

(** The value that [notebook()] gives to field [f] of channel [c]. *)
Definition final_cell (nb_keys : list string) (entry : record) (f c : nat) : float :=
  let g := cell entry f 8 in
  let merged c' := if isnan g then cell entry f c' else g in
  if (f <? 4) || String.prefix "Async AD "%string (nth f nb_keys ""%string)
  then merged 0
  else merged c.

(** The merged record of sweep [k] before the propagation (lines 41-97). *)
Definition merged_entry (file : hdf_file) (k : Z) : option record :=
  match scan (nb_fields_of (numericalKeys file)) (numericalValues file) with
  | Ok st => od_get Z.eqb (sweep_entries st) k
  | Raise _ => None
  end.

(** [nwb.notebook()[sweep_id][channel_id][metadata_key]] *)
Definition lookup (book : notebook_t) (sweep_id : Z) (channel_id : nat)
           (metadata_key : string) : option (option float) :=
  match od_get Z.eqb book sweep_id with
  | Some chans => od_get String.eqb (nth channel_id chans []) metadata_key
  | None => None
  end.

Fixpoint distinctb (l : list string) : bool :=
  match l with
  | [] => true
  | k :: l' => negb (existsb (String.eqb k) l') && distinctb l'
  end.

(** A table with distinct keys whose records have one row per key and [C]
    channels, the global column (index 8) among them. *)
Definition well_formed (file : hdf_file) (C : nat) : Prop :=
  Forall (has_shape (length (numericalKeys file)) C) (numericalValues file)
  /\ 8 < C
  /\ NoDup (numericalKeys file)
  /\ numericalKeys file <> [].

Definition well_formedb (file : hdf_file) (C : nat) : bool :=
  forallb (has_shapeb (length (numericalKeys file)) C) (numericalValues file)
  && (8 <? C)
  && distinctb (numericalKeys file)
  && negb (length (numericalKeys file) =? 0).

End Propagation.

Module MoreExamples.

Import MiesNwb Propagation.

(** The merged record of sweep 7 of the example file. *)
Definition merged7 : record :=
  Eval vm_compute in
    match merged_entry Examples.file 7%Z with
    | Some e => e
    | None => []
    end.

(** The example table cut down to its first eight channels. *)
Definition narrow_file : hdf_file :=
  {| numericalKeys := Examples.keys;
     numericalValues := map (map (firstn 8)) Examples.table |}.

(** A file with one record of sweep 7 that carries a bath temperature in
    channel 0 only. *)
Definition bath_row : record :=
  Examples.mk Examples.keys
    [Examples.at_ "SweepNum" 0 7; Examples.at_ "TimeStamp" 0 3600000100;
     Examples.at_ "EntrySourceType" 0 0;
     Examples.at_ "Async AD 2: Bath Temperature" 0 34.5].

Definition bath_file : hdf_file :=
  {| numericalKeys := Examples.keys; numericalValues := [bath_row] |}.

Definition bath_book : notebook_t :=
  Eval vm_compute in
    Examples.the [] (fst (notebook (__init__ "bath.nwb" bath_file))).

(** A table of sweep records only. *)
Definition sweeps_table : list record :=
  [Examples.sweep7_a Examples.keys; Examples.sweep7_b Examples.keys;
   Examples.sweep8 Examples.keys].

(** An older file whose schema has neither [EntrySourceType] nor the
    test-pulse keys. *)
Definition bare_keys : list string := ["SweepNum"; "TimeStamp"]%string.

Definition bare_file : hdf_file :=
  {| numericalKeys := bare_keys;
     numericalValues :=
       [Examples.mk bare_keys [Examples.at_ "SweepNum" 0 7];
        Examples.mk bare_keys [Examples.at_ "SweepNum" 0 8]] |}.

(** A file whose first row is marked as a sweep record but has no sweep
    number. *)
Definition unnumbered_table : list record :=
  [Examples.mk Examples.keys [Examples.at_ "EntrySourceType" 0 0];
   Examples.sweep8 Examples.keys].

(** A file with two test-pulse blocks, the second one without a time
    stamp, and the file object after [notebook()]. *)
Definition untimed_row : record :=
  Examples.mk Examples.keys [Examples.at_ "EntrySourceType" 0 1].

Definition untimed_file : hdf_file :=
  {| numericalKeys := Examples.keys;
     numericalValues :=
       [Examples.tp_first Examples.keys 3600000000;
        Examples.tp_second Examples.keys 3600000000;
        untimed_row; untimed_row]%float |}.

Definition untimed_nwb : MiesNwb.t :=
  snd (notebook (__init__ "untimed.nwb" untimed_file)).






End MoreExamples.

(** ** The rows behind the scan's results *)

Module ScanRows.

Import MiesNwb.

(** The test-pulse block that the loop stores for the visited row [i]:
    row [i] with the non-NaN cells of row [i+1] laid over it (lines 83-88). *)
Definition tp_block_of (nb : list record) (ev : nat * (bool * bool)) : list record :=
  let '(i, (is_tp_record, _)) := ev in
  if is_tp_record then [overlay (nth i nb []) (nth (S i) nb [])] else [].

(** A row that [EntrySourceType] (at field [idx]) marks as a sweep record and
    whose sweep number converts to an integer. *)
Definition sweep_marked (idx : nat) (rec : record) : bool :=
  match item rec idx 0 with
  | Ok d => negb (isnan d) && (d =? 0)%float && is_ok (sweep_number rec)
  | Raise _ => false
  end.

(** [int(rec[0,0]) == k] *)
Definition in_sweep (k : Z) (rec : record) : bool :=
  match sweep_number rec with
  | Ok k' => (k' =? k)%Z
  | Raise _ => false
  end.

(** What a successful loop says of a row it has visited: the row was
    classified, and a test-pulse record found the iterator not yet used up. *)
Definition visited_ok (nb_fields : list (string * nat)) (nb : list record)
           (ev : nat * (bool * bool)) : Prop :=
  let '(i, (tp, sw)) := ev in
  exists it',
    classify nb_fields nb i (S i) = Ok (tp, sw, it')
    /\ (tp = true -> it' < length nb).

End ScanRows.

(** * Properties *)

Lemma bind_ok :
  forall (A B : Type) (c : result A) (k : A -> result B) (b : B),
    bind c k = Ok b -> exists a, c = Ok a /\ k a = Ok b.
Proof.
  intros A B [a | e] k b H; cbn in H; [eauto | discriminate].
Qed.

Lemma float_neq : forall x y : float, Prim2SF x <> Prim2SF y -> x <> y.
Proof. intros x y H E. apply H. now rewrite E. Qed.

Lemma some_float_neq :
  forall x y : float, Prim2SF x <> Prim2SF y -> Some x <> Some y.
Proof.
  intros x y H E. apply H.
  exact (f_equal (fun o => match o with
                           | Some z => Prim2SF z
                           | None => S754_nan
                           end) E).
Qed.

Lemma mapM_cons_ok :
  forall (A B : Type) (f : A -> result B) (a : A) (l : list A) (r : list B),
    mapM f (a :: l) = Ok r ->
    exists b bs, f a = Ok b /\ mapM f l = Ok bs /\ r = b :: bs.
Proof.
  intros A B f a l r H. cbn [mapM] in H.
  apply bind_ok in H as (b & Hb & H).
  apply bind_ok in H as (bs & Hbs & H).
  injection H as <-. eauto.
Qed.

Lemma mapM_nil_ok :
  forall (A B : Type) (f : A -> result B) (r : list B),
    mapM f [] = Ok r -> r = [].
Proof. intros A B f r H. now injection H as <-. Qed.

Section ModeGatedQuantities.

Import MiesTestPulse.

Lemma field_values_key :
  forall nwb rec f p, MiesNwb.field_values nwb rec f = Ok p -> fst p = f.
Proof.
  intros nwb rec f p H. unfold MiesNwb.field_values in H.
  apply bind_ok in H as (keys & _ & H).
  apply bind_ok in H as (i & _ & H).
  apply bind_ok in H as (row & _ & H).
  now injection H as <-.
Qed.

(** The four measured quantities of an entry, in the order of [fields]. *)
Lemma tp_entry_values :
  forall nwb rec entry,
    MiesNwb.tp_entry_of nwb rec = Ok entry ->
    exists a1 a2 a3 a4 : list float,
      MiesNwb.values entry
      = [("TP Baseline Vm"%string, a1); ("TP Baseline pA"%string, a2);
         ("TP Peak Resistance"%string, a3);
         ("TP Steady State Resistance"%string, a4)].
Proof.
  intros nwb rec entry H. unfold MiesNwb.tp_entry_of in H.
  apply bind_ok in H as (date & _ & H).
  apply bind_ok in H as (vals & Hvals & H).
  apply bind_ok in H as (st & _ & H).
  injection H as <-. cbn [MiesNwb.values].
  unfold MiesNwb.fields in Hvals.
  apply mapM_cons_ok in Hvals as ([k1 a1] & l1 & H1 & Hvals & ->).
  apply mapM_cons_ok in Hvals as ([k2 a2] & l2 & H2 & Hvals & ->).
  apply mapM_cons_ok in Hvals as ([k3 a3] & l3 & H3 & Hvals & ->).
  apply mapM_cons_ok in Hvals as ([k4 a4] & l4 & H4 & Hvals & ->).
  apply mapM_nil_ok in Hvals as ->.
  apply field_values_key in H1, H2, H3, H4. cbn [fst] in *. subst.
  exists a1, a2, a3, a4. reflexivity.
Qed.

(** C7: a test pulse built from a stand-alone block is voltage clamp when
    its channel's [TP Baseline Vm] is NaN and current clamp otherwise;
    [access_resistance] and [baseline_current] are scaled numbers in
    voltage clamp and [None] in current clamp, [baseline_potential] is a
    scaled number in current clamp and [None] in voltage clamp,
    [input_resistance] is a scaled number in both modes, and none of the
    four raises. *)
Theorem test_pulse_quantities_follow_clamp_mode :
  forall (nwb : MiesNwb.t) (rec : MiesNwb.record) (entry : MiesNwb.tp_entry)
         (chan : nat) (tp : t),
    MiesNwb.tp_entry_of nwb rec = Ok entry ->
    __init__ entry chan = Ok tp ->
    exists vm pa peak ss : float,
      nb_values (_nb_entry tp)
      = [("TP Baseline Vm"%string, vm); ("TP Baseline pA"%string, pa);
         ("TP Peak Resistance"%string, peak);
         ("TP Steady State Resistance"%string, ss)]
      /\ clamp_mode tp = (if isnan vm then vc else ic)
      /\ access_resistance tp
         = Ok (match clamp_mode tp with
               | vc => Some (peak * 1e6)%float
               | ic => None
               end)
      /\ input_resistance tp = Ok (Some (ss * 1e6)%float)
      /\ baseline_potential tp
         = Ok (match clamp_mode tp with
               | vc => None
               | ic => Some (vm * 1e-3)%float
               end)
      /\ baseline_current tp
         = Ok (match clamp_mode tp with
               | vc => Some (pa * 1e-12)%float
               | ic => None
               end).
Proof.
  intros nwb rec entry chan tp Hentry Hinit.
  destruct (tp_entry_values _ _ _ Hentry) as (a1 & a2 & a3 & a4 & Hvalues).
  unfold __init__ in Hinit. rewrite Hvalues in Hinit.
  apply bind_ok in Hinit as (vals & Hvals & Hinit).
  apply mapM_cons_ok in Hvals as ([k1 v1] & l1 & H1 & Hvals & ->).
  apply mapM_cons_ok in Hvals as ([k2 v2] & l2 & H2 & Hvals & ->).
  apply mapM_cons_ok in Hvals as ([k3 v3] & l3 & H3 & Hvals & ->).
  apply mapM_cons_ok in Hvals as ([k4 v4] & l4 & H4 & Hvals & ->).
  apply mapM_nil_ok in Hvals as ->.
  unfold channel_value in H1, H2, H3, H4. cbn [fst snd] in *.
  apply bind_ok in H1 as (vm & _ & H1). injection H1 as <- <-.
  apply bind_ok in H2 as (pa & _ & H2). injection H2 as <- <-.
  apply bind_ok in H3 as (peak & _ & H3). injection H3 as <- <-.
  apply bind_ok in H4 as (ss & _ & H4). injection H4 as <- <-.
  cbn in Hinit. injection Hinit as <-.
  exists vm, pa, peak, ss.
  unfold access_resistance, input_resistance, baseline_potential,
    baseline_current.
  cbn. destruct (isnan vm); repeat split; reflexivity.
Qed.

End ModeGatedQuantities.

Section EpochConversion.

Import Datetime.

Local Open Scope Z_scope.

Lemma datetime_1970 : mk_datetime 1970 1 1 = Ok (midnight 1970 1 1).
Proof. reflexivity. Qed.

Lemma datetime_1904 : mk_datetime 1904 1 1 = Ok (midnight 1904 1 1).
Proof. reflexivity. Qed.

(** The offset used by [igorpro_date] is the 24107 days between the two
    epochs. *)
Lemma epoch_offset :
  sub_datetime (midnight 1970 1 1) (midnight 1904 1 1) = 24107 * US_PER_DAY.
Proof. reflexivity. Qed.




End EpochConversion.

Section RecordingMetadata.

Import MiesRecording.

Lemma nb_get_present :
  forall nb k, is_ok (nb_get nb k) = true -> exists v, nb_get nb k = Ok v.
Proof.
  intros nb k H. destruct (nb_get nb k) as [v | e]; [eauto | discriminate].
Qed.

(** C8 (as the code has it): [lpf_cutoff] is the raw notebook field copied
    without scaling, [pipette_offset] is the raw field times 1e-3, and a
    NaN raw value of either gives [None] without failing: the recording is
    built whenever the keys of [meta_keys] are in the notebook and the
    time stamp is a date. *)
Theorem recording_lpf_cutoff_and_pipette_offset :
  forall (hs : nat) (nb : list (string * option float)) (ws : float)
         (raw_lpf raw_off ts : float) (d : Datetime.datetime),
    forallb (fun k => is_ok (nb_get nb k)) meta_keys = true ->
    nb_get nb "LPF Cutoff"%string = Ok (MiesNwb.none_if_nan raw_lpf) ->
    nb_get nb "Pipette Offset"%string = Ok (MiesNwb.none_if_nan raw_off) ->
    nb_get nb "TimeStamp"%string = Ok (Some ts) ->
    MiesNwb.igorpro_date ts = Ok d ->
    exists r,
      init_meta hs nb ws = Ok r
      /\ lpf_cutoff r = (if isnan raw_lpf then None else Some raw_lpf)
      /\ pipette_offset r
         = (if isnan raw_off then None else Some (raw_off * 1e-3)%float).
Proof.
  intros hs nb ws raw_lpf raw_off ts d Hkeys Hlpf Hoff Hts Hdate.
  cbn [forallb meta_keys] in Hkeys.
  repeat match type of Hkeys with
         | (_ && _)%bool = true =>
             let H := fresh "Hk" in
             apply andb_prop in Hkeys as [H Hkeys];
             apply nb_get_present in H as [? H]
         end.
  unfold init_meta, nb_equals, nb_number.
  rewrite Hk, Hk0, Hk1. cbn [bind].
  assert (Hbridge :
            exists b,
              (if match x1 with Some y => (y =? 0)%float | None => false end
               then Ok MiesNwb.Missing
               else
                 ' disabled <-
                   (' v <- nb_get nb "Bridge Bal Enable"%string ;;
                    match v with
                    | Some y => Ok (y =? 0)%float
                    | None => Ok false
                    end) ;;
                 if disabled then Ok (MiesNwb.Present 0%float)
                 else
                   ' v <- nb_get nb "Bridge Bal Value"%string ;;
                   match v with
                   | None => Ok (MiesNwb.Present 0%float)
                   | Some b => Ok (MiesNwb.Present (b * 1e6)%float)
                   end) = Ok b).
  { rewrite Hk2, Hk3. cbn [bind].
    destruct x1 as [y |]; [destruct (y =? 0)%float |];
      destruct x2 as [e |]; try destruct (e =? 0)%float;
      destruct x3; cbn [bind]; eauto. }
  destruct Hbridge as [b Hb].
  destruct x1 as [y |]; cbn [bind]; rewrite Hb; cbn [bind];
    rewrite Hlpf, Hoff, Hts; cbn [bind]; rewrite Hdate; cbn [bind];
    (eexists; split; [reflexivity |]); cbn [lpf_cutoff pipette_offset];
    unfold MiesNwb.none_if_nan; destruct (isnan raw_lpf), (isnan raw_off);
    split; reflexivity.
Qed.

Lemma recording_lpf_cutoff_and_pipette_offset_witness :
  exists r,
    init_meta 1 Examples.notebook7 0.1 = Ok r
    /\ lpf_cutoff r = Some 6%float
    /\ pipette_offset r = Some (2.5 * 1e-3)%float.
Proof.
  apply (recording_lpf_cutoff_and_pipette_offset
           1 Examples.notebook7 0.1 6 2.5 3600000100 63652752100000000%Z);
    reflexivity.
Defined.

(** C8 as stated fails: headstage 1 of sweep 7 has the raw [LPF Cutoff] 6,
    and its [lpf_cutoff] is 6, not 6 * 1e-3. *)
Lemma lpf_cutoff_is_not_scaled :
  od_get String.eqb Examples.notebook7 "LPF Cutoff"%string = Some (Some 6%float)
  /\ (r <- Examples.recording7 ;; Ok (lpf_cutoff r)) = Ok (Some 6%float)
  /\ Some 6%float <> Some (6 * 1e-3)%float.
Proof.
  split; [reflexivity | split; [reflexivity |]].
  apply some_float_neq. vm_compute. discriminate.
Qed.

End RecordingMetadata.

Section BaselineRegions.

Import MiesRecording.

(** C3 at a concrete recording: with [Delay onset auto] = 100 ms,
    [Delay onset user] = 200 ms and a sample interval of 0.1 ms the onset
    region computed by the code is (1000, 2000): its stop index is
    [int(start + dur/dt)], while [(onset_auto + onset_user)/dt] is 3000. *)
Theorem baseline_onset_region_stop :
  (r <- Examples.recording7 ;;
   Ok (dt r, nb_get (notebook r) "Delay onset auto"%string,
       nb_get (notebook r) "Delay onset user"%string))
  = Ok ((0.1 / 1000)%float, Ok (Some 100%float), Ok (Some 200%float))
  /\ (r <- Examples.recording7 ;; baseline_regions r)
     = Ok [(1000%Z, Some 2000%Z)]
  /\ int ((100 / 1000 + 200 / 1000) / (0.1 / 1000))%float = Ok 3000%Z.
Proof. repeat split; reflexivity. Qed.

End BaselineRegions.

Section InsertedTestPulse.

Import MiesTestPulse MiesRecording.

(** C4 (as the code has it): for a recording with an inserted test pulse
    the window is [[0, int(total_duration / sample_interval))], the
    quotient truncated toward zero, with
    [baseline_duration = pulse_duration / (1 - 2 * baseline_fraction)] and
    [total_duration = pulse_duration + 2 * baseline_duration]; for a pulse
    of 10 ms, a baseline fraction of 0.25 and a sample interval of 0.1 ms
    it is [[0, 500)]. *)
Theorem inserted_test_pulse_window :
  forall (self : MiesRecording.t) (p frac amp : float) (mode : clamp_mode_t)
         (n : Z),
    _inserted_test_pulse self = None ->
    has_inserted_test_pulse self = Ok true ->
    nb_get (notebook self) "TP Pulse Duration"%string = Ok (Some p) ->
    nb_get (notebook self) "TP Baseline Fraction"%string = Ok (Some frac) ->
    MiesRecording.clamp_mode self = Ok mode ->
    nb_get (notebook self)
           (match mode with
            | vc => "TP Amplitude VC"%string
            | ic => "TP Amplitude IC"%string
            end) = Ok (Some amp) ->
    int (let pulse_duration := p / 1000 in
         let baseline_duration := pulse_duration / (1 - 2 * frac) in
         let total_duration := pulse_duration + 2 * baseline_duration in
         total_duration / dt self)%float = Ok n ->
    fst (inserted_test_pulse self) = Ok (Some {| indices := (0%Z, n) |})
    /\ (r <- Examples.recording7 ;;
        Ok (nb_get (notebook r) "TP Pulse Duration"%string,
            nb_get (notebook r) "TP Baseline Fraction"%string,
            dt r, fst (inserted_test_pulse r)))
       = Ok (Ok (Some 10%float), Ok (Some 0.25%float), (0.1 / 1000)%float,
             Ok (Some {| indices := (0%Z, 500%Z) |})).
Proof.
  intros self p frac amp mode n Hmemo Hhas Hp Hfrac Hmode Hamp Hn.
  split; [| reflexivity].
  unfold inserted_test_pulse. rewrite Hmemo, Hhas.
  unfold inserted_window, nb_number.
  rewrite Hp, Hfrac. cbn [bind]. cbv zeta in Hn. rewrite Hn. cbn [bind].
  rewrite Hmode. cbn [bind].
  destruct mode; rewrite Hamp; reflexivity.
Qed.

Lemma inserted_test_pulse_window_witness :
  fst (inserted_test_pulse Examples.rec7_slow)
  = Ok (Some {| indices := (0%Z, 166%Z) |})
  /\ (r <- Examples.recording7 ;;
      Ok (nb_get (notebook r) "TP Pulse Duration"%string,
          nb_get (notebook r) "TP Baseline Fraction"%string,
          dt r, fst (inserted_test_pulse r)))
     = Ok (Ok (Some 10%float), Ok (Some 0.25%float), (0.1 / 1000)%float,
           Ok (Some {| indices := (0%Z, 500%Z) |})).
Proof.
  apply (inserted_test_pulse_window Examples.rec7_slow 10 0.25 10 vc 166%Z);
    reflexivity.
Defined.

(** C4 as stated fails: with a sample interval of 0.3 ms the quotient is
    166.67; the code binds the pulse to [[0, 166)], rounding gives 167. *)
Lemma inserted_test_pulse_window_truncates :
  (r <- Examples.recording7_slow ;;
   Ok (nb_get (notebook r) "TP Pulse Duration"%string,
       nb_get (notebook r) "TP Baseline Fraction"%string,
       dt r, has_inserted_test_pulse r, fst (inserted_test_pulse r)))
  = Ok (Ok (Some 10%float), Ok (Some 0.25%float), (0.3 / 1000)%float, Ok true,
        Ok (Some {| indices := (0%Z, 166%Z) |}))
  /\ spec_inserted_window (10 / 1000) 0.25 (0.3 / 1000) = Ok (0%Z, 167%Z)
  /\ (0%Z, 166%Z) <> (0%Z, 167%Z).
Proof. repeat split; try reflexivity. discriminate. Qed.

End InsertedTestPulse.

Section Binary64Order.

Local Open Scope Z_scope.

Lemma shr_1_nonneg :
  forall mrs, 0 <= shr_m mrs -> 0 <= shr_m (shr_1 mrs).
Proof.
  intros [m r s] H. cbn [shr_m] in H.
  destruct m as [| [p | p |] | p]; cbn; lia.
Qed.

Lemma iter_shr_1_nonneg :
  forall p mrs, 0 <= shr_m mrs -> 0 <= shr_m (iter_pos shr_1 p mrs).
Proof.
  induction p as [p IH | p IH |]; intros mrs H; cbn [iter_pos].
  - apply IH, IH, shr_1_nonneg, H.
  - apply IH, IH, H.
  - apply shr_1_nonneg, H.
Qed.

Lemma shr_fexp_nonneg :
  forall m e l, 0 <= m -> 0 <= shr_m (fst (shr_fexp prec emax m e l)).
Proof.
  intros m e l H. unfold shr_fexp, shr.
  assert (H0 : 0 <= shr_m (shr_record_of_loc m l))
    by (destruct l as [| []]; exact H).
  destruct (fexp prec emax (Zdigits2 m + e) - e) as [| p | p]; cbn [fst];
    [exact H0 | | exact H0].
  now apply iter_shr_1_nonneg.
Qed.

(** Rounding a non-negative mantissa never gives a NaN. *)
Lemma binary_round_aux_sign :
  forall sx mx ex lx,
    0 <= mx ->
    nonneg_float (SFabs (binary_round_aux prec emax sx mx ex lx)) = true.
Proof.
  intros sx mx ex lx H. unfold binary_round_aux.
  pose proof (shr_fexp_nonneg mx ex lx H) as H1.
  destruct (shr_fexp prec emax mx ex lx) as [mrs' e']. cbn [fst] in H1.
  assert (H2 : 0 <= round_nearest_even (shr_m mrs') (loc_of_shr_record mrs')).
  { unfold round_nearest_even.
    destruct (loc_of_shr_record mrs') as [| []]; try exact H1.
    - destruct (Z.even (shr_m mrs')); lia.
    - lia. }
  pose proof (shr_fexp_nonneg _ e' loc_Exact H2) as H3.
  destruct (shr_fexp prec emax _ e' loc_Exact) as [mrs'' e'']. cbn [fst] in H3.
  destruct (shr_m mrs'') as [| p | p]; [reflexivity | | lia].
  destruct (e'' <=? emax - prec); reflexivity.
Qed.

(** The absolute value of a quotient of long integers is a number, and it
    is not negative. *)
Lemma true_divide_sign :
  forall (a : Z) (b : positive),
    nonneg_float (SFabs (true_divide a b)) = true.
Proof.
  intros a b. unfold true_divide.
  assert (H : forall s p,
             nonneg_float
               (SFabs (SFdiv prec emax (S754_finite s p 0) (S754_finite false b 0)))
             = true).
  { intros s p. unfold SFdiv.
    destruct (SFdiv_core_binary prec emax (Zpos p) 0 (Zpos b) 0)
      as [[mz ez] lz] eqn:E.
    assert (Hmz : 0 <= mz).
    { unfold SFdiv_core_binary in E.
      set (s' := 0 - 0 - _) in E.
      set (m' := match s' with
                 | Z0 => Zpos p
                 | Zpos _ => Z.shiftl (Zpos p) s'
                 | Zneg _ => 0
                 end) in E.
      assert (Hm' : 0 <= m').
      { unfold m'. destruct s'; try lia. apply Z.shiftl_nonneg. lia. }
      pose proof (Z.div_pos m' (Zpos b) Hm' ltac:(lia)) as Hq.
      unfold Z.div in Hq. destruct (Z.div_eucl m' (Zpos b)) as [q r].
      injection E as <- _ _. exact Hq. }
    exact (binary_round_aux_sign (xorb s false) mz ez lz Hmz). }
  destruct a as [| p | p]; [reflexivity | apply H | apply H].
Qed.

Ltac order_cases :=
  repeat match goal with
         | |- context [Z.compare ?a ?b] => destruct (Z.compare_spec a b)
         | H : context [Z.compare ?a ?b] |- _ => destruct (Z.compare_spec a b)
         end;
  subst; rewrite ?Pos.compare_cont_spec in *; unfold Pos.switch_Eq in *;
  repeat match goal with
         | |- context [Pos.compare ?a ?b] => destruct (Pos.compare_spec a b)
         | H : context [Pos.compare ?a ?b] |- _ => destruct (Pos.compare_spec a b)
         end;
  subst; try discriminate; try reflexivity; try lia.




Lemma SFltb_le_le :
  forall x y z,
    nonneg_float x = true -> nonneg_float y = true -> nonneg_float z = true ->
    SFltb y x = false -> SFltb z y = false -> SFltb z x = false.
Proof.
  intros x y z Hx Hy Hz. unfold SFltb, SFcompare.
  destruct x as [[] | [] | | [] mx ex]; try discriminate;
    destruct y as [[] | [] | | [] my ey]; try discriminate;
    destruct z as [[] | [] | | [] mz ez]; try discriminate;
    try reflexivity; intros H1 H2; order_cases.
Qed.

End Binary64Order.

Section NearestTestPulse.

Import MiesTestPulse MiesRecording.

Variable start : Datetime.datetime.

Let dist := time_distance start.

Let closer (a b : MiesNwb.tp_entry) : Prop := SFltb (dist a) (dist b) = true.

Lemma time_distance_sign : forall e, nonneg_float (dist e) = true.
Proof.
  intros e. unfold dist, time_distance, Datetime.total_seconds.
  apply true_divide_sign.
Qed.

Lemma not_closer_trans :
  forall a b c, ~ closer b a -> ~ closer c b -> ~ closer c a.
Proof.
  unfold closer. intros a b c Hba Hcb.
  apply not_true_iff_false in Hba, Hcb. apply not_true_iff_false.
  exact (SFltb_le_le _ _ _ (time_distance_sign a) (time_distance_sign b)
                     (time_distance_sign c) Hba Hcb).
Qed.






End NearestTestPulse.

Section NearestTestPulseProperty.

Import MiesTestPulse MiesRecording.




(** Sweep 8 starts 200 s after the first block and 200 s before the second:
    the first one is selected. *)
Example nearest_test_pulse_tie :
  map (time_distance (start_time Examples.rec8)) Examples.entries
  = [Prim2SF 200; Prim2SF 200]
  /\ fst (fst (nearest_test_pulse Examples.rec8 Examples.nwb))
     = (tp <- MiesTestPulse.__init__ (nth 0 Examples.entries Examples.entry1) 1 ;;
        Ok (Some (Standalone tp)))
  /\ is_ok (fst (fst (nearest_test_pulse Examples.rec8 Examples.nwb))) = true.
Proof. repeat split; vm_compute; reflexivity. Qed.


End NearestTestPulseProperty.

(** ** The notebook scan *)

Section DictFacts.

Context {K V : Type} (eqb : K -> K -> bool).
Hypothesis eqb_eq : forall a b, eqb a b = true <-> a = b.

Lemma eqb_refl_true : forall a, eqb a a = true.
Proof. intros a. now apply eqb_eq. Qed.

Lemma od_get_od_set :
  forall (d : list (K * V)) (k k' : K) (v : V),
    od_get eqb (od_set eqb d k v) k'
    = if eqb k k' then Some v else od_get eqb d k'.
Proof.
  induction d as [| [k0 v0] d IH]; intros k k' v; cbn [od_set od_get].
  - reflexivity.
  - destruct (eqb k0 k) eqn:E0; cbn [od_get].
    + apply eqb_eq in E0. subst k0.
      destruct (eqb k k'); reflexivity.
    + rewrite IH. destruct (eqb k0 k') eqn:E1; [| reflexivity].
      apply eqb_eq in E1. subst k'.
      destruct (eqb k k0) eqn:E2; [| reflexivity].
      apply eqb_eq in E2. subst k0.
      now rewrite eqb_refl_true in E0.
Qed.

End DictFacts.

Section ScanFacts.

Import MiesNwb.

Variable nb_fields : list (string * nat).
Variable nb : list record.

Let n : nat := length nb.

Lemma iter_next_ok :
  forall m it x it',
    iter_next m it = Ok (x, it') -> x = it /\ it' = S it /\ it < m.
Proof.
  intros m it x it' H. unfold iter_next in H.
  destruct (it <? m) eqn:E; [| discriminate].
  apply Nat.ltb_lt in E. injection H as <- <-. auto.
Qed.

Lemma iter_next_end : forall m, iter_next m m = Raise StopIteration.
Proof. intros m. unfold iter_next. now rewrite Nat.ltb_irrefl. Qed.

Lemma iter_next_lt : forall m it, it < m -> iter_next m it = Ok (it, S it).
Proof.
  intros m it H. unfold iter_next.
  apply Nat.ltb_lt in H. now rewrite H.
Qed.

(** The legacy classification advances the iterator exactly when it finds
    a test-pulse pair. *)
Lemma classify_legacy_iter :
  forall i it rec s tp sw it',
    classify_legacy nb_fields nb i it rec s = Ok (tp, sw, it') ->
    (tp = false /\ it' = it) \/ (tp = true /\ sw = false /\ it' = S it /\ it < n).
Proof.
  intros i it rec s tp sw it' H. unfold classify_legacy in H. fold n in H.
  destruct (i <? n - 1).
  - apply bind_ok in H as (k & _ & H).
    apply bind_ok in H as (tp_peak & _ & H).
    destruct (existsb isfinite tp_peak).
    + apply bind_ok in H as (rec_next & _ & H).
      apply bind_ok in H as (k2 & _ & H).
      apply bind_ok in H as (tp_dur & _ & H).
      destruct (existsb isfinite tp_dur).
      * apply bind_ok in H as ([x it1] & Hnext & H).
        injection H as <- <- <-.
        apply iter_next_ok in Hnext as (_ & -> & Hlt). right. auto.
      * injection H as <- <- <-. left. auto.
    + injection H as <- <- <-. left. auto.
  - injection H as <- <- <-. left. auto.
Qed.

Lemma classify_iter :
  forall i it tp sw it',
    classify nb_fields nb i it = Ok (tp, sw, it') ->
    it' = it \/ (tp = true /\ sw = false /\ it' = S it /\ it < n).
Proof.
  intros i it tp sw it' H. unfold classify in H.
  apply bind_ok in H as (rec & _ & H).
  apply bind_ok in H as (sweep_num & _ & H).
  destruct (entry_source_type_index nb_fields) as [idx |].
  - apply bind_ok in H as (d & _ & H).
    destruct (negb (isnan d)).
    + destruct (d =? 0)%float; injection H as <- <- <-; auto.
    + apply classify_legacy_iter in H as [[_ ->] | H]; auto.
  - apply classify_legacy_iter in H as [[_ ->] | H]; auto.
Qed.

Lemma record_row_iter :
  forall i it tp sw st it' st',
    record_row nb i it tp sw st = Ok (it', st') ->
    (tp = true /\ it' = S it /\ it < n
     /\ sweep_entries st' = sweep_entries st)
    \/ (tp = false /\ it' = it /\ tp_entries st' = tp_entries st).
Proof.
  intros i it tp sw st it' st' H. unfold record_row in H. fold n in H.
  apply bind_ok in H as (rec & _ & H).
  destruct tp.
  - apply bind_ok in H as ([x it1] & Hnext & H).
    apply bind_ok in H as (rec2 & _ & H).
    injection H as <- <-.
    apply iter_next_ok in Hnext as (_ & -> & Hlt). left. auto.
  - right. destruct sw.
    + apply bind_ok in H as (k & _ & H).
      injection H as <- <-; auto.
    + injection H as <- <-. auto.
Qed.

(** The body never moves the iterator backwards. *)
Lemma body_advances :
  forall i it st it' st',
    body nb_fields nb i it st = Ok (it', st') -> it <= it'.
Proof.
  intros i it st it' st' H. unfold body in H.
  apply bind_ok in H as ([[tp sw] it1] & Hc & H).
  apply classify_iter in Hc.
  apply record_row_iter in H.
  destruct Hc as [-> | (_ & _ & -> & Hlt)];
    destruct H as [(_ & -> & Hlt' & _) | (_ & -> & _)];
    lia.
Qed.

(** A row that the loop visits is a row of the table, and the run from the
    start is the run from there. *)
Lemma visits_run :
  forall i st,
    visits nb_fields nb i st ->
    i < n
    /\ exists fuel,
        n - i <= fuel
        /\ scan nb_fields nb = for_rows nb_fields nb fuel i st.
Proof.
  intros i st H. induction H as [Hn | i st it st' Hv [Hi (fuel & Hfuel & IH)] Hbody Hit].
  - split; [exact Hn |]. exists n. split; [fold n; lia | reflexivity].
  - split; [exact Hit |].
    destruct fuel as [| fuel]; [fold n in Hfuel; lia |].
    exists fuel. split.
    + apply body_advances in Hbody. fold n in Hfuel |- *. lia.
    + rewrite IH. cbn [for_rows]. fold n.
      rewrite (iter_next_lt n i Hi). now rewrite Hbody.
Qed.

(** A row with a non-NaN, non-zero discriminant is a test-pulse record;
    on the last row its [nb_iter.next()] finds the iterator used up. *)
Lemma body_tp_record_on_last_row :
  forall (idx : nat) (st : scan_state) (rec : record) (sweep_num d : float),
    entry_source_type_index nb_fields = Some idx ->
    nth_error nb (n - 1) = Some rec ->
    item rec 0 0 = Ok sweep_num ->
    item rec idx 0 = Ok d ->
    isnan d = false ->
    (d =? 0)%float = false ->
    body nb_fields nb (n - 1) n st = Raise StopIteration.
Proof.
  intros idx st rec sweep_num d Hidx Hrec Hsweep Hd Hnan Hzero.
  unfold body, classify, record_row, getitem.
  rewrite Hrec. cbn [bind]. rewrite Hsweep. cbn [bind].
  rewrite Hidx, Hd. cbn [bind]. rewrite Hnan, Hzero. cbn [negb bind].
  fold n. now rewrite iter_next_end.
Qed.

(** Without the discriminant the last row is left unclassified. *)
Lemma body_legacy_on_last_row :
  forall (st : scan_state) (rec : record) (sweep_num : float),
    entry_source_type_index nb_fields = None ->
    nth_error nb (n - 1) = Some rec ->
    item rec 0 0 = Ok sweep_num ->
    body nb_fields nb (n - 1) n st = Ok (n, st).
Proof.
  intros st rec sweep_num Hidx Hrec Hsweep.
  unfold body, classify, classify_legacy, record_row, getitem.
  rewrite Hrec. cbn [bind]. rewrite Hsweep. cbn [bind].
  rewrite Hidx. fold n. rewrite Nat.ltb_irrefl. reflexivity.
Qed.

End ScanFacts.

Section TableBoundary.

Import MiesNwb.

(** C10 (as the code has it): when the loop reaches the last row of the
    table, that is, the row is not consumed as the second row of the
    test-pulse record before it, and the row has a discriminant other than 0
    and NaN in [EntrySourceType], the test-pulse branch advances the used-up
    row iterator and [notebook()] fails with [StopIteration]: no block is
    produced and nothing is stored. With a schema that lacks the
    discriminant the same last row is left unclassified by the guard
    [i < nb.shape[0] - 1] and the loop ends normally. *)
Theorem tp_record_on_last_row_raises :
  forall (self : MiesNwb.t) (idx : nat) (st : scan_state) (rec : record)
         (sweep_num d : float),
    let nb_fields := nb_fields_of (numericalKeys (hdf self)) in
    let nb := numericalValues (hdf self) in
    let last := length nb - 1 in
    _notebook self = None ->
    entry_source_type_index nb_fields = Some idx ->
    visits nb_fields nb last st ->
    nth_error nb last = Some rec ->
    item rec 0 0 = Ok sweep_num ->
    item rec idx 0 = Ok d ->
    isnan d = false ->
    (d =? 0)%float = false ->
    scan nb_fields nb = Raise StopIteration
    /\ notebook self = (Raise StopIteration, self)
    /\ forall legacy_fields,
        entry_source_type_index legacy_fields = None ->
        body legacy_fields nb last (length nb) st = Ok (length nb, st).
Proof.
  intros self idx st rec sweep_num d nb_fields nb last
         Hmemo Hidx Hvisits Hrec Hsweep Hd Hnan Hzero.
  assert (Hscan : scan nb_fields nb = Raise StopIteration).
  { destruct (visits_run _ _ _ _ Hvisits) as (Hlast & fuel & Hfuel & ->).
    unfold last in *.
    destruct fuel as [| fuel]; [lia |].
    cbn [for_rows]. rewrite (iter_next_lt _ _ Hlast).
    replace (S (length nb - 1)) with (length nb) by lia.
    now rewrite (body_tp_record_on_last_row
                   nb_fields nb idx st rec sweep_num d). }
  split; [exact Hscan | split].
  - unfold notebook. rewrite Hmemo. fold nb_fields nb. now rewrite Hscan.
  - intros legacy_fields Hnone.
    exact (body_legacy_on_last_row legacy_fields nb st rec sweep_num
                                   Hnone Hrec Hsweep).
Qed.

Lemma tp_record_on_last_row_raises_witness :
  let self := __init__ "truncated.nwb" Examples.truncated_file in
  scan (nb_fields_of Examples.keys) Examples.truncated_table
  = Raise StopIteration
  /\ notebook self = (Raise StopIteration, self)
  /\ forall legacy_fields,
      entry_source_type_index legacy_fields = None ->
      body legacy_fields Examples.truncated_table 2 3 Examples.before_last
      = Ok (3, Examples.before_last).
Proof.
  apply (tp_record_on_last_row_raises
           (__init__ "truncated.nwb" Examples.truncated_file)
           3 Examples.before_last
           (Examples.tp_first Examples.keys 3600000400) nan 1);
    try reflexivity.
  apply (visits_next _ _ 1 {| sweep_entries := [(7%Z, Examples.sweep7_a Examples.keys)];
                              tp_entries := [] |});
    [| reflexivity | vm_compute; lia].
  apply (visits_next _ _ 0 (scan_init));
    [| reflexivity | vm_compute; lia].
  apply visits_first. vm_compute; lia.
Defined.

(** C10 as stated fails: in a table that ends with a complete test-pulse
    block the last row has the discriminant 1, and [notebook()] succeeds: the
    row is the second row of the block of the row before it. *)
Lemma tp_block_at_end_is_merged :
  let nb_fields := nb_fields_of Examples.keys in
  let nb := Examples.block_at_end_table in
  entry_source_type_index nb_fields = Some 3
  /\ (rec <- getitem nb (length nb - 1) ;;
      d <- item rec 3 0 ;;
      Ok (d, isfinite d, (d =? 0)%float))
     = Ok (1%float, true, false)
  /\ trace nb_fields nb 3 0 = [(0, (false, true)); (1, (true, false))]
  /\ scan nb_fields nb
     = Ok {| sweep_entries := [(7%Z, Examples.sweep7_a Examples.keys)];
             tp_entries :=
               [overlay (Examples.tp_first Examples.keys 3600000400)
                        (Examples.tp_second Examples.keys 3600000400)] |}
  /\ is_ok (fst (notebook (__init__ "example.nwb" Examples.block_at_end_file)))
     = true.
Proof. repeat split; reflexivity. Qed.

End TableBoundary.

Section LegacyTestPulsePair.

Import MiesNwb.

(** C2 on an older file of four rows, a test-pulse pair followed by a row
    of sweep 7 and a row of sweep 8: the schema has no discriminant, row 0
    has a finite [TP Peak Resistance] and row 1 a finite
    [TP Pulse Duration]; the loop visits rows 0 and 3 only, so that rows 1
    and 2 are both skipped and sweep 7 is lost; when the pair ends the
    table the second [nb_iter.next()] raises [StopIteration]. The same rows
    written with the discriminant are visited as 0, 2, 3. *)
Theorem legacy_test_pulse_pair_skips_two_rows :
  let nb_fields := nb_fields_of Examples.legacy_keys in
  let nb := Examples.legacy_table in
  let finite_in (i : nat) (key : string) :=
    rec <- getitem nb i ;;
    k <- od_getitem String.eqb nb_fields key ;;
    row <- getitem rec k ;;
    Ok (existsb isfinite row) in
  entry_source_type_index nb_fields = None
  /\ finite_in 0 "TP Peak Resistance"%string = Ok true
  /\ finite_in 1 "TP Pulse Duration"%string = Ok true
  /\ trace nb_fields nb 4 0 = [(0, (true, false)); (3, (false, false))]
  /\ scan nb_fields nb
     = Ok {| sweep_entries := [];
             tp_entries :=
               [overlay (Examples.tp_first Examples.legacy_keys 3600000000)
                        (Examples.tp_second Examples.legacy_keys 3600000000)] |}
  /\ scan nb_fields (firstn 2 nb) = Raise StopIteration
  /\ trace (nb_fields_of Examples.keys) Examples.paired_table 4 0
     = [(0, (true, false)); (2, (false, true)); (3, (false, true))].
Proof. repeat split; reflexivity. Qed.

End LegacyTestPulsePair.

Section SweepMerge.

Import MiesNwb.

Lemma overlay_row_length :
  forall a b, length (overlay_row a b) = length a.
Proof.
  induction a as [| x a IH]; intros [| y b]; cbn; try reflexivity.
  now rewrite IH.
Qed.

Lemma overlay_shape :
  forall F C a b, has_shape F C a -> has_shape F C (overlay a b).
Proof.
  intros F C a b [Hlen Hrows]. subst F. revert b.
  induction Hrows as [| ra a Hra Hrows IH]; intros [| rb b]; cbn [overlay];
    try (split; [reflexivity | auto]).
  destruct (IH b) as [Hl Hf]. split.
  - cbn. now rewrite Hl.
  - constructor; [now rewrite overlay_row_length | exact Hf].
Qed.

Lemma nth_overlay_row :
  forall a b c,
    length a = length b ->
    nth c (overlay_row a b) nan
    = if isnan (nth c b nan) then nth c a nan else nth c b nan.
Proof.
  induction a as [| x a IH]; intros [| y b] c Hlen; try discriminate.
  - destruct c; reflexivity.
  - destruct c as [| c]; cbn [overlay_row nth]; [reflexivity |].
    apply IH. now injection Hlen.
Qed.

Lemma nth_overlay :
  forall a b f,
    length a = length b ->
    nth f (overlay a b) [] = overlay_row (nth f a []) (nth f b []).
Proof.
  induction a as [| ra a IH]; intros [| rb b] f Hlen; try discriminate.
  - destruct f; reflexivity.
  - destruct f as [| f]; cbn [overlay nth]; [reflexivity |].
    apply IH. now injection Hlen.
Qed.

Lemma shape_row_length :
  forall F C rec f, has_shape F C rec -> f < F -> length (nth f rec []) = C.
Proof.
  intros F C rec f [Hlen Hrows] Hf. subst F.
  rewrite Forall_forall in Hrows. apply Hrows. now apply nth_In.
Qed.

(** A cell of [rec[mask] = rec2[mask]]. *)
Lemma cell_overlay :
  forall F C a b f c,
    has_shape F C a -> has_shape F C b -> f < F ->
    cell (overlay a b) f c
    = if isnan (cell b f c) then cell a f c else cell b f c.
Proof.
  intros F C a b f c Ha Hb Hf. unfold cell.
  rewrite nth_overlay by (destruct Ha, Hb; congruence).
  apply nth_overlay_row.
  now rewrite (shape_row_length F C a f), (shape_row_length F C b f).
Qed.

Lemma fold_overlay_shape :
  forall F C rows e,
    has_shape F C e -> has_shape F C (fold_left overlay rows e).
Proof.
  intros F C rows. induction rows as [| r rows IH]; intros e He; cbn.
  - exact He.
  - apply IH. now apply overlay_shape.
Qed.

(** Rows that are NaN in a cell leave that cell of the entry alone. *)
Lemma fold_overlay_nan_cell :
  forall F C f c rows e,
    has_shape F C e -> Forall (has_shape F C) rows -> f < F ->
    Forall (fun r => isnan (cell r f c) = true) rows ->
    cell (fold_left overlay rows e) f c = cell e f c.
Proof.
  intros F C f c rows. induction rows as [| r rows IH];
    intros e He Hshapes Hf Hnan; cbn [fold_left].
  - reflexivity.
  - inversion Hshapes as [| ? ? Hr Hrows]; subst.
    inversion Hnan as [| ? ? Hrn Hrowsn]; subst.
    rewrite IH by (auto using overlay_shape).
    rewrite (cell_overlay F C) by assumption. now rewrite Hrn.
Qed.

Lemma fold_merge_row :
  forall rows o,
    fold_left (fun o r => Some (merge_row o r)) rows o
    = match rows, o with
      | [], _ => o
      | _, Some e => Some (fold_left overlay rows e)
      | r :: rows', None => Some (fold_left overlay rows' r)
      end.
Proof.
  induction rows as [| r rows IH]; intros o; cbn [fold_left].
  - reflexivity.
  - rewrite IH. destruct o as [e |]; destruct rows; reflexivity.
Qed.

Lemma has_shapeb_spec :
  forall F C rec, has_shapeb F C rec = true -> has_shape F C rec.
Proof.
  intros F C rec H. unfold has_shapeb in H.
  apply andb_prop in H as [Hlen Hrows]. split.
  - now apply Nat.eqb_eq.
  - apply Forall_forall. intros row Hin.
    rewrite forallb_forall in Hrows. now apply Nat.eqb_eq, Hrows.
Qed.

Lemma table_shape :
  forall F C nb,
    forallb (has_shapeb F C) nb = true -> Forall (has_shape F C) nb.
Proof.
  intros F C nb H. apply Forall_forall. intros rec Hin.
  rewrite forallb_forall in H. now apply has_shapeb_spec, H.
Qed.

Variable nb_fields : list (string * nat).
Variable nb : list record.

Let n : nat := length nb.

Lemma sweep_rows_from_in :
  forall fuel it k r, In r (sweep_rows_from nb_fields nb fuel it k) -> In r nb.
Proof.
  intros fuel it k r H. unfold sweep_rows_from in H.
  apply in_flat_map in H as ([i [tp sw]] & _ & H).
  unfold sweep_row_of in H.
  destruct (negb tp && sw); [| contradiction].
  destruct (nth_error nb i) as [rec |] eqn:E; [| contradiction].
  destruct (sweep_number rec) as [k' |]; [| contradiction].
  destruct (k' =? k)%Z; [| contradiction].
  destruct H as [<- | []]. now apply nth_error_In in E.
Qed.

(** The entry of sweep [k] after the loop is the merge of the rows of
    sweep [k] that the loop has classified, in scan order. *)
Lemma for_rows_sweep_entry :
  forall fuel it st st' k,
    for_rows nb_fields nb fuel it st = Ok st' ->
    od_get Z.eqb (sweep_entries st') k
    = fold_left (fun o r => Some (merge_row o r))
                (sweep_rows_from nb_fields nb fuel it k)
                (od_get Z.eqb (sweep_entries st) k).
Proof.
  induction fuel as [| fuel IH]; intros it st st' k H;
    unfold sweep_rows_from; cbn [for_rows trace] in H |- *; fold n in H |- *.
  - destruct (iter_next n it) as [[i it1] |]; [discriminate |].
    injection H as <-. reflexivity.
  - destruct (iter_next n it) as [[i it1] |]; [| injection H as <-; reflexivity].
    apply bind_ok in H as ([it2 st1] & Hbody & H).
    unfold body in Hbody.
    apply bind_ok in Hbody as ([[tp sw] it1'] & Hc & Hrec).
    rewrite Hc. cbn [flat_map].
    rewrite fold_left_app.
    unfold record_row in Hrec. fold n in Hrec.
    apply bind_ok in Hrec as (rec & Hget & Hrec).
    unfold getitem in Hget.
    destruct (nth_error nb i) as [rec' |] eqn:Hnth; [| discriminate].
    injection Hget as ->.
    destruct tp.
    + apply bind_ok in Hrec as ([x it3] & Hnext & Hrec).
      apply bind_ok in Hrec as (rec2 & _ & Hrec).
      injection Hrec as <- <-. rewrite Hnext.
      cbn [sweep_row_of negb andb fold_left].
      exact (IH _ _ _ k H).
    + destruct sw.
      * apply bind_ok in Hrec as (k' & Hk' & Hrec).
        injection Hrec as <- <-.
        cbn [sweep_row_of negb andb]. rewrite Hnth, Hk'.
        rewrite (IH _ _ _ k H). cbn [sweep_entries].
        rewrite (od_get_od_set Z.eqb Z.eqb_eq).
        unfold sweep_rows_from.
        destruct (k' =? k)%Z eqn:E; [| reflexivity].
        apply Z.eqb_eq in E. subst k'. reflexivity.
      * injection Hrec as <- <-.
        cbn [sweep_row_of negb andb fold_left].
        exact (IH _ _ _ k H).
Qed.

(** C1 (as the code has it): the rows classified as sweep records are
    grouped by their sweep number truncated to an integer, a sweep has an
    entry exactly when it has such a row, and every cell of the entry holds
    the value of the last row of the sweep, in scan order, that is not NaN
    in that cell: a later non-NaN value replaces an earlier one, a NaN
    never does. A cell that is NaN in every row of the sweep is NaN. *)
Theorem sweep_entry_keeps_last_value :
  forall (F C : nat) (st : scan_state) (k : Z),
    Forall (has_shape F C) nb ->
    scan nb_fields nb = Ok st ->
    (od_get Z.eqb (sweep_entries st) k = None
     <-> sweep_rows nb_fields nb k = [])
    /\ (forall pre r post f c,
           sweep_rows nb_fields nb k = pre ++ r :: post ->
           f < F ->
           isnan (cell r f c) = false ->
           Forall (fun r' => isnan (cell r' f c) = true) post ->
           exists e,
             od_get Z.eqb (sweep_entries st) k = Some e
             /\ cell e f c = cell r f c)
    /\ (forall e f c,
           od_get Z.eqb (sweep_entries st) k = Some e ->
           f < F ->
           Forall (fun r' => isnan (cell r' f c) = true)
                  (sweep_rows nb_fields nb k) ->
           isnan (cell e f c) = true).
Proof.
  intros F C st k Hshape Hscan.
  pose proof (for_rows_sweep_entry _ _ _ _ k Hscan) as Hentry.
  cbn [scan_init sweep_entries od_get] in Hentry.
  fold (sweep_rows nb_fields nb k) in Hentry.
  assert (Hrows : Forall (has_shape F C) (sweep_rows nb_fields nb k)).
  { apply Forall_forall. intros r Hin.
    rewrite Forall_forall in Hshape.
    apply Hshape. exact (sweep_rows_from_in _ _ _ _ Hin). }
  rewrite fold_merge_row in Hentry.
  split; [| split].
  - rewrite Hentry. destruct (sweep_rows nb_fields nb k); split;
      intros H; try reflexivity; discriminate.
  - intros pre r post f c Hsplit Hf Hval Hnan.
    rewrite Hsplit in Hentry, Hrows.
    apply Forall_app in Hrows as [Hpre Hrpost].
    inversion Hrpost as [| ? ? Hr Hpost]; subst.
    destruct pre as [| r0 pre].
    + cbn [app] in Hentry. eexists. split; [exact Hentry |].
      now apply (fold_overlay_nan_cell F C).
    + cbn [app] in Hentry. eexists. split; [exact Hentry |].
      inversion Hpre as [| ? ? Hr0 Hpre']; subst.
      rewrite fold_left_app. cbn [fold_left].
      rewrite (fold_overlay_nan_cell F C)
        by (auto using overlay_shape, fold_overlay_shape).
      rewrite (cell_overlay F C) by (auto using fold_overlay_shape).
      now rewrite Hval.
  - intros e f c He Hf Hnan. rewrite Hentry in He.
    destruct (sweep_rows nb_fields nb k) as [| r0 rows]; [discriminate |].
    injection He as <-.
    inversion Hrows as [| ? ? Hr0 Hrows']; subst.
    inversion Hnan as [| ? ? Hn0 Hnan']; subst.
    now rewrite (fold_overlay_nan_cell F C).
Qed.

End SweepMerge.

Section SweepMergeExample.

Import MiesNwb.

Lemma sweep_entry_keeps_last_value_witness :
  let nb_fields := nb_fields_of Examples.keys in
  let st := Examples.the scan_init (scan nb_fields Examples.table) in
  (od_get Z.eqb (sweep_entries st) 7%Z = None
   <-> sweep_rows nb_fields Examples.table 7%Z = [])
  /\ (forall pre r post f c,
         sweep_rows nb_fields Examples.table 7%Z = pre ++ r :: post ->
         f < 24 ->
         isnan (cell r f c) = false ->
         Forall (fun r' => isnan (cell r' f c) = true) post ->
         exists e,
           od_get Z.eqb (sweep_entries st) 7%Z = Some e
           /\ cell e f c = cell r f c)
  /\ (forall e f c,
         od_get Z.eqb (sweep_entries st) 7%Z = Some e ->
         f < 24 ->
         Forall (fun r' => isnan (cell r' f c) = true)
                (sweep_rows nb_fields Examples.table 7%Z) ->
         isnan (cell e f c) = true).
Proof.
  apply (sweep_entry_keeps_last_value
           (nb_fields_of Examples.keys) Examples.table 24 9).
  - apply table_shape. reflexivity.
  - reflexivity.
Defined.

(** C1 as stated fails: sweep 7 has two rows, [LPF Cutoff] (field 17) of
    channel 1 is 10 in the first and 6 in the second; the merged entry,
    and the dict that [notebook()] returns, hold 6, the later value. *)
Lemma sweep_entry_overwrites_earlier_value :
  let nb_fields := nb_fields_of Examples.keys in
  sweep_rows nb_fields Examples.table 7%Z
  = [Examples.sweep7_a Examples.keys; Examples.sweep7_b Examples.keys]
  /\ od_get String.eqb nb_fields "LPF Cutoff"%string = Some 17
  /\ cell (Examples.sweep7_a Examples.keys) 17 1 = 10%float
  /\ cell (Examples.sweep7_b Examples.keys) 17 1 = 6%float
  /\ (st <- scan nb_fields Examples.table ;;
      Ok (option_map (fun e => cell e 17 1)
                     (od_get Z.eqb (sweep_entries st) 7%Z)))
     = Ok (Some 6%float)
  /\ (book <- fst (notebook (__init__ "example.nwb" Examples.file)) ;;
      chans <- od_getitem Z.eqb book 7%Z ;;
      nb <- getitem chans 1 ;;
      od_getitem String.eqb nb "LPF Cutoff"%string)
     = Ok (Some 6%float)
  /\ 6%float <> 10%float.
Proof.
  repeat split; try reflexivity.
  apply float_neq. vm_compute. discriminate.
Qed.

End SweepMergeExample.

Section ModeGatedExample.

Import MiesTestPulse.

Lemma test_pulse_quantities_follow_clamp_mode_witness :
  exists vm pa peak ss : float,
    nb_values (_nb_entry (Examples.the_pulse1))
    = [("TP Baseline Vm"%string, vm); ("TP Baseline pA"%string, pa);
       ("TP Peak Resistance"%string, peak);
       ("TP Steady State Resistance"%string, ss)]
    /\ clamp_mode Examples.the_pulse1 = (if isnan vm then vc else ic)
    /\ access_resistance Examples.the_pulse1
       = Ok (match clamp_mode Examples.the_pulse1 with
             | vc => Some (peak * 1e6)%float
             | ic => None
             end)
    /\ input_resistance Examples.the_pulse1 = Ok (Some (ss * 1e6)%float)
    /\ baseline_potential Examples.the_pulse1
       = Ok (match clamp_mode Examples.the_pulse1 with
             | vc => None
             | ic => Some (vm * 1e-3)%float
             end)
    /\ baseline_current Examples.the_pulse1
       = Ok (match clamp_mode Examples.the_pulse1 with
             | vc => Some (pa * 1e-12)%float
             | ic => None
             end).
Proof.
  apply (test_pulse_quantities_follow_clamp_mode
           Examples.nwb Examples.tp_block Examples.entry1 1 Examples.the_pulse1);
    reflexivity.
Defined.

End ModeGatedExample.

(** ** Attribute order: [test_pulse_entries] after [notebook] *)

Section DictOfList.

Context {V : Type}.

Let step (d : list (string * V)) (kv : string * V) : list (string * V) :=
  od_set String.eqb d (fst kv) (snd kv).

Lemma od_fold_get_some :
  forall (pairs : list (string * V)) (d : list (string * V)) (k : string),
    od_get String.eqb d k <> None \/ In k (map fst pairs) ->
    od_get String.eqb (fold_left step pairs d) k <> None.
Proof.
  induction pairs as [| [k0 v0] pairs IH]; intros d k H; cbn [fold_left].
  - destruct H as [H | []]. exact H.
  - apply IH. unfold step. cbn [fst snd].
    rewrite (od_get_od_set String.eqb String.eqb_eq).
    destruct (String.eqb k0 k) eqn:E.
    + left. discriminate.
    + destruct H as [H | [H | H]]; auto.
      cbn [fst] in H. subst k0. now rewrite String.eqb_refl in E.
Qed.

Lemma od_fold_get_value :
  forall (P : V -> Prop) (pairs : list (string * V)) (d : list (string * V)),
    (forall k v, od_get String.eqb d k = Some v -> P v) ->
    (forall kv, In kv pairs -> P (snd kv)) ->
    forall k v, od_get String.eqb (fold_left step pairs d) k = Some v -> P v.
Proof.
  intros P. induction pairs as [| [k0 v0] pairs IH]; intros d Hd Hpairs k v H;
    cbn [fold_left] in H.
  - exact (Hd k v H).
  - apply (IH (step d (k0, v0))) with (k := k); [| | exact H].
    + intros k1 v1 H1. unfold step in H1. cbn [fst snd] in H1.
      rewrite (od_get_od_set String.eqb String.eqb_eq) in H1.
      destruct (String.eqb k0 k1).
      * injection H1 as <-. apply (Hpairs (k0, v0)). now left.
      * exact (Hd k1 v1 H1).
    + intros kv Hin. apply Hpairs. now right.
Qed.

End DictOfList.

Section AttributeOrder.

Import MiesNwb.

Lemma map_snd_combine_seq :
  forall (A : Type) (l : list A) (s : nat),
    map snd (combine (seq s (length l)) l) = l.
Proof.
  induction l as [| a l IH]; intros s; cbn; [reflexivity |].
  now rewrite IH.
Qed.

(** A notebook key has an index, and the index is a row of the records. *)
Lemma nb_fields_of_key :
  forall (nb_keys : list string) (f : string),
    In f nb_keys ->
    exists i,
      od_get String.eqb (nb_fields_of nb_keys) f = Some i /\ i < length nb_keys.
Proof.
  intros nb_keys f Hin. unfold nb_fields_of, od_of_list.
  destruct (od_get String.eqb
              (fold_left
                 (fun d kv => od_set String.eqb d (fst kv) (snd kv))
                 (map (fun ik : nat * string => (snd ik, fst ik))
                      (enumerate nb_keys)) []) f) as [i |] eqn:E.
  - exists i. split; [reflexivity |].
    revert E. apply (od_fold_get_value (fun i => i < length nb_keys)).
    + intros k v H. discriminate.
    + intros kv Hkv. apply in_map_iff in Hkv as ([i0 k0] & <- & Hik).
      cbn [snd fst]. unfold enumerate in Hik.
      apply in_combine_l in Hik. apply in_seq in Hik. lia.
  - exfalso. revert E. apply od_fold_get_some. right.
    rewrite map_map. cbn [fst]. unfold enumerate.
    now rewrite map_snd_combine_seq.
Qed.

Lemma getitem_lt :
  forall (A : Type) (l : list A) (i : nat),
    i < length l -> exists a, getitem l i = Ok a /\ In a l.
Proof.
  intros A l i H. unfold getitem.
  destruct (nth_error l i) as [a |] eqn:E.
  - exists a. split; [reflexivity |]. now apply nth_error_In in E.
  - apply nth_error_None in E. lia.
Qed.

(** On a record of the table's shape every test-pulse field can be read. *)
Lemma field_values_ok :
  forall (self : t) (nb_keys : list string) (rec : record) (f : string),
    _notebook_keys self = Present (nb_fields_of nb_keys) ->
    has_shape (length nb_keys) 9 rec ->
    In f nb_keys ->
    exists p, field_values self rec f = Ok p.
Proof.
  intros self nb_keys rec f Hkeys [Hlen Hrows] Hin.
  unfold field_values, od_getitem. rewrite Hkeys. cbn [getattr bind].
  destruct (nb_fields_of_key nb_keys f Hin) as (i & -> & Hi). cbn [bind].
  rewrite <- Hlen in Hi.
  destruct (getitem_lt _ rec i Hi) as (row & -> & _). cbn [bind]. eauto.
Qed.

Lemma stim_value_ok :
  forall (self : t) (nb_keys : list string) (rec : record) (f : string),
    _notebook_keys self = Present (nb_fields_of nb_keys) ->
    has_shape (length nb_keys) 9 rec ->
    In f nb_keys ->
    exists p, stim_value self rec f = Ok p.
Proof.
  intros self nb_keys rec f Hkeys [Hlen Hrows] Hin.
  unfold stim_value, od_getitem. rewrite Hkeys. cbn [getattr bind].
  destruct (nb_fields_of_key nb_keys f Hin) as (i & -> & Hi). cbn [bind].
  rewrite <- Hlen in Hi.
  destruct (getitem_lt _ rec i Hi) as (row & -> & Hrow). cbn [bind].
  rewrite Forall_forall in Hrows. specialize (Hrows row Hrow).
  destruct (getitem_lt _ row 8 ltac:(lia)) as (v & -> & _). cbn [bind]. eauto.
Qed.

Lemma mapM_ok :
  forall (A B : Type) (f : A -> result B) (l : list A),
    Forall (fun a => exists b, f a = Ok b) l -> exists bs, mapM f l = Ok bs.
Proof.
  intros A B f l H. induction H as [| a l [b Hb] _ [bs Hbs]]; cbn [mapM].
  - eauto.
  - rewrite Hb, Hbs. cbn [bind]. eauto.
Qed.

Lemma tp_entry_of_ok :
  forall (self : t) (file : hdf_file) (rec : record),
    _notebook_keys self = Present (nb_fields_of (numericalKeys file)) ->
    Forall (fun f => In f (numericalKeys file)) (fields ++ stim_fields) ->
    has_shape (length (numericalKeys file)) 9 rec ->
    is_ok (tp_timestamp rec) = true ->
    exists entry, tp_entry_of self rec = Ok entry.
Proof.
  intros self file rec Hkeys Hschema Hshape Htime.
  apply Forall_app in Hschema as [Hfields Hstim].
  unfold tp_entry_of.
  destruct (tp_timestamp rec) as [date |]; [| discriminate]. cbn [bind].
  destruct (mapM_ok _ _ (field_values self rec) fields) as [vals ->].
  { eapply Forall_impl; [| exact Hfields].
    intros f Hf. exact (field_values_ok self _ rec f Hkeys Hshape Hf). }
  cbn [bind].
  destruct (mapM_ok _ _ (stim_value self rec) stim_fields) as [st ->].
  { eapply Forall_impl; [| exact Hstim].
    intros f Hf. exact (stim_value_ok self _ rec f Hkeys Hshape Hf). }
  cbn [bind]. eauto.
Qed.

(** The exceptions of the body of [test_pulse_entries]. *)
Lemma bind_raise :
  forall (A B : Type) (c : result A) (k : A -> result B) (e : exn),
    bind c k = Raise e -> c = Raise e \/ exists a, c = Ok a /\ k a = Raise e.
Proof.
  intros A B [a | e0] k e H; cbn in H; [right; eauto | left].
  now injection H as ->.
Qed.

Lemma mapM_raise :
  forall (A B : Type) (f : A -> result B) (l : list A) (e : exn),
    mapM f l = Raise e -> exists a, In a l /\ f a = Raise e.
Proof.
  intros A B f. induction l as [| a l IH]; intros e H; cbn [mapM] in H.
  - discriminate.
  - apply bind_raise in H as [H | (b & _ & H)].
    + exists a. split; [now left | exact H].
    + apply bind_raise in H as [H | (bs & _ & H)]; [| discriminate].
      destruct (IH e H) as (a' & Hin & Ha'). exists a'. split; [now right | exact Ha'].
Qed.

Lemma getitem_raise :
  forall (A : Type) (l : list A) (i : nat) (e : exn),
    getitem l i = Raise e -> e = IndexError.
Proof.
  intros A l i e H. unfold getitem in H.
  destruct (nth_error l i); [discriminate | now injection H].
Qed.

Lemma od_getitem_raise :
  forall (K V : Type) (eqb : K -> K -> bool) (d : list (K * V)) (k : K) (e : exn),
    od_getitem eqb d k = Raise e -> e = KeyError.
Proof.
  intros K V eqb d k e H. unfold od_getitem in H.
  destruct (od_get eqb d k); [discriminate | now injection H].
Qed.

Lemma item_raise :
  forall (rec : record) (f c : nat) (e : exn),
    item rec f c = Raise e -> e = IndexError.
Proof.
  intros rec f c e H. unfold item in H.
  apply bind_raise in H as [H | (row & _ & H)]; eapply getitem_raise; eauto.
Qed.

Lemma igorpro_date_raise :
  forall (t : float) (e : exn),
    igorpro_date t = Raise e -> e = ValueError \/ e = OverflowError.
Proof.
  intros t e H. unfold igorpro_date, Datetime.utcfromtimestamp in H.
  rewrite datetime_1970, datetime_1904 in H. cbn [bind] in H.
  destruct (Datetime.timet_and_us t) as [[timet us] | e0] eqn:Hsplit;
    cbn [bind] in H.
  - unfold Datetime.sub_timedelta in H.
    destruct (Datetime.in_range
                (Datetime.midnight 1970 1 1 + (timet * 1000000 + us))%Z);
      cbn [bind] in H.
    + destruct (Datetime.in_range _); [discriminate |].
      injection H as <-. now right.
    + injection H as <-. now left.
  - injection H as <-. left.
    unfold Datetime.timet_and_us, Datetime.double_to_time_t in Hsplit.
    destruct (Prim2SF t);
      try (cbn [bind] in Hsplit; now injection Hsplit as <-);
      destruct (_ && _)%bool; cbn [bind] in Hsplit;
      solve [ now injection Hsplit as <-
            | repeat match type of Hsplit with
                     | context [if ?c then _ else _] => destruct c
                     end; discriminate ].
Qed.

Lemma tp_entry_of_raise :
  forall (self : t) (keys : list (string * nat)) (rec : record) (e : exn),
    _notebook_keys self = Present keys ->
    tp_entry_of self rec = Raise e ->
    e <> AttributeError.
Proof.
  intros self keys rec e Hkeys H. unfold tp_entry_of in H.
  apply bind_raise in H as [H | (date & _ & H)].
  - unfold tp_timestamp in H.
    apply bind_raise in H as [H | (ts & _ & H)].
    + apply item_raise in H. now subst.
    + apply igorpro_date_raise in H as [-> | ->]; discriminate.
  - apply bind_raise in H as [H | (vals & _ & H)].
    + apply mapM_raise in H as (f & _ & H). unfold field_values in H.
      rewrite Hkeys in H. cbn [getattr bind] in H.
      apply bind_raise in H as [H | (i & _ & H)].
      * apply od_getitem_raise in H. now subst.
      * apply bind_raise in H as [H | (row & _ & H)]; [| discriminate].
        apply getitem_raise in H. now subst.
    + apply bind_raise in H as [H | (st & _ & H)]; [| discriminate].
      apply mapM_raise in H as (f & _ & H). unfold stim_value in H.
      rewrite Hkeys in H. cbn [getattr bind] in H.
      apply bind_raise in H as [H | (i & _ & H)].
      * apply od_getitem_raise in H. now subst.
      * apply bind_raise in H as [H | (row & _ & H)].
        -- apply getitem_raise in H. now subst.
        -- apply bind_raise in H as [H | (v & _ & H)]; [| discriminate].
           apply getitem_raise in H. now subst.
Qed.

End AttributeOrder.

Section TestPulseEntries.

Import MiesNwb.

(** Every test-pulse block has the shape of the table's records. *)
Lemma for_rows_tp_shape :
  forall (nb_fields : list (string * nat)) (nb : list record) (F C : nat),
    Forall (has_shape F C) nb ->
    forall fuel it st st',
      Forall (has_shape F C) (tp_entries st) ->
      for_rows nb_fields nb fuel it st = Ok st' ->
      Forall (has_shape F C) (tp_entries st').
Proof.
  intros nb_fields nb F C Hnb.
  induction fuel as [| fuel IH]; intros it st st' Hst H; cbn [for_rows] in H.
  - destruct (iter_next (length nb) it) as [[i it1] |]; [discriminate |].
    now injection H as <-.
  - destruct (iter_next (length nb) it) as [[i it1] |];
      [| now injection H as <-].
    apply bind_ok in H as ([it2 st1] & Hbody & H).
    apply (IH it2 st1 st'); [| exact H].
    unfold body in Hbody.
    apply bind_ok in Hbody as ([[tp sw] it1'] & _ & Hrec).
    unfold record_row in Hrec.
    apply bind_ok in Hrec as (rec & Hget & Hrec).
    destruct tp.
    + apply bind_ok in Hrec as ([x it3] & _ & Hrec).
      apply bind_ok in Hrec as (rec2 & _ & Hrec).
      injection Hrec as _ <-. cbn [tp_entries].
      apply Forall_app. split; [exact Hst |].
      constructor; [| constructor].
      apply overlay_shape. unfold getitem in Hget.
      destruct (nth_error nb i) as [r |] eqn:E; [| discriminate].
      injection Hget as ->. rewrite Forall_forall in Hnb.
      apply Hnb. now apply nth_error_In in E.
    + destruct sw.
      * apply bind_ok in Hrec as (k & _ & Hrec).
        now injection Hrec as _ <-.
      * now injection Hrec as _ <-.
Qed.

Lemma tp_entry_of_set_tp_entries :
  forall (self : t) (v : list tp_entry) (rec : record),
    tp_entry_of (set_tp_entries self v) rec = tp_entry_of self rec.
Proof. reflexivity. Qed.

(** The loop stores what it returns, and keeps the other attributes. *)
Lemma tp_loop_state :
  forall (recs : list record) (self : t) (acc : list tp_entry)
         (r : result (list tp_entry)) (self' : t),
    _tp_entries self = Present (Some acc) ->
    tp_loop recs self acc = (r, self') ->
    _notebook_keys self' = _notebook_keys self
    /\ forall entries, r = Ok entries -> _tp_entries self' = Present (Some entries).
Proof.
  induction recs as [| rec recs IH]; intros self acc r self' Hacc H;
    cbn [tp_loop] in H.
  - injection H as <- <-. split; [reflexivity |].
    intros entries Heq. now injection Heq as <-.
  - destruct (tp_entry_of self rec) as [entry |].
    + apply IH in H; [| reflexivity]. exact H.
    + injection H as <- <-. split; [reflexivity |]. intros entries Heq. discriminate.
Qed.

Lemma tp_loop_no_attribute_error :
  forall (recs : list record) (self : t) (keys : list (string * nat))
         (acc : list tp_entry),
    _notebook_keys self = Present keys ->
    fst (tp_loop recs self acc) <> Raise AttributeError.
Proof.
  induction recs as [| rec recs IH]; intros self keys acc Hkeys; cbn [tp_loop].
  - discriminate.
  - destruct (tp_entry_of self rec) as [entry | e] eqn:E.
    + now apply (IH _ keys).
    + cbn [fst]. intros Heq. injection Heq as ->.
      exact (tp_entry_of_raise self keys rec _ Hkeys E eq_refl).
Qed.

Lemma tp_loop_ok :
  forall (recs : list record) (self : t) (acc : list tp_entry),
    Forall (fun rec => exists entry, tp_entry_of self rec = Ok entry) recs ->
    exists entries,
      fst (tp_loop recs self acc) = Ok (acc ++ entries)
      /\ length entries = length recs.
Proof.
  induction recs as [| rec recs IH]; intros self acc H; cbn [tp_loop].
  - exists []. now rewrite app_nil_r.
  - inversion H as [| ? ? [entry Hentry] Hrecs]; subst. rewrite Hentry.
    destruct (IH (set_tp_entries self (acc ++ [entry])) (acc ++ [entry]))
      as (entries & Hloop & Hlen).
    { eapply Forall_impl; [| exact Hrecs].
      intros r Hr. now rewrite tp_entry_of_set_tp_entries. }
    exists (entry :: entries). rewrite Hloop. split.
    + now rewrite <- app_assoc.
    + cbn. now rewrite Hlen.
Qed.

(** The attributes of a file object after its first [notebook()]. *)
Lemma notebook_state :
  forall (fname : string) (file : hdf_file) (book : notebook_t) (nwb : t),
    notebook (__init__ fname file) = (Ok book, nwb) ->
    exists st,
      scan (nb_fields_of (numericalKeys file)) (numericalValues file) = Ok st
      /\ nwb = {| filename := fname;
                  hdf := file;
                  _notebook := Some book;
                  _tp_notebook := Present (tp_entries st);
                  _notebook_keys := Present (nb_fields_of (numericalKeys file));
                  _tp_entries := Present None |}.
Proof.
  intros fname file book nwb H. unfold notebook in H.
  cbn [__init__ _notebook hdf filename] in H.
  destruct (scan (nb_fields_of (numericalKeys file)) (numericalValues file))
    as [st |]; cbn [bind] in H; [| discriminate].
  destruct (mapM _ (sweep_entries st)) as [sweeps |]; cbn [bind] in H;
    [| discriminate].
  injection H as <- <-. exists st. split; reflexivity.
Qed.

(** C9 (as the code has it): on a freshly constructed file object
    [_tp_notebook] and [_notebook_keys] do not exist and
    [test_pulse_entries()] raises [AttributeError]; [notebook()] creates
    them, and after one successful [notebook()] call [test_pulse_entries()]
    no longer raises [AttributeError]. It succeeds, with one entry per
    test-pulse block, when the table has the eight test-pulse keys, nine
    channels per field and a valid time stamp in every block; a result that
    it returns is stored, and a second call returns it unchanged. *)
Theorem test_pulse_entries_needs_notebook :
  forall (fname : string) (file : hdf_file),
    let fresh := __init__ fname file in
    _tp_notebook fresh = Missing
    /\ _notebook_keys fresh = Missing
    /\ test_pulse_entries fresh = (Raise AttributeError, fresh)
    /\ forall (book : notebook_t) (nwb : t),
        notebook fresh = (Ok book, nwb) ->
        (exists tps,
            _tp_notebook nwb = Present tps
            /\ _notebook_keys nwb = Present (nb_fields_of (numericalKeys file))
            /\ (tp_schema file ->
                Forall (fun rec => is_ok (tp_timestamp rec) = true) tps ->
                exists entries,
                  fst (test_pulse_entries nwb) = Ok entries
                  /\ length entries = length tps))
        /\ fst (test_pulse_entries nwb) <> Raise AttributeError
        /\ (forall (entries : list tp_entry) (nwb' : t),
               test_pulse_entries nwb = (Ok entries, nwb') ->
               _tp_entries nwb' = Present (Some entries)
               /\ test_pulse_entries nwb' = (Ok entries, nwb')).
Proof.
  intros fname file fresh.
  split; [reflexivity | split; [reflexivity | split; [reflexivity |]]].
  intros book nwb Hnotebook.
  destruct (notebook_state fname file book nwb Hnotebook) as (st & Hscan & ->).
  split; [| split].
  - exists (tp_entries st). split; [reflexivity | split; [reflexivity |]].
    intros [Hschema Hshape] Htime.
    unfold test_pulse_entries. cbn [_tp_entries getattr set_tp_entries _tp_notebook].
    apply (tp_loop_ok (tp_entries st) _ []).
    assert (Hshapes : Forall (has_shape (length (numericalKeys file)) 9)
                             (tp_entries st)).
    { apply (for_rows_tp_shape (nb_fields_of (numericalKeys file))
                               (numericalValues file) _ _ Hshape
                               (length (numericalValues file)) 0 scan_init st);
        [constructor | exact Hscan]. }
    apply Forall_forall. intros rec Hin.
    rewrite Forall_forall in Hshapes, Htime.
    apply (tp_entry_of_ok _ file rec);
      [reflexivity | exact Hschema | now apply Hshapes | now apply Htime].
  - unfold test_pulse_entries. cbn [_tp_entries getattr set_tp_entries _tp_notebook].
    now apply (tp_loop_no_attribute_error
                 _ _ (nb_fields_of (numericalKeys file))).
  - intros entries nwb' H.
    unfold test_pulse_entries in H.
    cbn [_tp_entries getattr set_tp_entries _tp_notebook] in H.
    apply tp_loop_state in H as [_ Hstored]; [| reflexivity].
    specialize (Hstored entries eq_refl). split; [exact Hstored |].
    unfold test_pulse_entries. now rewrite Hstored.
Qed.

Lemma keys_present :
  forall (nb_keys wanted : list string),
    forallb (fun f => existsb (String.eqb f) nb_keys) wanted = true ->
    Forall (fun f => In f nb_keys) wanted.
Proof.
  intros nb_keys wanted H. apply Forall_forall. intros f Hin.
  rewrite forallb_forall in H. specialize (H f Hin).
  apply existsb_exists in H as (k & Hk & E).
  apply String.eqb_eq in E. now subst.
Qed.

Lemma test_pulse_entries_needs_notebook_witness :
  let fresh := __init__ "example.nwb" Examples.file in
  test_pulse_entries fresh = (Raise AttributeError, fresh)
  /\ (exists entries,
        fst (test_pulse_entries Examples.nwb) = Ok entries
        /\ length entries = 2)
  /\ test_pulse_entries Examples.nwb_with_entries
     = (Ok Examples.entries, Examples.nwb_with_entries).
Proof.
  destruct (test_pulse_entries_needs_notebook "example.nwb" Examples.file)
    as (_ & _ & Hfresh & Hafter).
  split; [exact Hfresh |].
  assert (Hnotebook :
            notebook (__init__ "example.nwb" Examples.file)
            = (Ok Examples.book, Examples.nwb))
    by (vm_compute; reflexivity).
  destruct (Hafter Examples.book Examples.nwb Hnotebook)
    as ((tps & Htps & _ & Hok) & _ & Hmemo).
  assert (Hblocks : _tp_notebook Examples.nwb = Present Examples.blocks)
    by (vm_compute; reflexivity).
  rewrite Hblocks in Htps. injection Htps as <-.
  split.
  - apply Hok.
    + split; [apply keys_present | apply table_shape]; vm_compute; reflexivity.
    + repeat constructor.
  - apply (Hmemo Examples.entries Examples.nwb_with_entries).
    vm_compute. reflexivity.
Defined.

(** C9 as stated fails: after a successful [notebook()] the call can
    still fail. The second test-pulse block of this file has no time
    stamp: [notebook()] succeeds and stores two blocks,
    [test_pulse_entries()] raises [ValueError] on the second one, and what
    is memoized is the list of the entries built before the failure. *)
Lemma test_pulse_entries_fails_after_notebook :
  let fresh := __init__ "untimed.nwb" MoreExamples.untimed_file in
  let nwb := snd (notebook fresh) in
  let nwb' := snd (test_pulse_entries nwb) in
  is_ok (fst (notebook fresh)) = true
  /\ _tp_notebook nwb
     = Present [Examples.tp_block;
                overlay MoreExamples.untimed_row MoreExamples.untimed_row]
  /\ fst (test_pulse_entries nwb) = Raise ValueError
  /\ fst (test_pulse_entries nwb') = Ok [Examples.entry1].
Proof. repeat split; vm_compute; reflexivity. Qed.

End TestPulseEntries.

(** ** The loop of [notebook] stops because the iterator is used up *)

Section ScanTermination.

Import MiesNwb.

Variable nb_fields : list (string * nat).
Variable nb : list record.

Lemma int_raise :
  forall (x : float) (e : exn),
    int x = Raise e -> e = ValueError \/ e = OverflowError.
Proof.
  intros x e H. unfold int in H.
  destruct (Prim2SF x); try discriminate; injection H as <-; auto.
Qed.

Lemma iter_next_raise :
  forall (m it : nat) (e : exn), iter_next m it = Raise e -> e = StopIteration.
Proof.
  intros m it e H. unfold iter_next in H.
  destruct (it <? m); [discriminate | now injection H].
Qed.

Lemma classify_legacy_raise :
  forall i it rec s e,
    classify_legacy nb_fields nb i it rec s = Raise e -> e <> OutOfFuel.
Proof.
  intros i it rec s e H. unfold classify_legacy in H.
  destruct (i <? length nb - 1); [| discriminate].
  apply bind_raise in H as [H | (k & _ & H)];
    [apply od_getitem_raise in H; now subst |].
  apply bind_raise in H as [H | (tp_peak & _ & H)];
    [apply getitem_raise in H; now subst |].
  destruct (existsb isfinite tp_peak); [| discriminate].
  apply bind_raise in H as [H | (rec_next & _ & H)];
    [apply getitem_raise in H; now subst |].
  apply bind_raise in H as [H | (k2 & _ & H)];
    [apply od_getitem_raise in H; now subst |].
  apply bind_raise in H as [H | (tp_dur & _ & H)];
    [apply getitem_raise in H; now subst |].
  destruct (existsb isfinite tp_dur); [| discriminate].
  apply bind_raise in H as [H | ([x it'] & _ & H)]; [| discriminate].
  apply iter_next_raise in H. now subst.
Qed.

Lemma body_raise :
  forall i it st e, body nb_fields nb i it st = Raise e -> e <> OutOfFuel.
Proof.
  intros i it st e H. unfold body in H.
  apply bind_raise in H as [H | ([[tp sw] it1] & _ & H)].
  - unfold classify in H.
    apply bind_raise in H as [H | (rec & _ & H)];
      [apply getitem_raise in H; now subst |].
    apply bind_raise in H as [H | (sweep_num & _ & H)];
      [apply item_raise in H; now subst |].
    destruct (entry_source_type_index nb_fields) as [idx |].
    + apply bind_raise in H as [H | (d & _ & H)];
        [apply item_raise in H; now subst |].
      destruct (negb (isnan d)).
      * destruct (d =? 0)%float; discriminate.
      * now apply classify_legacy_raise in H.
    + now apply classify_legacy_raise in H.
  - unfold record_row in H.
    apply bind_raise in H as [H | (rec & _ & H)];
      [apply getitem_raise in H; now subst |].
    destruct tp.
    + apply bind_raise in H as [H | ([x it2] & _ & H)];
        [apply iter_next_raise in H; now subst |].
      apply bind_raise in H as [H | (rec2 & _ & H)]; [| discriminate].
      apply getitem_raise in H. now subst.
    + destruct sw; [| discriminate].
      apply bind_raise in H as [H | (k & _ & H)]; [| discriminate].
      unfold sweep_number in H.
      apply bind_raise in H as [H | (s & _ & H)];
        [apply item_raise in H; now subst |].
      apply int_raise in H as [-> | ->]; discriminate.
Qed.

Lemma for_rows_fuel :
  forall fuel it st,
    length nb - it <= fuel ->
    for_rows nb_fields nb fuel it st <> Raise OutOfFuel.
Proof.
  induction fuel as [| fuel IH]; intros it st Hfuel; cbn [for_rows].
  - destruct (iter_next (length nb) it) as [[i it1] |] eqn:E; [| discriminate].
    apply iter_next_ok in E as (_ & _ & Hlt). lia.
  - destruct (iter_next (length nb) it) as [[i it1] |] eqn:E; [| discriminate].
    apply iter_next_ok in E as (-> & -> & Hlt).
    destruct (body nb_fields nb it (S it) st) as [[it2 st1] | e] eqn:Hbody;
      cbn [bind].
    + apply IH. apply body_advances in Hbody. lia.
    + intros Heq. injection Heq as ->. exact (body_raise _ _ _ _ Hbody eq_refl).
Qed.

(** The scan of a table of [n] rows needs no more than [n] turns of the
    loop. *)
Lemma scan_terminates : scan nb_fields nb <> Raise OutOfFuel.
Proof. unfold scan. apply for_rows_fuel. lia. Qed.

End ScanTermination.

(** * Further properties *)

(** ** Post-merge propagation *)

Section ListFacts.

Context {A B : Type}.

Lemma nth_error_enumerate_from :
  forall (l : list A) (s i : nat),
    nth_error (combine (seq s (length l)) l) i
    = option_map (fun a => (s + i, a)) (nth_error l i).
Proof.
  induction l as [| a l IH]; intros s i; cbn [length seq combine].
  - now destruct i.
  - destruct i as [| i]; cbn [nth_error option_map].
    + now rewrite Nat.add_0_r.
    + rewrite IH. destruct (nth_error l i); cbn; [| reflexivity].
      now rewrite Nat.add_succ_r.
Qed.

Lemma nth_error_enumerate :
  forall (l : list A) (i : nat),
    nth_error (enumerate l) i = option_map (fun a => (i, a)) (nth_error l i).
Proof. intros l i. unfold enumerate. apply nth_error_enumerate_from. Qed.

Lemma length_enumerate : forall l : list A, length (enumerate l) = length l.
Proof.
  intros l. unfold enumerate. rewrite length_combine, length_seq. lia.
Qed.

Lemma mapM_map :
  forall (f : A -> result B) (g : A -> B) (l : list A),
    (forall a, In a l -> f a = Ok (g a)) -> mapM f l = Ok (map g l).
Proof.
  intros f g. induction l as [| a l IH]; intros H; cbn [mapM map].
  - reflexivity.
  - rewrite (H a) by now left. cbn [bind].
    rewrite IH by (intros b Hb; apply H; now right). reflexivity.
Qed.

Lemma mapM_first_raise :
  forall (f : A -> result B) (a : A) (l : list A) (e : exn),
    f a = Raise e -> mapM f (a :: l) = Raise e.
Proof. intros f a l e H. cbn [mapM]. now rewrite H. Qed.

End ListFacts.

Section PropagationFacts.

Import MiesNwb Propagation.

Lemma length_fill : forall row v, length (fill row v) = length row.
Proof. intros row v. unfold fill. apply length_map. Qed.

Lemma nth_fill :
  forall row v c, c < length row -> nth c (fill row v) nan = v.
Proof.
  intros row v c H. unfold fill.
  rewrite (nth_indep _ nan v) by now rewrite length_map.
  now rewrite (map_nth (fun _ => v)).
Qed.

Lemma getitem_nth :
  forall (row : list float) (c : nat),
    c < length row -> getitem row c = Ok (nth c row nan).
Proof.
  intros row c H. unfold getitem.
  now rewrite (nth_error_nth' row nan H).
Qed.

(** Lines 101-102 succeed on rows with a global column. *)
Lemma apply_global_rows :
  forall entry : record,
    Forall (fun row => 8 < length row) entry ->
    apply_global entry = Ok (map global_row entry).
Proof.
  intros entry H. unfold apply_global. apply mapM_map.
  intros row Hin. rewrite Forall_forall in H.
  rewrite (getitem_nth row 8 (H row Hin)). reflexivity.
Qed.

Lemma broadcast_first4_rows :
  forall entry : record,
    broadcast_first4 entry
    = map (fun ir => if fst ir <? 4 then first_channel_row (snd ir) else snd ir)
          (enumerate entry).
Proof.
  intros entry. unfold broadcast_first4. apply map_ext.
  intros [i row]. cbn [fst snd]. destruct (i <? 4); [| reflexivity].
  destruct row; reflexivity.
Qed.

Lemma set_item_middle :
  forall (X : Type) (pre : list X) (x y : X) (post : list X),
    set_item (pre ++ x :: post) (length pre) y = pre ++ y :: post.
Proof.
  intros X. induction pre as [| p pre IH]; intros x y post; cbn.
  - reflexivity.
  - now rewrite IH.
Qed.

Lemma getitem_middle :
  forall (X : Type) (pre : list X) (x : X) (post : list X),
    getitem (pre ++ x :: post) (length pre) = Ok x.
Proof.
  intros X pre x post. unfold getitem.
  rewrite nth_error_app2 by lia. now rewrite Nat.sub_diag.
Qed.

(** The loop over the [Async AD] keys, on an entry with one non-empty row
    per key. *)
Lemma broadcast_async_rows :
  forall (keys : list string) (pre rest : record),
    length rest = length keys ->
    Forall (fun row => 0 < length row) rest ->
    fold_left (fun acc ik =>
                 entry <- acc ;;
                 if String.prefix "Async AD "%string (snd ik) then
                   row <- getitem entry (fst ik) ;;
                   v <- getitem row 0 ;;
                   Ok (set_item entry (fst ik) (fill row v))
                 else Ok entry)
              (combine (seq (length pre) (length keys)) keys)
              (Ok (pre ++ rest))
    = Ok (pre ++ map (fun kr => if String.prefix "Async AD "%string (fst kr)
                                then first_channel_row (snd kr)
                                else snd kr)
                     (combine keys rest)).
Proof.
  induction keys as [| k keys IH]; intros pre rest Hlen Hrows;
    destruct rest as [| row rest]; try discriminate.
  - reflexivity.
  - cbn [length seq combine fold_left map fst snd bind].
    inversion Hrows as [| ? ? Hrow Hrest]; subst.
    injection Hlen as Hlen.
    destruct (String.prefix "Async AD "%string k).
    + rewrite getitem_middle. cbn [bind].
      rewrite (getitem_nth row 0 Hrow). cbn [bind].
      rewrite set_item_middle.
      replace (pre ++ fill row (nth 0 row nan) :: rest)
        with ((pre ++ [fill row (nth 0 row nan)]) ++ rest)
        by now rewrite <- app_assoc.
      replace (S (length pre)) with (length (pre ++ [fill row (nth 0 row nan)]))
        by (rewrite length_app; cbn; lia).
      rewrite (IH _ rest Hlen Hrest). now rewrite <- app_assoc.
    + replace (pre ++ row :: rest) with ((pre ++ [row]) ++ rest)
        by now rewrite <- app_assoc.
      replace (S (length pre)) with (length (pre ++ [row]))
        by (rewrite length_app; cbn; lia).
      rewrite (IH _ rest Hlen Hrest). now rewrite <- app_assoc.
Qed.

End PropagationFacts.

Section PropagationCells.

Import MiesNwb Propagation.

Lemma length_global_row : forall row, length (global_row row) = length row.
Proof.
  intros row. unfold global_row.
  destruct (isnan (nth 8 row nan)); [reflexivity | apply length_fill].
Qed.

Lemma length_first_channel_row :
  forall row, length (first_channel_row row) = length row.
Proof. intros row. apply length_fill. Qed.

Lemma length_propagate_row :
  forall i key row, length (propagate_row i key row) = length row.
Proof.
  intros i key row. unfold propagate_row.
  destruct (String.prefix _ key), (i <? 4);
    rewrite ?length_first_channel_row, ?length_global_row; reflexivity.
Qed.

Lemma propagate_rows_from :
  forall (keys : list string) (entry : record) (s : nat),
    length entry = length keys ->
    map (fun kr => if String.prefix "Async AD "%string (fst kr)
                   then first_channel_row (snd kr)
                   else snd kr)
        (combine keys
           (map (fun ir => if fst ir <? 4
                           then first_channel_row (snd ir)
                           else snd ir)
                (combine (seq s (length (map global_row entry)))
                         (map global_row entry))))
    = map (fun x => propagate_row (fst x) (fst (snd x)) (snd (snd x)))
          (combine (seq s (length (combine keys entry))) (combine keys entry)).
Proof.
  induction keys as [| k keys IH]; intros [| row entry] s Hlen;
    try discriminate; [reflexivity |].
  injection Hlen as Hlen.
  cbn [map length seq combine fst snd]. f_equal.
  exact (IH entry (S s) Hlen).
Qed.

(** Lines 101-113 on an entry with one row per key and a global column. *)
Lemma propagate_ok :
  forall (keys : list string) (C : nat) (entry : record),
    has_shape (length keys) C entry ->
    8 < C ->
    (e1 <- apply_global entry ;; broadcast_async keys (broadcast_first4 e1))
    = Ok (propagate keys entry).
Proof.
  intros keys C entry [Hlen Hrows] HC.
  rewrite apply_global_rows
    by (eapply Forall_impl; [| exact Hrows]; cbn; intros; lia).
  cbn [bind]. rewrite broadcast_first4_rows.
  unfold broadcast_async, enumerate.
  match goal with
  | |- fold_left _ _ (Ok ?e2) = _ =>
      pose proof (broadcast_async_rows keys [] e2) as Hasync
  end.
  cbn [app length] in Hasync. etransitivity; [apply Hasync |].
  3: { unfold propagate, enumerate. now rewrite propagate_rows_from. }
  - now rewrite length_map, length_combine, length_seq, length_map, Nat.min_id.
  - apply Forall_forall. intros row Hin.
    apply in_map_iff in Hin as ([i r] & <- & Hin). cbn [fst snd].
    apply in_combine_r in Hin. apply in_map_iff in Hin as (r0 & <- & Hin).
    rewrite Forall_forall in Hrows. specialize (Hrows r0 Hin).
    destruct (i <? 4);
      rewrite ?length_first_channel_row, length_global_row; lia.
Qed.

Lemma propagate_shape :
  forall (keys : list string) (C : nat) (entry : record),
    has_shape (length keys) C entry ->
    has_shape (length keys) C (propagate keys entry).
Proof.
  intros keys C entry [Hlen Hrows]. unfold propagate. split.
  - rewrite length_map, length_enumerate, length_combine. lia.
  - apply Forall_forall. intros row Hin.
    apply in_map_iff in Hin as ([i [k r]] & <- & Hin). cbn [fst snd].
    rewrite length_propagate_row. unfold enumerate in Hin.
    apply in_combine_r, in_combine_r in Hin.
    rewrite Forall_forall in Hrows. now apply Hrows.
Qed.

Lemma nth_propagate :
  forall (keys : list string) (entry : record) (f : nat),
    length entry = length keys ->
    f < length keys ->
    nth f (propagate keys entry) []
    = propagate_row f (nth f keys ""%string) (nth f entry []).
Proof.
  intros keys entry f Hlen Hf. unfold propagate.
  apply nth_error_nth.
  rewrite nth_error_map, nth_error_enumerate.
  assert (Hc : f < length (combine keys entry))
    by (rewrite length_combine; lia).
  rewrite (nth_error_nth' _ (""%string, []) Hc). cbn [option_map fst snd].
  now rewrite combine_nth by lia.
Qed.

(** Every cell after the propagation. *)
Lemma cell_propagate :
  forall (keys : list string) (C : nat) (entry : record) (f c : nat),
    has_shape (length keys) C entry ->
    8 < C -> f < length keys -> c < C ->
    cell (propagate keys entry) f c = final_cell keys entry f c.
Proof.
  intros keys C entry f c Hshape HC Hf Hc.
  pose proof (shape_row_length _ _ _ f Hshape Hf) as Hrow.
  destruct Hshape as [Hlen Hrows].
  unfold cell at 1. rewrite nth_propagate by assumption.
  unfold final_cell, propagate_row, cell.
  set (row := nth f entry []) in *.
  set (key := nth f keys ""%string).
  assert (Hg : forall c', c' < C ->
                          nth c' (global_row row) nan
                          = if isnan (nth 8 row nan) then nth c' row nan
                            else nth 8 row nan).
  { intros c' Hc'. unfold global_row.
    destruct (isnan (nth 8 row nan)); [reflexivity |].
    apply nth_fill. lia. }
  destruct (f <? 4), (String.prefix "Async AD "%string key); cbn [orb];
    unfold first_channel_row;
    rewrite ?nth_fill by (rewrite ?length_fill, ?length_global_row; lia);
    rewrite ?nth_fill by (rewrite ?length_global_row; lia);
    rewrite Hg by lia; reflexivity.
Qed.

End PropagationCells.

Section DictOfListNoDup.

Context {V : Type}.

Let step (d : list (string * V)) (kv : string * V) : list (string * V) :=
  od_set String.eqb d (fst kv) (snd kv).

Lemma od_fold_get_other :
  forall (pairs : list (string * V)) (d : list (string * V)) (k : string),
    ~ In k (map fst pairs) ->
    od_get String.eqb (fold_left step pairs d) k = od_get String.eqb d k.
Proof.
  induction pairs as [| [k0 v0] pairs IH]; intros d k Hnot; cbn [fold_left].
  - reflexivity.
  - rewrite IH by (intros Hin; apply Hnot; now right).
    unfold step. cbn [fst snd].
    rewrite (od_get_od_set String.eqb String.eqb_eq).
    destruct (String.eqb k0 k) eqn:E; [| reflexivity].
    apply String.eqb_eq in E. subst k0. exfalso. apply Hnot. now left.
Qed.

(** A dict built from pairs with distinct keys returns each pair's value. *)
Lemma od_of_list_distinct :
  forall (pairs : list (string * V)) (k : string) (v : V),
    NoDup (map fst pairs) ->
    In (k, v) pairs ->
    od_get String.eqb (od_of_list String.eqb pairs) k = Some v.
Proof.
  intros pairs k v. unfold od_of_list. fold step.
  generalize (@nil (string * V)).
  induction pairs as [| [k0 v0] pairs IH]; intros d Hnodup Hin;
    [contradiction |].
  cbn [fold_left]. cbn [map fst] in Hnodup.
  inversion Hnodup as [| ? ? Hk0 Hrest]; subst.
  destruct Hin as [Heq | Hin].
  - injection Heq as -> ->.
    rewrite od_fold_get_other by exact Hk0.
    unfold step. cbn [fst snd].
    rewrite (od_get_od_set String.eqb String.eqb_eq).
    now rewrite String.eqb_refl.
  - now apply IH.
Qed.

End DictOfListNoDup.

Section FinishedEntry.

Import MiesNwb Propagation.

Lemma map_snd_enumerate :
  forall (X : Type) (l : list X), map snd (enumerate l) = l.
Proof. intros X l. unfold enumerate. apply map_snd_combine_seq. Qed.

Lemma nth_map_seq :
  forall (X : Type) (g : nat -> X) (C c : nat) (d : X),
    c < C -> nth c (map g (seq 0 C)) d = g c.
Proof.
  intros X g C c d Hc. apply nth_error_nth.
  rewrite nth_error_map.
  assert (Hc' : c < length (seq 0 C)) by now rewrite length_seq.
  rewrite (nth_error_nth' (seq 0 C) 0 Hc'), seq_nth by exact Hc.
  reflexivity.
Qed.

(** The conversion of an entry with one row per key to a list of dicts. *)
Lemma to_dicts_ok :
  forall (keys : list string) (C : nat) (entry : record),
    has_shape (length keys) C entry ->
    keys <> [] ->
    to_dicts keys entry
    = Ok (map (fun c =>
                 od_of_list String.eqb
                            (map (fun jk => (snd jk, none_if_nan (cell entry (fst jk) c)))
                                 (enumerate keys)))
              (seq 0 C)).
Proof.
  intros keys C entry Hshape Hkeys. unfold to_dicts.
  assert (HC : length (hd [] entry) = C).
  { destruct keys as [| k keys]; [contradiction |].
    destruct Hshape as [Hlen Hrows].
    destruct entry as [| row entry]; [discriminate |].
    now inversion Hrows. }
  rewrite HC. apply mapM_map. intros c Hc. apply in_seq in Hc.
  erewrite mapM_map; [reflexivity |].
  intros [j k] Hjk. cbn [fst snd].
  assert (Hj : j < length keys).
  { unfold enumerate in Hjk. apply in_combine_l, in_seq in Hjk. lia. }
  pose proof (shape_row_length _ _ _ j Hshape Hj) as Hrow.
  destruct Hshape as [Hlen Hrows].
  assert (Hj' : j < length entry) by lia.
  assert (Hc' : c < length (nth j entry [])) by lia.
  unfold getitem.
  rewrite (nth_error_nth' entry [] Hj'). cbn [bind].
  rewrite (nth_error_nth' (nth j entry []) nan Hc'). reflexivity.
Qed.

(** [notebook()[sweep][c][key]] for an entry with one row per key, at least
    nine channels and distinct keys. *)
Lemma finish_entry_cells :
  forall (keys : list string) (C : nat) (entry : record),
    has_shape (length keys) C entry ->
    8 < C ->
    NoDup keys ->
    keys <> [] ->
    exists dicts,
      finish_entry keys entry = Ok dicts
      /\ length dicts = C
      /\ forall f c,
          f < length keys -> c < C ->
          od_get String.eqb (nth c dicts []) (nth f keys ""%string)
          = Some (none_if_nan (final_cell keys entry f c)).
Proof.
  intros keys C entry Hshape HC Hnodup Hkeys.
  unfold finish_entry.
  pose proof (propagate_ok keys C entry Hshape HC) as Hprop.
  destruct (apply_global entry) as [e1 |]; cbn [bind] in Hprop |- *;
    [| discriminate].
  rewrite Hprop. cbn [bind].
  rewrite (to_dicts_ok keys C) by (auto using propagate_shape).
  eexists. split; [reflexivity |]. split.
  - now rewrite length_map, length_seq.
  - intros f c Hf Hc.
    rewrite nth_map_seq by exact Hc.
    rewrite <- (cell_propagate keys C) by assumption.
    apply od_of_list_distinct.
    + rewrite map_map. cbn [fst]. now rewrite map_snd_enumerate.
    + apply in_map_iff. exists (f, nth f keys ""%string). split; [reflexivity |].
      apply (nth_error_In _ f). rewrite nth_error_enumerate.
      now rewrite (nth_error_nth' keys ""%string Hf).
Qed.

End FinishedEntry.

Section NotebookValues.

Import MiesNwb Propagation.

Lemma od_get_in :
  forall (V : Type) (d : list (Z * V)) (k : Z) (v : V),
    od_get Z.eqb d k = Some v -> In (k, v) d.
Proof.
  induction d as [| [k0 v0] d IH]; intros k v H; cbn [od_get] in H.
  - discriminate.
  - destruct (Z.eqb k0 k) eqn:E.
    + apply Z.eqb_eq in E. injection H as <-. subst. now left.
    + right. now apply IH.
Qed.

Lemma od_set_keys_in :
  forall (V : Type) (d : list (Z * V)) (k x : Z) (v : V),
    In x (map fst (od_set Z.eqb d k v)) -> x = k \/ In x (map fst d).
Proof.
  induction d as [| [k0 v0] d IH]; intros k x v H; cbn [od_set] in H.
  - destruct H as [<- | []]. now left.
  - destruct (Z.eqb k0 k); cbn [map fst In] in H |- *.
    + tauto.
    + destruct H as [<- | H]; [tauto |].
      apply IH in H. tauto.
Qed.

(** [d[k] = v] never makes a second item for a key. *)
Lemma od_set_distinct :
  forall (V : Type) (d : list (Z * V)) (k : Z) (v : V),
    NoDup (map fst d) -> NoDup (map fst (od_set Z.eqb d k v)).
Proof.
  induction d as [| [k0 v0] d IH]; intros k v H; cbn [od_set].
  - cbn. constructor; [intros [] | constructor].
  - inversion H as [| ? ? Hk0 Hd]; subst.
    destruct (Z.eqb k0 k) eqn:E; cbn [map fst].
    + now constructor.
    + constructor; [| now apply IH].
      intros Hin. apply od_set_keys_in in Hin as [-> | Hin]; [| contradiction].
      now rewrite Z.eqb_refl in E.
Qed.

(** Sweep ids stay distinct throughout the loop. *)
Lemma for_rows_distinct_sweeps :
  forall (nb_fields : list (string * nat)) (nb : list record) fuel it st st',
    NoDup (map fst (sweep_entries st)) ->
    for_rows nb_fields nb fuel it st = Ok st' ->
    NoDup (map fst (sweep_entries st')).
Proof.
  intros nb_fields nb.
  induction fuel as [| fuel IH]; intros it st st' Hst H; cbn [for_rows] in H.
  - destruct (iter_next (length nb) it) as [[i it1] |]; [discriminate |].
    now injection H as <-.
  - destruct (iter_next (length nb) it) as [[i it1] |];
      [| now injection H as <-].
    apply bind_ok in H as ([it2 st1] & Hbody & H).
    apply (IH it2 st1 st'); [| exact H].
    unfold body in Hbody.
    apply bind_ok in Hbody as ([[tp sw] it1'] & _ & Hrec).
    unfold record_row in Hrec.
    apply bind_ok in Hrec as (rec & _ & Hrec).
    destruct tp.
    + apply bind_ok in Hrec as ([x it3] & _ & Hrec).
      apply bind_ok in Hrec as (rec2 & _ & Hrec).
      now injection Hrec as _ <-.
    + destruct sw.
      * apply bind_ok in Hrec as (k & _ & Hrec).
        injection Hrec as _ <-. cbn [sweep_entries].
        now apply od_set_distinct.
      * now injection Hrec as _ <-.
Qed.

Lemma scan_distinct_sweeps :
  forall (nb_fields : list (string * nat)) (nb : list record) (st : scan_state),
    scan nb_fields nb = Ok st -> NoDup (map fst (sweep_entries st)).
Proof.
  intros nb_fields nb st H.
  apply (for_rows_distinct_sweeps nb_fields nb (length nb) 0 scan_init st);
    [constructor | exact H].
Qed.

Lemma od_get_of_in :
  forall (V : Type) (d : list (Z * V)) (k : Z) (v : V),
    NoDup (map fst d) -> In (k, v) d -> od_get Z.eqb d k = Some v.
Proof.
  induction d as [| [k0 v0] d IH]; intros k v Hd Hin; [contradiction |].
  cbn [od_get]. cbn [map fst] in Hd. inversion Hd as [| ? ? Hk0 Hd']; subst.
  destruct Hin as [Heq | Hin].
  - injection Heq as -> ->. now rewrite Z.eqb_refl.
  - destruct (Z.eqb k0 k) eqn:E; [| now apply IH].
    apply Z.eqb_eq in E. subst k0. exfalso. apply Hk0.
    apply in_map_iff. now exists (k, v).
Qed.

(** Every merged sweep entry has the shape of the table's records. *)
Lemma sweep_entry_shape :
  forall (nb_fields : list (string * nat)) (nb : list record) (F C : nat)
         (st : scan_state) (k : Z) (e : record),
    Forall (has_shape F C) nb ->
    scan nb_fields nb = Ok st ->
    od_get Z.eqb (sweep_entries st) k = Some e ->
    has_shape F C e.
Proof.
  intros nb_fields nb F C st k e Hshape Hscan He.
  pose proof (for_rows_sweep_entry nb_fields nb _ _ _ _ k Hscan) as Hentry.
  cbn [scan_init sweep_entries od_get] in Hentry.
  rewrite fold_merge_row, He in Hentry.
  assert (Hrows : Forall (has_shape F C)
                         (sweep_rows_from nb_fields nb (length nb) 0 k)).
  { apply Forall_forall. intros r Hin. rewrite Forall_forall in Hshape.
    apply Hshape. exact (sweep_rows_from_in _ _ _ _ _ _ Hin). }
  destruct (sweep_rows_from nb_fields nb (length nb) 0 k) as [| r0 rows];
    [discriminate |].
  injection Hentry as ->.
  inversion Hrows; subst. now apply fold_overlay_shape.
Qed.

Lemma mapM_keyed :
  forall (X Y : Type) (h : X -> result Y) (l : list (Z * X)) (r : list (Z * Y)),
    mapM (fun se => meta <- h (snd se) ;; Ok (fst se, meta)) l = Ok r ->
    map fst r = map fst l
    /\ forall k e,
        od_get Z.eqb l k = Some e ->
        exists m, h e = Ok m /\ od_get Z.eqb r k = Some m.
Proof.
  intros X Y h. induction l as [| [k0 e0] l IH]; intros r H.
  - apply mapM_nil_ok in H as ->. split; [reflexivity |]. discriminate.
  - apply mapM_cons_ok in H as ([k1 m1] & r' & Hhead & Htail & ->).
    cbn [fst snd] in Hhead.
    apply bind_ok in Hhead as (m & Hm & Hhead). injection Hhead as <- <-.
    destruct (IH r' Htail) as [Hkeys Hget]. split.
    + cbn [map fst]. now rewrite Hkeys.
    + intros k e He. cbn [od_get] in He |- *.
      destruct (Z.eqb k0 k).
      * injection He as <-. eauto.
      * now apply Hget.
Qed.

End NotebookValues.

Section NotebookPropagation.

Import MiesNwb Propagation.

Lemma distinctb_spec : forall l, distinctb l = true -> NoDup l.
Proof.
  induction l as [| k l IH]; intros H; cbn [distinctb] in H.
  - constructor.
  - apply andb_prop in H as [Hk Hl]. constructor; [| now apply IH].
    intros Hin. apply negb_true_iff in Hk.
    assert (existsb (String.eqb k) l = true); [| congruence].
    apply existsb_exists. exists k. split; [exact Hin | apply String.eqb_refl].
Qed.

Lemma well_formedb_spec :
  forall file C, well_formedb file C = true -> well_formed file C.
Proof.
  intros file C H. unfold well_formedb in H.
  apply andb_prop in H as [H Hne]. apply andb_prop in H as [H Hd].
  apply andb_prop in H as [Hs HC].
  split; [now apply table_shape |].
  split; [now apply Nat.ltb_lt |].
  split; [now apply distinctb_spec |].
  intros E. rewrite E in Hne. discriminate.
Qed.

(** The value that [notebook()] returns for field [f] of channel [c] of a
    sweep whose merged record is [e]. *)
Lemma notebook_values :
  forall (fname : string) (file : hdf_file) (C : nat) (book : notebook_t)
         (nwb : MiesNwb.t) (k : Z) (e : record) (f c : nat),
    well_formed file C ->
    notebook (__init__ fname file) = (Ok book, nwb) ->
    merged_entry file k = Some e ->
    f < length (numericalKeys file) -> c < C ->
    lookup book k c (nth f (numericalKeys file) ""%string)
    = Some (none_if_nan (final_cell (numericalKeys file) e f c)).
Proof.
  intros fname file C book nwb k e f c (Hshape & HC & Hnodup & Hne)
         Hnotebook He Hf Hc.
  unfold merged_entry in He. unfold notebook in Hnotebook.
  cbn [__init__ _notebook hdf filename] in Hnotebook.
  destruct (scan (nb_fields_of (numericalKeys file)) (numericalValues file))
    as [st |] eqn:Hscan; [| discriminate].
  cbn [bind] in Hnotebook.
  destruct (mapM _ (sweep_entries st)) as [sweeps |] eqn:Hmap;
    cbn [bind] in Hnotebook; [| discriminate].
  injection Hnotebook as <- _.
  apply mapM_keyed in Hmap as [_ Hget].
  destruct (Hget k e He) as (dicts & Hfinish & Hbook).
  unfold lookup. rewrite Hbook.
  pose proof (sweep_entry_shape _ _ _ _ _ _ _ Hshape Hscan He) as Heshape.
  destruct (finish_entry_cells _ C e Heshape HC Hnodup Hne)
    as (dicts' & Hfinish' & _ & Hcells).
  rewrite Hfinish in Hfinish'. injection Hfinish' as <-.
  now apply Hcells.
Qed.

(** X1: global override. In the dicts that [notebook()] returns for a
    well-formed table, a field whose merged global column (channel 8) is not
    NaN has that global value in every channel. *)
Theorem notebook_global_value_overrides_channels :
  forall (fname : string) (file : hdf_file) (C : nat) (book : notebook_t)
         (nwb : MiesNwb.t) (k : Z) (e : record) (f c : nat) (g : float),
    well_formed file C ->
    notebook (__init__ fname file) = (Ok book, nwb) ->
    merged_entry file k = Some e ->
    f < length (numericalKeys file) -> c < C ->
    cell e f 8 = g ->
    isnan g = false ->
    lookup book k c (nth f (numericalKeys file) ""%string) = Some (Some g).
Proof.
  intros fname file C book nwb k e f c g Hwf Hnotebook He Hf Hc Hg Hnan.
  rewrite (notebook_values fname file C book nwb k e f c) by assumption.
  unfold final_cell, none_if_nan. rewrite Hg, Hnan.
  destruct (_ || _); now rewrite Hnan.
Qed.

Lemma notebook_global_value_overrides_channels_witness :
  lookup Examples.book 7 1 "TP Insert Checkbox"%string = Some (Some 1%float).
Proof.
  apply (notebook_global_value_overrides_channels
           "example.nwb" Examples.file 9 Examples.book Examples.nwb 7
           MoreExamples.merged7 19 1 1).
  - apply well_formedb_spec. vm_compute. reflexivity.
  - vm_compute. reflexivity.
  - vm_compute. reflexivity.
  - vm_compute. lia.
  - lia.
  - vm_compute. reflexivity.
  - reflexivity.
Defined.

(** X2: identity broadcast. The first four fields of a sweep have in every
    channel the value that channel 0 has. *)
Theorem notebook_first_four_fields_follow_channel_0 :
  forall (fname : string) (file : hdf_file) (C : nat) (book : notebook_t)
         (nwb : MiesNwb.t) (k : Z) (e : record) (f c : nat),
    well_formed file C ->
    notebook (__init__ fname file) = (Ok book, nwb) ->
    merged_entry file k = Some e ->
    f < length (numericalKeys file) -> c < C ->
    f < 4 ->
    lookup book k c (nth f (numericalKeys file) ""%string)
    = lookup book k 0 (nth f (numericalKeys file) ""%string).
Proof.
  intros fname file C book nwb k e f c Hwf Hnotebook He Hf Hc Hf4.
  assert (H0 : 0 < C) by (destruct Hwf as (_ & HC & _); lia).
  rewrite (notebook_values fname file C book nwb k e f c) by assumption.
  rewrite (notebook_values fname file C book nwb k e f 0) by assumption.
  unfold final_cell. apply Nat.ltb_lt in Hf4. now rewrite Hf4.
Qed.

Lemma notebook_first_four_fields_follow_channel_0_witness :
  lookup Examples.book 7 5 "TimeStamp"%string
  = lookup Examples.book 7 0 "TimeStamp"%string.
Proof.
  apply (notebook_first_four_fields_follow_channel_0
           "example.nwb" Examples.file 9 Examples.book Examples.nwb 7
           MoreExamples.merged7 1 5).
  - apply well_formedb_spec. vm_compute. reflexivity.
  - vm_compute. reflexivity.
  - vm_compute. reflexivity.
  - vm_compute. lia.
  - lia.
  - lia.
Defined.

(** X3: a field whose key starts with [Async AD ] has in every channel the
    value that channel 0 has. *)
Theorem notebook_async_fields_follow_channel_0 :
  forall (fname : string) (file : hdf_file) (C : nat) (book : notebook_t)
         (nwb : MiesNwb.t) (k : Z) (e : record) (f c : nat),
    well_formed file C ->
    notebook (__init__ fname file) = (Ok book, nwb) ->
    merged_entry file k = Some e ->
    f < length (numericalKeys file) -> c < C ->
    String.prefix "Async AD "%string (nth f (numericalKeys file) ""%string) = true ->
    lookup book k c (nth f (numericalKeys file) ""%string)
    = lookup book k 0 (nth f (numericalKeys file) ""%string).
Proof.
  intros fname file C book nwb k e f c Hwf Hnotebook He Hf Hc Hasync.
  assert (H0 : 0 < C) by (destruct Hwf as (_ & HC & _); lia).
  rewrite (notebook_values fname file C book nwb k e f c) by assumption.
  rewrite (notebook_values fname file C book nwb k e f 0) by assumption.
  unfold final_cell. rewrite Hasync. now rewrite orb_true_r.
Qed.

Lemma notebook_async_fields_follow_channel_0_witness :
  lookup MoreExamples.bath_book 7 5 "Async AD 2: Bath Temperature"%string
  = lookup MoreExamples.bath_book 7 0 "Async AD 2: Bath Temperature"%string.
Proof.
  apply (notebook_async_fields_follow_channel_0
           "bath.nwb" MoreExamples.bath_file 9 MoreExamples.bath_book
           (snd (notebook (__init__ "bath.nwb" MoreExamples.bath_file))) 7
           MoreExamples.bath_row 23 5).
  - apply well_formedb_spec. vm_compute. reflexivity.
  - vm_compute. reflexivity.
  - vm_compute. reflexivity.
  - vm_compute. lia.
  - lia.
  - reflexivity.
Defined.

(** X4: every other field keeps each channel's own merged value when its
    global column is NaN, a NaN being returned as [None]. *)
Theorem notebook_channel_fields_keep_their_value :
  forall (fname : string) (file : hdf_file) (C : nat) (book : notebook_t)
         (nwb : MiesNwb.t) (k : Z) (e : record) (f c : nat),
    well_formed file C ->
    notebook (__init__ fname file) = (Ok book, nwb) ->
    merged_entry file k = Some e ->
    f < length (numericalKeys file) -> c < C ->
    4 <= f ->
    String.prefix "Async AD "%string (nth f (numericalKeys file) ""%string) = false ->
    isnan (cell e f 8) = true ->
    lookup book k c (nth f (numericalKeys file) ""%string)
    = Some (if isnan (cell e f c) then None else Some (cell e f c)).
Proof.
  intros fname file C book nwb k e f c Hwf Hnotebook He Hf Hc Hf4 Hasync Hnan.
  rewrite (notebook_values fname file C book nwb k e f c) by assumption.
  unfold final_cell. rewrite Hasync, Hnan.
  apply Nat.ltb_ge in Hf4. now rewrite Hf4.
Qed.

Lemma notebook_channel_fields_keep_their_value_witness :
  lookup Examples.book 7 1 "Pipette Offset"%string = Some (Some 2.5%float)
  /\ lookup Examples.book 7 2 "Pipette Offset"%string = Some None.
Proof.
  split.
  - apply (notebook_channel_fields_keep_their_value
             "example.nwb" Examples.file 9 Examples.book Examples.nwb 7
             MoreExamples.merged7 18 1);
      try (vm_compute; reflexivity); try (vm_compute; lia).
    apply well_formedb_spec. vm_compute. reflexivity.
  - apply (notebook_channel_fields_keep_their_value
             "example.nwb" Examples.file 9 Examples.book Examples.nwb 7
             MoreExamples.merged7 18 2);
      try (vm_compute; reflexivity); try (vm_compute; lia).
    apply well_formedb_spec. vm_compute. reflexivity.
Defined.

(** X5: on a well-formed table the post-processing of lines 99-120 cannot
    fail: [notebook()] succeeds whenever the row scan does, and it returns
    the scanned sweeps in the order of their first record, each sweep id
    once, each with one dict per channel. *)
Theorem notebook_returns_each_scanned_sweep_once :
  forall (fname : string) (file : hdf_file) (C : nat) (st : scan_state),
    well_formed file C ->
    scan (nb_fields_of (numericalKeys file)) (numericalValues file) = Ok st ->
    exists book nwb,
      notebook (__init__ fname file) = (Ok book, nwb)
      /\ map fst book = map fst (sweep_entries st)
      /\ NoDup (map fst book)
      /\ forall k chans, od_get Z.eqb book k = Some chans -> length chans = C.
Proof.
  intros fname file C st (Hshape & HC & Hnodup & Hne) Hscan.
  unfold notebook. cbn [__init__ _notebook hdf filename].
  rewrite Hscan. cbn [bind].
  destruct (mapM_ok _ _
              (fun se : Z * record =>
                 meta <- finish_entry (numericalKeys file) (snd se) ;;
                 Ok (fst se, meta))
              (sweep_entries st)) as [book Hbook].
  { apply Forall_forall. intros [k e] Hin. cbn [fst snd].
    assert (He : has_shape (length (numericalKeys file)) C e).
    { apply (sweep_entry_shape _ _ _ _ st k e Hshape Hscan).
      apply od_get_of_in; [exact (scan_distinct_sweeps _ _ _ Hscan) | exact Hin]. }
    destruct (finish_entry_cells _ C e He HC Hnodup Hne) as (dicts & -> & _).
    cbn [bind]. eauto. }
  rewrite Hbook. cbn [bind].
  eexists. eexists. split; [reflexivity |].
  pose proof (mapM_keyed _ _ _ _ _ Hbook) as [Hkeys Hget].
  split; [exact Hkeys | split].
  - rewrite Hkeys.
    exact (scan_distinct_sweeps _ _ _ Hscan).
  - intros k chans Hk.
    destruct (od_get Z.eqb (sweep_entries st) k) as [e |] eqn:He.
    + destruct (Hget k e He) as (dicts & Hfinish & Hbk).
      rewrite Hk in Hbk. injection Hbk as ->.
      pose proof (sweep_entry_shape _ _ _ _ _ _ _ Hshape Hscan He) as Hes.
      destruct (finish_entry_cells _ C e Hes HC Hnodup Hne)
        as (dicts' & Hfinish' & Hlen & _).
      rewrite Hfinish in Hfinish'. now injection Hfinish' as ->.
    + exfalso. apply od_get_in in Hk.
      assert (Hin : In k (map fst book))
        by (apply in_map_iff; now exists (k, chans)).
      rewrite Hkeys in Hin. apply in_map_iff in Hin as ([k' e'] & Hk' & Hin).
      cbn [fst] in Hk'. subst k'.
      rewrite (od_get_of_in _ _ _ _ (scan_distinct_sweeps _ _ _ Hscan) Hin) in He.
      discriminate.
Qed.

Lemma notebook_returns_each_scanned_sweep_once_witness :
  exists book nwb,
    notebook (__init__ "example.nwb" Examples.file) = (Ok book, nwb)
    /\ map fst book = [7%Z; 8%Z]
    /\ NoDup (map fst book)
    /\ forall k chans, od_get Z.eqb book k = Some chans -> length chans = 9.
Proof.
  apply (notebook_returns_each_scanned_sweep_once
           "example.nwb" Examples.file 9
           (Examples.the scan_init
              (scan (nb_fields_of Examples.keys) Examples.table))).
  - apply well_formedb_spec. vm_compute. reflexivity.
  - vm_compute. reflexivity.
Defined.

(** X6: a table with fewer than nine channels has no global column:
    [notebook()] raises [IndexError] as soon as the scan has recorded a
    sweep, and stores nothing. *)
Theorem notebook_needs_the_global_column :
  forall (fname : string) (file : hdf_file) (F C : nat) (st : scan_state),
    Forall (has_shape F C) (numericalValues file) ->
    C <= 8 ->
    scan (nb_fields_of (numericalKeys file)) (numericalValues file) = Ok st ->
    sweep_entries st <> [] ->
    notebook (__init__ fname file) = (Raise IndexError, __init__ fname file).
Proof.
  intros fname file F C st Hshape HC Hscan Hsweeps.
  unfold notebook. cbn [__init__ _notebook hdf filename].
  rewrite Hscan. cbn [bind].
  destruct (sweep_entries st) as [| [k e] d] eqn:Hd; [contradiction |].
  assert (He : od_get Z.eqb (sweep_entries st) k = Some e)
    by (rewrite Hd; cbn [od_get]; now rewrite Z.eqb_refl).
  pose proof (sweep_entry_shape _ _ _ _ _ _ _ Hshape Hscan He) as [Hlen Hrows].
  pose proof (for_rows_sweep_entry _ _ _ _ _ _ k Hscan) as Hentry.
  cbn [scan_init sweep_entries od_get] in Hentry.
  rewrite fold_merge_row, He in Hentry.
  assert (Hrow0 : e <> []).
  { destruct (sweep_rows_from (nb_fields_of (numericalKeys file))
                              (numericalValues file)
                              (length (numericalValues file)) 0 k)
      as [| r0 rows] eqn:Hr; [discriminate |].
    assert (Hin : In r0 (sweep_rows_from (nb_fields_of (numericalKeys file))
                                         (numericalValues file)
                                         (length (numericalValues file)) 0 k))
      by (rewrite Hr; now left).
    unfold sweep_rows_from in Hin.
    apply in_flat_map in Hin as ([i [tp sw]] & _ & Hin).
    unfold sweep_row_of in Hin.
    destruct (negb tp && sw); [| contradiction].
    destruct (nth_error (numericalValues file) i) as [rec |] eqn:Hnth;
      [| contradiction].
    destruct (sweep_number rec) as [k' |] eqn:Hnum; [| contradiction].
    destruct (k' =? k)%Z; [| contradiction].
    destruct Hin as [<- | []].
    assert (HF : F <> 0).
    { unfold sweep_number, item, getitem in Hnum.
      destruct rec as [| row rec]; [discriminate |].
      rewrite Forall_forall in Hshape.
      apply nth_error_In in Hnth. destruct (Hshape _ Hnth) as [Hl _].
      cbn in Hl. lia. }
    intros ->. cbn in Hlen. lia. }
  destruct e as [| row e]; [contradiction |].
  inversion Hrows as [| ? ? Hrow _]; subst.
  cbn [mapM fst snd]. unfold finish_entry, apply_global. cbn [mapM].
  unfold getitem at 1.
  assert (Hnone : nth_error row 8 = None) by (apply nth_error_None; lia).
  rewrite Hnone. reflexivity.
Qed.

Lemma notebook_needs_the_global_column_witness :
  notebook (__init__ "narrow.nwb" MoreExamples.narrow_file)
  = (Raise IndexError, __init__ "narrow.nwb" MoreExamples.narrow_file).
Proof.
  apply (notebook_needs_the_global_column
           "narrow.nwb" MoreExamples.narrow_file 24 8
           (Examples.the scan_init
              (scan (nb_fields_of Examples.keys)
                    (numericalValues MoreExamples.narrow_file)))).
  - apply table_shape. vm_compute. reflexivity.
  - lia.
  - vm_compute. reflexivity.
  - vm_compute. discriminate.
Defined.

End NotebookPropagation.

(** ** More on the row scan *)

Section ScanBlocks.

Import MiesNwb ScanRows.

Variable nb_fields : list (string * nat).
Variable nb : list record.

Lemma getitem_nth_record :
  forall (i : nat) (rec : record),
    getitem nb i = Ok rec -> nth i nb [] = rec /\ i < length nb.
Proof.
  intros i rec H. unfold getitem in H.
  destruct (nth_error nb i) as [r |] eqn:E; [| discriminate].
  injection H as ->. split.
  - now apply nth_error_nth.
  - apply nth_error_Some. congruence.
Qed.

(** The blocks collected by the loop are those of the rows it classifies as
    test-pulse records, in scan order. *)
Lemma for_rows_tp_blocks :
  forall fuel it st st',
    for_rows nb_fields nb fuel it st = Ok st' ->
    tp_entries st'
    = tp_entries st ++ flat_map (tp_block_of nb) (trace nb_fields nb fuel it).
Proof.
  induction fuel as [| fuel IH]; intros it st st' H;
    cbn [for_rows trace] in H |- *.
  - destruct (iter_next (length nb) it) as [[i it1] |]; [discriminate |].
    injection H as <-. now rewrite app_nil_r.
  - destruct (iter_next (length nb) it) as [[i it1] |];
      [| injection H as <-; now rewrite app_nil_r].
    apply bind_ok in H as ([it2 st1] & Hbody & H).
    unfold body in Hbody.
    apply bind_ok in Hbody as ([[tp sw] it1'] & Hc & Hrec).
    rewrite Hc. cbn [flat_map].
    unfold record_row in Hrec.
    apply bind_ok in Hrec as (rec & Hget & Hrec).
    apply getitem_nth_record in Hget as [Hrec_i _].
    destruct tp.
    + apply bind_ok in Hrec as ([x it3] & Hnext & Hrec).
      apply bind_ok in Hrec as (rec2 & Hget2 & Hrec).
      injection Hrec as <- <-. rewrite Hnext.
      rewrite (IH _ _ _ H). cbn [tp_entries tp_block_of].
      apply getitem_nth_record in Hget2 as [Hrec2 _].
      rewrite Nat.add_1_r in Hrec2. rewrite Hrec_i, Hrec2.
      now rewrite <- app_assoc.
    + cbn [tp_block_of app].
      destruct sw.
      * apply bind_ok in Hrec as (k & _ & Hrec).
        injection Hrec as <- <-. now rewrite (IH _ _ _ H).
      * injection Hrec as <- <-. now rewrite (IH _ _ _ H).
Qed.

Lemma for_rows_trace :
  forall fuel it st st',
    for_rows nb_fields nb fuel it st = Ok st' ->
    Forall (visited_ok nb_fields nb) (trace nb_fields nb fuel it).
Proof.
  induction fuel as [| fuel IH]; intros it st st' H;
    cbn [for_rows trace] in H |- *.
  - destruct (iter_next (length nb) it) as [[i it1] |]; constructor.
  - destruct (iter_next (length nb) it) as [[i it1] |] eqn:Hnext;
      [| constructor].
    apply iter_next_ok in Hnext as (-> & -> & _).
    apply bind_ok in H as ([it2 st1] & Hbody & H).
    unfold body in Hbody.
    apply bind_ok in Hbody as ([[tp sw] it1'] & Hc & Hrec).
    rewrite Hc.
    apply record_row_iter in Hrec.
    constructor.
    + exists it1'. split; [exact Hc |].
      intros ->. destruct Hrec as [(_ & _ & Hlt & _) | (Hf & _)];
        [exact Hlt | discriminate].
    + destruct Hrec as [(-> & -> & Hlt & _) | (-> & -> & _)].
      * rewrite (iter_next_lt _ _ Hlt). exact (IH _ _ _ H).
      * exact (IH _ _ _ H).
Qed.

End ScanBlocks.

Section ScanBlocksProperty.

Import MiesNwb ScanRows.

(** X7: every stand-alone test-pulse block is built from exactly two
    consecutive rows of the table, row [i] with the non-NaN cells of row
    [i+1] laid over it, and the blocks are stored in scan order, one for each
    row that the loop classifies as a test-pulse record. *)
Theorem tp_blocks_merge_two_consecutive_rows :
  forall (nb_fields : list (string * nat)) (nb : list record) (st : scan_state),
    scan nb_fields nb = Ok st ->
    tp_entries st
    = flat_map (tp_block_of nb) (trace nb_fields nb (length nb) 0)
    /\ forall block,
        In block (tp_entries st) ->
        exists i,
          S i < length nb
          /\ block = overlay (nth i nb []) (nth (S i) nb []).
Proof.
  intros nb_fields nb st Hscan.
  pose proof (for_rows_tp_blocks nb_fields nb _ _ _ _ Hscan) as Hblocks.
  cbn [scan_init tp_entries app] in Hblocks.
  split; [exact Hblocks |].
  intros block Hin. rewrite Hblocks in Hin.
  apply in_flat_map in Hin as ([i [tp sw]] & Hev & Hin).
  pose proof (for_rows_trace nb_fields nb _ _ _ _ Hscan) as Htrace.
  rewrite Forall_forall in Htrace. specialize (Htrace _ Hev).
  destruct Htrace as (it' & Hc & Hlt).
  cbn [tp_block_of] in Hin. destruct tp; [| contradiction].
  destruct Hin as [<- | []]. exists i. split; [| reflexivity].
  specialize (Hlt eq_refl).
  apply classify_iter in Hc as [-> | (_ & _ & -> & _)]; lia.
Qed.

Lemma tp_blocks_merge_two_consecutive_rows_witness :
  let st := Examples.the scan_init
              (scan (nb_fields_of Examples.keys) Examples.table) in
  tp_entries st
  = flat_map (tp_block_of Examples.table)
             (trace (nb_fields_of Examples.keys) Examples.table 7 0)
  /\ forall block,
      In block (tp_entries st) ->
      exists i,
        S i < 7
        /\ block = overlay (nth i Examples.table []) (nth (S i) Examples.table []).
Proof.
  apply (tp_blocks_merge_two_consecutive_rows
           (nb_fields_of Examples.keys) Examples.table).
  vm_compute. reflexivity.
Defined.

End ScanBlocksProperty.

Section SweepOnlyTables.

Import MiesNwb ScanRows.

Variable nb_fields : list (string * nat).
Variable nb : list record.
Variable idx : nat.

Hypothesis Hidx : entry_source_type_index nb_fields = Some idx.
Hypothesis Hrows : forallb (sweep_marked idx) nb = true.

Lemma sweep_marked_row :
  forall i rec,
    nth_error nb i = Some rec ->
    exists d k,
      item rec idx 0 = Ok d /\ isnan d = false /\ (d =? 0)%float = true
      /\ sweep_number rec = Ok k.
Proof.
  intros i rec Hnth. rewrite forallb_forall in Hrows.
  specialize (Hrows rec (nth_error_In _ _ Hnth)).
  unfold sweep_marked in Hrows.
  destruct (item rec idx 0) as [d |]; [| discriminate].
  apply andb_prop in Hrows as [H Hok]. apply andb_prop in H as [Hnan Hzero].
  destruct (sweep_number rec) as [k |]; [| discriminate].
  exists d, k. repeat split; auto. now apply negb_true_iff.
Qed.

Lemma classify_sweep_marked :
  forall i it rec,
    nth_error nb i = Some rec ->
    classify nb_fields nb i it = Ok (false, true, it).
Proof.
  intros i it rec Hnth.
  destruct (sweep_marked_row i rec Hnth) as (d & k & Hd & Hnan & Hzero & Hk).
  unfold classify, getitem. rewrite Hnth. cbn [bind].
  unfold sweep_number in Hk.
  destruct (item rec 0 0) as [s |]; [| discriminate]. cbn [bind].
  rewrite Hidx, Hd. cbn [bind]. now rewrite Hnan, Hzero.
Qed.

Lemma trace_sweep_marked :
  forall fuel it,
    length nb - it <= fuel ->
    trace nb_fields nb fuel it
    = map (fun i => (i, (false, true))) (seq it (length nb - it)).
Proof.
  induction fuel as [| fuel IH]; intros it Hfuel; cbn [trace].
  - replace (length nb - it) with 0 by lia.
    unfold iter_next. destruct (it <? length nb) eqn:E; [| reflexivity].
    apply Nat.ltb_lt in E. lia.
  - unfold iter_next. destruct (it <? length nb) eqn:E.
    + apply Nat.ltb_lt in E.
      destruct (nth_error nb it) as [rec |] eqn:Hnth;
        [| apply nth_error_None in Hnth; lia].
      rewrite (classify_sweep_marked it (S it) rec Hnth).
      replace (length nb - it) with (S (length nb - S it)) by lia.
      cbn [seq map]. f_equal. apply IH. lia.
    + apply Nat.ltb_ge in E. now replace (length nb - it) with 0 by lia.
Qed.

Lemma for_rows_sweep_marked :
  forall fuel it st,
    length nb - it <= fuel ->
    exists st',
      for_rows nb_fields nb fuel it st = Ok st'
      /\ tp_entries st' = tp_entries st.
Proof.
  induction fuel as [| fuel IH]; intros it st Hfuel; cbn [for_rows].
  - unfold iter_next. destruct (it <? length nb) eqn:E; [| eauto].
    apply Nat.ltb_lt in E. lia.
  - unfold iter_next. destruct (it <? length nb) eqn:E; [| eauto].
    apply Nat.ltb_lt in E.
    destruct (nth_error nb it) as [rec |] eqn:Hnth;
      [| apply nth_error_None in Hnth; lia].
    unfold body. rewrite (classify_sweep_marked it (S it) rec Hnth).
    cbn [bind]. unfold record_row, getitem. rewrite Hnth. cbn [bind].
    destruct (sweep_marked_row it rec Hnth) as (d & k & _ & _ & _ & ->).
    cbn [bind].
    match goal with
    | |- exists st', for_rows _ _ _ _ ?s = _ /\ _ =>
        destruct (IH (S it) s ltac:(lia)) as (st' & Hrun & Htp)
    end.
    exists st'. split; [exact Hrun | exact Htp].
Qed.

Lemma flat_map_rows_from :
  forall (k : Z) (pre rest : list record),
    nb = pre ++ rest ->
    flat_map (sweep_row_of nb k)
             (map (fun i => (i, (false, true))) (seq (length pre) (length rest)))
    = filter (in_sweep k) rest.
Proof.
  intros k pre rest. revert pre.
  induction rest as [| rec rest IH]; intros pre Hnb; [reflexivity |].
  cbn [length seq map flat_map filter].
  assert (Hnth : nth_error nb (length pre) = Some rec).
  { rewrite Hnb, nth_error_app2 by lia. now rewrite Nat.sub_diag. }
  unfold sweep_row_of at 1. cbn [negb andb]. rewrite Hnth.
  specialize (IH (pre ++ [rec])).
  rewrite length_app in IH. cbn [length] in IH.
  rewrite Nat.add_1_r in IH.
  rewrite IH by (rewrite Hnb, <- app_assoc; reflexivity).
  unfold in_sweep at 2.
  destruct (sweep_number rec) as [k' |]; [| reflexivity].
  destruct (k' =? k)%Z; reflexivity.
Qed.

(** X8: in a table whose rows all carry the discriminant 0 and a sweep
    number that converts to an integer, the loop visits and records every
    row: the scan succeeds, stores no test-pulse block, and the rows of
    sweep [k] are all the rows with that truncated sweep number, in table
    order. *)
Theorem table_of_sweep_records_is_fully_recorded :
  trace nb_fields nb (length nb) 0
  = map (fun i => (i, (false, true))) (seq 0 (length nb))
  /\ (exists st, scan nb_fields nb = Ok st /\ tp_entries st = [])
  /\ forall k, sweep_rows nb_fields nb k = filter (in_sweep k) nb.
Proof.
  assert (Htrace : trace nb_fields nb (length nb) 0
                   = map (fun i => (i, (false, true))) (seq 0 (length nb))).
  { rewrite trace_sweep_marked by lia. now rewrite Nat.sub_0_r. }
  split; [exact Htrace | split].
  - destruct (for_rows_sweep_marked (length nb) 0 scan_init ltac:(lia))
      as (st & Hrun & Htp).
    exists st. split; [exact Hrun | exact Htp].
  - intros k. unfold sweep_rows, sweep_rows_from. rewrite Htrace.
    exact (flat_map_rows_from k [] nb eq_refl).
Qed.

End SweepOnlyTables.

Section SweepOnlyTablesExample.

Import MiesNwb ScanRows.

Lemma table_of_sweep_records_is_fully_recorded_witness :
  let nb_fields := nb_fields_of Examples.keys in
  let nb := MoreExamples.sweeps_table in
  trace nb_fields nb (length nb) 0
  = map (fun i => (i, (false, true))) (seq 0 (length nb))
  /\ (exists st, scan nb_fields nb = Ok st /\ tp_entries st = [])
  /\ forall k, sweep_rows nb_fields nb k = filter (in_sweep k) nb.
Proof.
  apply (table_of_sweep_records_is_fully_recorded
           (nb_fields_of Examples.keys) MoreExamples.sweeps_table 3).
  - vm_compute. reflexivity.
  - vm_compute. reflexivity.
Defined.

End SweepOnlyTablesExample.

Section TraceFacts.

Import MiesNwb ScanRows.

Variable nb_fields : list (string * nat).
Variable nb : list record.

(** Every row of the trace was classified as the trace says. *)
Lemma trace_classify :
  forall fuel it i tp sw,
    In (i, (tp, sw)) (trace nb_fields nb fuel it) ->
    exists it', classify nb_fields nb i (S i) = Ok (tp, sw, it').
Proof.
  induction fuel as [| fuel IH]; intros it i tp sw H; cbn [trace] in H.
  - destruct (iter_next (length nb) it) as [[x it1] |]; contradiction.
  - destruct (iter_next (length nb) it) as [[x it1] |] eqn:Hnext;
      [| contradiction].
    apply iter_next_ok in Hnext as (-> & -> & _).
    destruct (classify nb_fields nb it (S it)) as [[[tp0 sw0] it2] |] eqn:Hc;
      [| contradiction].
    destruct H as [H | H].
    + injection H as <- <- <-. eauto.
    + destruct tp0; [| eauto].
      destruct (iter_next (length nb) it2) as [[x it3] |]; [eauto | contradiction].
Qed.

(** The rows of the trace from position [it] on have an index of at least
    [it]. *)
Lemma trace_from :
  forall fuel it ev,
    In ev (trace nb_fields nb fuel it) -> it <= fst ev.
Proof.
  induction fuel as [| fuel IH]; intros it ev H; cbn [trace] in H.
  - destruct (iter_next (length nb) it) as [[x it1] |]; contradiction.
  - destruct (iter_next (length nb) it) as [[x it1] |] eqn:Hnext;
      [| contradiction].
    apply iter_next_ok in Hnext as (-> & -> & _).
    destruct (classify nb_fields nb it (S it)) as [[[tp0 sw0] it2] |] eqn:Hc;
      [| contradiction].
    destruct H as [<- | H]; [cbn; lia |].
    apply classify_iter in Hc.
    destruct tp0.
    + destruct (iter_next (length nb) it2) as [[x it3] |] eqn:Hnext;
        [| contradiction].
      apply iter_next_ok in Hnext as (_ & -> & _).
      apply IH in H. destruct Hc as [-> | (_ & _ & -> & _)]; lia.
    + apply IH in H. destruct Hc as [-> | (_ & _ & -> & _)]; lia.
Qed.

(** Without the discriminant, a row found to start a test-pulse pair has
    already advanced the iterator once, and no row is classified in the last
    position of the table. *)
Lemma classify_without_discriminant :
  forall i it tp sw it',
    entry_source_type_index nb_fields = None ->
    classify nb_fields nb i it = Ok (tp, sw, it') ->
    (tp = true -> it' = S it)
    /\ (tp = true \/ sw = true -> S i < length nb).
Proof.
  intros i it tp sw it' Hidx H. unfold classify in H.
  apply bind_ok in H as (rec & _ & H).
  apply bind_ok in H as (sweep_num & _ & H).
  rewrite Hidx in H. split.
  - intros ->.
    apply classify_legacy_iter in H as [[Hf _] | (_ & _ & -> & _)];
      [discriminate | reflexivity].
  - intros Hrec. unfold classify_legacy in H.
    destruct (i <? length nb - 1) eqn:E.
    + apply Nat.ltb_lt in E. lia.
    + injection H as <- <- <-. destruct Hrec; discriminate.
Qed.

(** A test-pulse record at row [i] keeps the loop from visiting row [i+1],
    and in a file without the discriminant row [i+2] as well. *)
Lemma trace_after_tp_record :
  forall fuel it i sw j tp' sw',
    In (i, (true, sw)) (trace nb_fields nb fuel it) ->
    In (j, (tp', sw')) (trace nb_fields nb fuel it) ->
    j <> S i
    /\ (entry_source_type_index nb_fields = None -> j <> S (S i)).
Proof.
  induction fuel as [| fuel IH]; intros it i sw j tp' sw' Hi Hj;
    cbn [trace] in Hi, Hj.
  - destruct (iter_next (length nb) it) as [[x it1] |]; contradiction.
  - destruct (iter_next (length nb) it) as [[x it1] |] eqn:Hnext;
      [| contradiction].
    apply iter_next_ok in Hnext as (-> & -> & _).
    destruct (classify nb_fields nb it (S it)) as [[[tp0 sw0] it2] |] eqn:Hc;
      [| contradiction].
    pose proof (classify_iter _ _ _ _ _ _ _ Hc) as Hit2.
    destruct tp0.
    + destruct (iter_next (length nb) it2) as [[x it3] |] eqn:Hnext.
      * apply iter_next_ok in Hnext as (_ & -> & _).
        destruct Hi as [Hi | Hi]; destruct Hj as [Hj | Hj].
        -- injection Hi as <- <-. injection Hj as <- _ _.
           split; [lia | intros _; lia].
        -- injection Hi as <- <-. apply trace_from in Hj. cbn [fst] in Hj.
           split; [destruct Hit2 as [-> | (_ & _ & -> & _)]; lia |].
           intros Hidx.
           destruct (classify_without_discriminant _ _ _ _ _ Hidx Hc)
             as [Hnext _].
           rewrite (Hnext eq_refl) in Hj. lia.
        -- injection Hj as <- _ _. apply trace_from in Hi. cbn [fst] in Hi.
           assert (it < i) by (destruct Hit2 as [-> | (_ & _ & -> & _)]; lia).
           split; [lia | intros _; lia].
        -- exact (IH _ _ _ _ _ _ Hi Hj).
      * destruct Hi as [Hi | []]; destruct Hj as [Hj | []].
        injection Hi as <- <-. injection Hj as <- _ _.
        split; [lia | intros _; lia].
    + destruct Hi as [Hi | Hi]; [discriminate |].
      destruct Hj as [Hj | Hj].
      * injection Hj as <- _ _. apply trace_from in Hi. cbn [fst] in Hi.
        assert (it < i) by (destruct Hit2 as [-> | (_ & _ & -> & _)]; lia).
        split; [lia | intros _; lia].
      * exact (IH _ _ _ _ _ _ Hi Hj).
Qed.

Lemma flat_map_nil :
  forall (A B : Type) (f : A -> list B) (l : list A),
    (forall a, In a l -> f a = []) -> flat_map f l = [].
Proof.
  intros A B f l H. induction l as [| a l IH]; [reflexivity |].
  cbn [flat_map]. rewrite (H a (or_introl eq_refl)). cbn [app].
  apply IH. intros b Hb. apply H. now right.
Qed.

End TraceFacts.

Section HiddenRows.

Import MiesNwb ScanRows.

(** X9: a row that the loop classifies as a test-pulse record hides the row
    after it: row [i+1] is read as the second half of the record and is
    never visited itself. In a file without [EntrySourceType] the record
    advances the row iterator twice, so that row [i+2] is never visited
    either, whatever it holds. *)
Theorem test_pulse_record_hides_following_rows :
  forall (nb_fields : list (string * nat)) (nb : list record)
         (i : nat) (sw : bool),
    In (i, (true, sw)) (trace nb_fields nb (length nb) 0) ->
    forall j tp' sw',
      In (j, (tp', sw')) (trace nb_fields nb (length nb) 0) ->
      j <> S i
      /\ (entry_source_type_index nb_fields = None -> j <> S (S i)).
Proof.
  intros nb_fields nb i sw Hi j tp' sw' Hj.
  exact (trace_after_tp_record nb_fields nb _ _ _ _ _ _ _ Hi Hj).
Qed.

Lemma test_pulse_record_hides_following_rows_witness :
  let nb_fields := nb_fields_of Examples.legacy_keys in
  let nb := Examples.legacy_table in
  In (0, (true, false)) (trace nb_fields nb (length nb) 0)
  /\ forall j tp' sw',
      In (j, (tp', sw')) (trace nb_fields nb (length nb) 0) ->
      j <> 1 /\ (entry_source_type_index nb_fields = None -> j <> 2).
Proof.
  assert (H : In (0, (true, false))
                 (trace (nb_fields_of Examples.legacy_keys)
                        Examples.legacy_table
                        (length Examples.legacy_table) 0))
    by (vm_compute; left; reflexivity).
  split; [exact H |].
  exact (test_pulse_record_hides_following_rows
           (nb_fields_of Examples.legacy_keys) Examples.legacy_table 0 false H).
Defined.

(** X10: in a file without [EntrySourceType] the last row of the table is
    never recorded: a sweep whose only record is the last row is missing
    from the entries of a successful scan. *)
Theorem legacy_scan_ignores_the_last_row :
  forall (nb_fields : list (string * nat)) (front : list record)
         (last : record) (st : scan_state) (k : Z),
    entry_source_type_index nb_fields = None ->
    scan nb_fields (front ++ [last]) = Ok st ->
    sweep_number last = Ok k ->
    forallb (fun rec => negb (in_sweep k rec)) front = true ->
    od_get Z.eqb (sweep_entries st) k = None.
Proof.
  intros nb_fields front last st k Hidx Hscan Hlast Hfront.
  rewrite (for_rows_sweep_entry nb_fields _ _ _ _ _ k Hscan).
  cbn [scan_init sweep_entries od_get].
  replace (sweep_rows_from nb_fields (front ++ [last])
                           (length (front ++ [last])) 0 k)
    with (@nil record); [reflexivity |].
  symmetry. unfold sweep_rows_from. apply flat_map_nil.
  intros [i [tp sw]] Hev.
  apply trace_classify in Hev as (it' & Hc).
  destruct (classify_without_discriminant _ _ _ _ _ _ _ Hidx Hc) as [_ Hrow].
  unfold sweep_row_of.
  destruct (negb tp && sw) eqn:E; [| reflexivity].
  apply andb_prop in E as [_ ->].
  specialize (Hrow (or_intror eq_refl)).
  rewrite length_app in Hrow. cbn [length] in Hrow.
  rewrite nth_error_app1 by lia.
  destruct (nth_error front i) as [rec |] eqn:Hnth; [| reflexivity].
  rewrite forallb_forall in Hfront.
  specialize (Hfront rec (nth_error_In _ _ Hnth)).
  unfold in_sweep in Hfront.
  destruct (sweep_number rec) as [k' |]; [| reflexivity].
  apply negb_true_iff in Hfront. now rewrite Hfront.
Qed.

Lemma legacy_scan_ignores_the_last_row_witness :
  od_get Z.eqb
         (sweep_entries
            (Examples.the scan_init
               (scan (nb_fields_of Examples.legacy_keys) Examples.legacy_table)))
         8%Z
  = None.
Proof.
  apply (legacy_scan_ignores_the_last_row
           (nb_fields_of Examples.legacy_keys)
           (firstn 3 Examples.legacy_table)
           (Examples.sweep8 Examples.legacy_keys)).
  - reflexivity.
  - vm_compute. reflexivity.
  - vm_compute. reflexivity.
  - vm_compute. reflexivity.
Defined.

End HiddenRows.

(** ** How the scan fails *)

Section ScanFailures.

Import MiesNwb ScanRows.

Lemma key_absent :
  forall (k : string) (ks : list string),
    existsb (String.eqb k) ks = false -> ~ In k ks.
Proof.
  intros k ks H Hin.
  assert (E : existsb (String.eqb k) ks = true).
  { apply existsb_exists. exists k. split; [exact Hin | apply String.eqb_refl]. }
  congruence.
Qed.

Lemma nb_fields_of_absent :
  forall (nb_keys : list string) (k : string),
    ~ In k nb_keys -> od_get String.eqb (nb_fields_of nb_keys) k = None.
Proof.
  intros nb_keys k Hnot. unfold nb_fields_of, od_of_list.
  rewrite od_fold_get_other; [reflexivity |].
  rewrite map_map. cbn [fst].
  unfold enumerate. now rewrite map_snd_combine_seq.
Qed.

(** X11: an older file needs the test-pulse keys. When the schema has
    neither [EntrySourceType] nor [TP Peak Resistance] and the table has at
    least two rows, the first row already fails the look-up of the heuristic:
    [notebook()] raises [KeyError] and stores nothing, whether or not the
    file holds any test pulse. *)
Theorem legacy_scan_needs_tp_peak_resistance :
  forall (self : MiesNwb.t) (rec : record) (s : float),
    let nb_keys := numericalKeys (hdf self) in
    let nb := numericalValues (hdf self) in
    _notebook self = None ->
    ~ In "EntrySourceType"%string nb_keys ->
    ~ In "TP Peak Resistance"%string nb_keys ->
    2 <= length nb ->
    nth_error nb 0 = Some rec ->
    item rec 0 0 = Ok s ->
    scan (nb_fields_of nb_keys) nb = Raise KeyError
    /\ notebook self = (Raise KeyError, self).
Proof.
  intros self rec s nb_keys nb Hmemo Hsrc Hpeak Hlen Hrec Hs.
  assert (Hscan : scan (nb_fields_of nb_keys) nb = Raise KeyError).
  { unfold scan. destruct (length nb) as [| m] eqn:Hn; [lia |].
    cbn [for_rows]. rewrite Hn.
    rewrite (iter_next_lt (S m) 0) by lia.
    unfold body, classify, getitem. rewrite Hrec. cbn [bind].
    rewrite Hs. cbn [bind].
    unfold entry_source_type_index.
    rewrite (nb_fields_of_absent _ _ Hsrc).
    unfold classify_legacy. rewrite Hn.
    replace (0 <? S m - 1) with true by (symmetry; apply Nat.ltb_lt; lia).
    unfold od_getitem. rewrite (nb_fields_of_absent _ _ Hpeak). reflexivity. }
  split; [exact Hscan |].
  unfold notebook. rewrite Hmemo. fold nb_keys nb. now rewrite Hscan.
Qed.

Lemma legacy_scan_needs_tp_peak_resistance_witness :
  let self := __init__ "bare.nwb" MoreExamples.bare_file in
  scan (nb_fields_of MoreExamples.bare_keys) (numericalValues MoreExamples.bare_file)
  = Raise KeyError
  /\ notebook self = (Raise KeyError, self).
Proof.
  apply (legacy_scan_needs_tp_peak_resistance
           (__init__ "bare.nwb" MoreExamples.bare_file)
           (Examples.mk MoreExamples.bare_keys [Examples.at_ "SweepNum" 0 7]) 7).
  - reflexivity.
  - apply key_absent. vm_compute. reflexivity.
  - apply key_absent. vm_compute. reflexivity.
  - vm_compute. lia.
  - reflexivity.
  - vm_compute. reflexivity.
Defined.

(** X12: a row that [EntrySourceType] marks as a sweep record needs a sweep
    number: when the loop reaches such a row and [int(rec[0,0])] fails, on a
    NaN or an infinity, the scan fails with the same exception. *)
Theorem sweep_record_needs_a_sweep_number :
  forall (nb_fields : list (string * nat)) (nb : list record) (idx i : nat)
         (st : scan_state) (rec : record) (d s : float) (e : exn),
    entry_source_type_index nb_fields = Some idx ->
    visits nb_fields nb i st ->
    nth_error nb i = Some rec ->
    item rec idx 0 = Ok d ->
    isnan d = false ->
    (d =? 0)%float = true ->
    item rec 0 0 = Ok s ->
    int s = Raise e ->
    scan nb_fields nb = Raise e
    /\ (e = ValueError \/ e = OverflowError).
Proof.
  intros nb_fields nb idx i st rec d s e Hidx Hvisits Hrec Hd Hnan Hzero Hs Hint.
  split; [| exact (int_raise s e Hint)].
  destruct (visits_run _ _ _ _ Hvisits) as (Hi & fuel & Hfuel & ->).
  destruct fuel as [| fuel]; [lia |].
  cbn [for_rows]. rewrite (iter_next_lt _ _ Hi).
  unfold body, classify, record_row, sweep_number, getitem.
  rewrite Hrec. cbn [bind]. rewrite Hs. cbn [bind].
  rewrite Hidx, Hd. cbn [bind]. rewrite Hnan, Hzero. cbn [negb bind].
  now rewrite Hint.
Qed.

Lemma sweep_record_needs_a_sweep_number_witness :
  scan (nb_fields_of Examples.keys) MoreExamples.unnumbered_table
  = Raise ValueError
  /\ (ValueError = ValueError \/ ValueError = OverflowError).
Proof.
  apply (sweep_record_needs_a_sweep_number
           (nb_fields_of Examples.keys) MoreExamples.unnumbered_table 3 0
           scan_init
           (Examples.mk Examples.keys [Examples.at_ "EntrySourceType" 0 0])
           0 nan ValueError).
  - reflexivity.
  - apply visits_first. vm_compute. lia.
  - reflexivity.
  - vm_compute. reflexivity.
  - reflexivity.
  - reflexivity.
  - vm_compute. reflexivity.
  - reflexivity.
Defined.

Variable nb_fields : list (string * nat).
Variable nb : list record.

(** The exceptions of the row scan. *)
Lemma classify_raise_kinds :
  forall i it e,
    classify nb_fields nb i it = Raise e ->
    e = KeyError \/ e = IndexError \/ e = StopIteration.
Proof.
  assert (Hlegacy : forall i it rec s e,
             classify_legacy nb_fields nb i it rec s = Raise e ->
             e = KeyError \/ e = IndexError \/ e = StopIteration).
  { intros i it rec s e H. unfold classify_legacy in H.
    destruct (i <? length nb - 1); [| discriminate].
    apply bind_raise in H as [H | (k & _ & H)];
      [apply od_getitem_raise in H; auto |].
    apply bind_raise in H as [H | (tp_peak & _ & H)];
      [apply getitem_raise in H; auto |].
    destruct (existsb isfinite tp_peak); [| discriminate].
    apply bind_raise in H as [H | (rec_next & _ & H)];
      [apply getitem_raise in H; auto |].
    apply bind_raise in H as [H | (k2 & _ & H)];
      [apply od_getitem_raise in H; auto |].
    apply bind_raise in H as [H | (tp_dur & _ & H)];
      [apply getitem_raise in H; auto |].
    destruct (existsb isfinite tp_dur); [| discriminate].
    apply bind_raise in H as [H | ([x it1] & _ & H)];
      [apply iter_next_raise in H; auto | discriminate]. }
  intros i it e H. unfold classify in H.
  apply bind_raise in H as [H | (rec & _ & H)];
    [apply getitem_raise in H; auto |].
  apply bind_raise in H as [H | (sweep_num & _ & H)];
    [apply item_raise in H; auto |].
  destruct (entry_source_type_index nb_fields) as [idx |]; [| eauto].
  apply bind_raise in H as [H | (d & _ & H)];
    [apply item_raise in H; auto |].
  destruct (negb (isnan d)); [| eauto].
  destruct (d =? 0)%float; discriminate.
Qed.

Lemma record_row_raise_kinds :
  forall i it tp sw st e,
    record_row nb i it tp sw st = Raise e ->
    e = IndexError \/ e = StopIteration \/ e = ValueError \/ e = OverflowError.
Proof.
  intros i it tp sw st e H. unfold record_row in H.
  apply bind_raise in H as [H | (rec & _ & H)];
    [apply getitem_raise in H; auto |].
  destruct tp.
  - apply bind_raise in H as [H | ([x it1] & _ & H)];
      [apply iter_next_raise in H; auto |].
    apply bind_raise in H as [H | (rec2 & _ & H)];
      [apply getitem_raise in H; auto | discriminate].
  - destruct sw; [| discriminate].
    apply bind_raise in H as [H | (k & _ & H)]; [| discriminate].
    unfold sweep_number in H.
    apply bind_raise in H as [H | (s & _ & H)];
      [apply item_raise in H; auto |].
    apply int_raise in H as [-> | ->]; auto.
Qed.

Lemma for_rows_raise_kinds :
  forall fuel it st e,
    length nb - it <= fuel ->
    for_rows nb_fields nb fuel it st = Raise e ->
    e = KeyError \/ e = IndexError \/ e = StopIteration
    \/ e = ValueError \/ e = OverflowError.
Proof.
  induction fuel as [| fuel IH]; intros it st e Hfuel H; cbn [for_rows] in H.
  - destruct (iter_next (length nb) it) as [[i it1] |] eqn:E; [| discriminate].
    apply iter_next_ok in E as (_ & _ & Hlt). lia.
  - destruct (iter_next (length nb) it) as [[i it1] |] eqn:E; [| discriminate].
    apply iter_next_ok in E as (-> & -> & Hlt).
    apply bind_raise in H as [H | ([it2 st1] & Hbody & H)].
    + unfold body in H.
      apply bind_raise in H as [H | ([[tp sw] it1] & _ & H)].
      * apply classify_raise_kinds in H. tauto.
      * apply record_row_raise_kinds in H. tauto.
    + apply (IH it2 st1); [| exact H].
      apply body_advances in Hbody. lia.
Qed.

End ScanFailures.

Section NotebookFailures.

Import MiesNwb.

Lemma fold_raise :
  forall (A B : Type) (P : exn -> Prop) (f : B -> A -> result B)
         (l : list A) (acc : result B) (e : exn),
    (forall b a e', f b a = Raise e' -> P e') ->
    fold_left (fun acc a => b <- acc ;; f b a) l acc = Raise e ->
    acc = Raise e \/ P e.
Proof.
  intros A B P f. induction l as [| a l IH]; intros acc e Hf H;
    cbn [fold_left] in H.
  - now left.
  - apply (IH _ _ Hf) in H as [H | H]; [| now right].
    apply bind_raise in H as [H | (b & _ & H)]; [now left | right; eauto].
Qed.

Lemma finish_entry_raise :
  forall (nb_keys : list string) (entry : record) (e : exn),
    finish_entry nb_keys entry = Raise e -> e = IndexError.
Proof.
  intros nb_keys entry e H. unfold finish_entry in H.
  apply bind_raise in H as [H | (e1 & _ & H)].
  - unfold apply_global in H. apply mapM_raise in H as (row & _ & H).
    apply bind_raise in H as [H | (g & _ & H)];
      [now apply getitem_raise in H | discriminate].
  - apply bind_raise in H as [H | (e3 & _ & H)].
    + unfold broadcast_async in H.
      apply (fold_raise _ _ (fun e => e = IndexError)
               (fun entry ik =>
                  if String.prefix "Async AD "%string (snd ik) then
                    row <- getitem entry (fst ik) ;;
                    v <- getitem row 0 ;;
                    Ok (set_item entry (fst ik) (fill row v))
                  else Ok entry)) in H.
      * destruct H as [H | H]; [discriminate | exact H].
      * intros b a e' H'. destruct (String.prefix _ _); [| discriminate].
        apply bind_raise in H' as [H' | (row & _ & H')];
          [now apply getitem_raise in H' |].
        apply bind_raise in H' as [H' | (v & _ & H')];
          [now apply getitem_raise in H' | discriminate].
    + unfold to_dicts in H. apply mapM_raise in H as (i & _ & H).
      apply bind_raise in H as [H | (pairs & _ & H)]; [| discriminate].
      apply mapM_raise in H as (jk & _ & H).
      apply bind_raise in H as [H | (row & _ & H)];
        [now apply getitem_raise in H |].
      apply bind_raise in H as [H | (v & _ & H)];
        [now apply getitem_raise in H | discriminate].
Qed.

(** X13: the exceptions of [notebook()]. A call that fails raises
    [KeyError], [IndexError], [StopIteration], [ValueError] or
    [OverflowError], never anything else; in particular the loop over the
    rows always comes to an end. A failed call leaves the object as it
    was: nothing is memoized and none of the notebook attributes is
    created. *)
Theorem notebook_failure :
  forall (self : MiesNwb.t) (e : exn),
    fst (notebook self) = Raise e ->
    (e = KeyError \/ e = IndexError \/ e = StopIteration
     \/ e = ValueError \/ e = OverflowError)
    /\ snd (notebook self) = self.
Proof.
  intros self e H. unfold notebook in H |- *.
  destruct (_notebook self) as [cached |]; [discriminate |].
  destruct (scan _ _) as [st | e0] eqn:Hscan; cbn [bind] in H |- *.
  - destruct (mapM _ (sweep_entries st)) as [sweeps | e1] eqn:Hmap;
      cbn [bind fst snd] in H |- *; [discriminate |].
    injection H as ->. split; [| reflexivity].
    apply mapM_raise in Hmap as (se & _ & Hmap).
    apply bind_raise in Hmap as [Hmap | (meta & _ & Hmap)]; [| discriminate].
    apply finish_entry_raise in Hmap. auto.
  - cbn [fst snd] in H |- *. injection H as ->. split; [| reflexivity].
    unfold scan in Hscan.
    apply for_rows_raise_kinds in Hscan; [tauto | lia].
Qed.

Lemma notebook_failure_witness :
  let self := __init__ "truncated.nwb" Examples.truncated_file in
  (StopIteration = KeyError \/ StopIteration = IndexError
   \/ StopIteration = StopIteration
   \/ StopIteration = ValueError \/ StopIteration = OverflowError)
  /\ snd (notebook self) = self.
Proof.
  apply (notebook_failure
           (__init__ "truncated.nwb" Examples.truncated_file) StopIteration).
  vm_compute. reflexivity.
Defined.

End NotebookFailures.

(** ** Dates and test-pulse entries *)

Section EpochDifferences.

Import Datetime.

Local Open Scope Z_scope.

Lemma ok_injective :
  forall (A : Type) (a b : A), @Ok A a = Ok b -> a = b.
Proof.
  intros A a b H.
  exact (f_equal (fun r => match r with Ok x => x | Raise _ => a end) H).
Qed.

Lemma igorpro_date_ok :
  forall (t : float) (d : datetime),
    MiesNwb.igorpro_date t = Ok d ->
    exists timet us,
      timet_and_us t = Ok (timet, us)
      /\ d = midnight 1904 1 1 + (timet * 1000000 + us)
      /\ in_range (midnight 1970 1 1 + (timet * 1000000 + us)) = true.
Proof.
  intros t d H. unfold MiesNwb.igorpro_date, utcfromtimestamp in H.
  rewrite datetime_1970, datetime_1904 in H. cbn [bind] in H.
  destruct (timet_and_us t) as [[timet us] |]; [| discriminate].
  cbn [bind] in H.
  destruct (in_range (midnight 1970 1 1 + (timet * 1000000 + us))) eqn:E;
    [| discriminate].
  cbn [bind] in H. unfold sub_timedelta in H. rewrite epoch_offset in H.
  destruct (in_range (midnight 1970 1 1 + (timet * 1000000 + us)
                      - 24107 * US_PER_DAY));
    [| discriminate].
  apply ok_injective in H. subst d.
  exists timet, us. split; [reflexivity | split; [| exact E]].
  change (midnight 1970 1 1) with (midnight 1904 1 1 + 24107 * US_PER_DAY).
  lia.
Qed.

(** X14: [igorpro_date] keeps time differences. Two IgorPro time stamps
    that both convert are mapped to dates whose difference is the
    difference of the time stamps as the conversion reads them, in whole
    seconds and microseconds: the offset between the epochs cancels, so the
    distance that [_find_nearest_test_pulse] minimises is that of the raw
    notebook time stamps, divided by [10**6] as a float. *)
Theorem igorpro_date_keeps_time_differences :
  forall (t1 t2 : float) (d1 d2 : datetime),
    MiesNwb.igorpro_date t1 = Ok d1 ->
    MiesNwb.igorpro_date t2 = Ok d2 ->
    exists s1 us1 s2 us2,
      timet_and_us t1 = Ok (s1, us1)
      /\ timet_and_us t2 = Ok (s2, us2)
      /\ total_microseconds (sub_datetime d2 d1)
         = (s2 - s1) * 1000000 + (us2 - us1)
      /\ forall (entry : MiesNwb.tp_entry),
          MiesNwb.timestamp entry = d2 ->
          MiesRecording.time_distance d1 entry
          = SFabs (true_divide ((s2 - s1) * 1000000 + (us2 - us1)) 1000000).
Proof.
  intros t1 t2 d1 d2 H1 H2.
  apply igorpro_date_ok in H1 as (s1 & us1 & Hus1 & -> & _).
  apply igorpro_date_ok in H2 as (s2 & us2 & Hus2 & -> & _).
  exists s1, us1, s2, us2. split; [exact Hus1 | split; [exact Hus2 |]].
  assert (E : sub_datetime (midnight 1904 1 1 + (s2 * 1000000 + us2))
                           (midnight 1904 1 1 + (s1 * 1000000 + us1))
              = (s2 - s1) * 1000000 + (us2 - us1))
    by (unfold sub_datetime; lia).
  split.
  - unfold total_microseconds. exact E.
  - intros entry Hts.
    unfold MiesRecording.time_distance, total_seconds, total_microseconds.
    now rewrite Hts, E.
Qed.

Lemma igorpro_date_keeps_time_differences_witness :
  exists s1 us1 s2 us2,
    timet_and_us 3600000200.5 = Ok (s1, us1)
    /\ timet_and_us 3600000000 = Ok (s2, us2)
    /\ total_microseconds
         (sub_datetime (midnight 1904 1 1 + 3600000000000000)
                       (midnight 1904 1 1 + 3600000200500000))
       = (s2 - s1) * 1000000 + (us2 - us1)
    /\ forall (entry : MiesNwb.tp_entry),
        MiesNwb.timestamp entry = midnight 1904 1 1 + 3600000000000000 ->
        MiesRecording.time_distance (midnight 1904 1 1 + 3600000200500000) entry
        = SFabs (true_divide ((s2 - s1) * 1000000 + (us2 - us1)) 1000000).
Proof.
  apply (igorpro_date_keeps_time_differences
           3600000200.5 3600000000
           (midnight 1904 1 1 + 3600000200500000)
           (midnight 1904 1 1 + 3600000000000000));
    vm_compute; reflexivity.
Defined.

End EpochDifferences.

Section PartialEntries.

Import MiesNwb.

(** The loop of [test_pulse_entries] up to its first failure. *)
Lemma tp_loop_failure :
  forall (recs : list record) (self : t) (acc : list tp_entry)
         (e : exn) (self' : t),
    _tp_entries self = Present (Some acc) ->
    tp_loop recs self acc = (Raise e, self') ->
    exists done rec rest entries,
      recs = done ++ rec :: rest
      /\ mapM (tp_entry_of self) done = Ok entries
      /\ tp_entry_of self rec = Raise e
      /\ _tp_entries self' = Present (Some (acc ++ entries)).
Proof.
  induction recs as [| rec recs IH]; intros self acc e self' Hacc H;
    cbn [tp_loop] in H.
  - discriminate.
  - destruct (tp_entry_of self rec) as [entry | e0] eqn:Hentry.
    + apply IH in H; [| reflexivity].
      destruct H as (done & rec' & rest & entries & -> & Hdone & Hrec & Hstate).
      exists (rec :: done), rec', rest, (entry :: entries).
      split; [reflexivity |].
      rewrite tp_entry_of_set_tp_entries in Hrec.
      split; [| split; [exact Hrec |]].
      * cbn [mapM]. rewrite Hentry. cbn [bind].
        assert (Hsame : mapM (tp_entry_of self) done = Ok entries).
        { rewrite <- Hdone. clear. induction done as [| r done IH];
            [reflexivity |].
          cbn [mapM]. now rewrite IH, tp_entry_of_set_tp_entries. }
        now rewrite Hsame.
      * now rewrite <- app_assoc in Hstate.
    + injection H as <- <-.
      exists [], rec, recs, []. rewrite app_nil_r. auto.
Qed.

(** X15: a failure of [test_pulse_entries()] is remembered as a result.
    When the call fails on a block, the entries of the blocks before it
    stay in [_tp_entries]; the next call finds the attribute set and returns
    this incomplete list without raising. *)
Theorem test_pulse_entries_failure_leaves_partial_list :
  forall (self self' : t) (recs : list record) (e : exn),
    _tp_entries self = Present None ->
    _tp_notebook self = Present recs ->
    test_pulse_entries self = (Raise e, self') ->
    exists done rec rest partial,
      recs = done ++ rec :: rest
      /\ mapM (tp_entry_of self) done = Ok partial
      /\ tp_entry_of self rec = Raise e
      /\ test_pulse_entries self' = (Ok partial, self').
Proof.
  intros self self' recs e Hentries Hrecs H.
  unfold test_pulse_entries in H. rewrite Hentries in H.
  cbn [getattr set_tp_entries _tp_notebook] in H. rewrite Hrecs in H.
  cbn [getattr] in H.
  apply tp_loop_failure in H; [| reflexivity].
  destruct H as (done & rec & rest & partial & Hsplit & Hdone & Hrec & Hstate).
  exists done, rec, rest, partial.
  rewrite tp_entry_of_set_tp_entries in Hrec.
  split; [exact Hsplit | split; [| split; [exact Hrec |]]].
  - rewrite <- Hdone. clear. induction done as [| r done IH]; [reflexivity |].
    cbn [mapM]. now rewrite IH, tp_entry_of_set_tp_entries.
  - unfold test_pulse_entries. rewrite Hstate. reflexivity.
Qed.

Lemma test_pulse_entries_failure_leaves_partial_list_witness :
  let self := MoreExamples.untimed_nwb in
  let self' := snd (test_pulse_entries self) in
  fst (test_pulse_entries self) = Raise ValueError
  /\ exists done rec rest partial,
      [Examples.tp_block; overlay MoreExamples.untimed_row MoreExamples.untimed_row]
      = done ++ rec :: rest
      /\ mapM (tp_entry_of self) done = Ok partial
      /\ tp_entry_of self rec = Raise ValueError
      /\ test_pulse_entries self' = (Ok partial, self').
Proof.
  split; [vm_compute; reflexivity |].
  apply (test_pulse_entries_failure_leaves_partial_list
           MoreExamples.untimed_nwb
           (snd (test_pulse_entries MoreExamples.untimed_nwb))
           [Examples.tp_block;
            overlay MoreExamples.untimed_row MoreExamples.untimed_row]
           ValueError).
  - vm_compute. reflexivity.
  - vm_compute. reflexivity.
  - vm_compute. reflexivity.
Defined.

(** A successful [test_pulse_entries()] is returned again by the next
    call. *)
Lemma test_pulse_entries_memo :
  forall (self self' : t) (entries : list tp_entry),
    test_pulse_entries self = (Ok entries, self') ->
    test_pulse_entries self' = (Ok entries, self').
Proof.
  intros self self' entries H. unfold test_pulse_entries in H.
  destruct (_tp_entries self) as [| [cached |]] eqn:E; cbn [getattr] in H.
  - discriminate.
  - injection H as <- <-. unfold test_pulse_entries. now rewrite E.
  - cbn [set_tp_entries _tp_notebook] in H.
    destruct (_tp_notebook self) as [| recs]; cbn [getattr] in H;
      [discriminate |].
    apply tp_loop_state in H as [_ Hstored]; [| reflexivity].
    unfold test_pulse_entries. now rewrite (Hstored entries eq_refl).
Qed.

End PartialEntries.
